(** * Token contract resolution: a shallow embedding and its properties

    The development embeds the resilient-resolution core of the arbitrage
    bot: chain-identifier normalisation, the token-bucket rate limiter, the
    circuit breaker, the durable contract cache, the provider fallback chain
    of the contract resolver, and the five-point token verification. It
    goes on to the DexScreener client built on the limiter and the breaker,
    the token registry built on the client, and the manager of the
    resolver's limiters.

    Conventions of the embedding.
    - Python [str] values are Rocq strings; case mapping and whitespace are
      those of the ASCII range, every other byte is left unchanged.
    - Readings of [time.time()] and dollar amounts are Python floats; they
      are embedded as rationals, so rounding is not modelled.
    - [datetime] values are integers counting microseconds (the resolution
      of [datetime]).
    - A raised exception is a value of [exn]; code that may raise returns a
      [result]. *)

From Stdlib Require Import QArith Qminmax Lqa ZArith Lia Ascii String Sorted.
From stdpp Require Import base option list strings gmap pretty.

Open Scope string_scope.
Open Scope list_scope.

(** ** Python values shared by all components *)

Module Py.

(** The exception classes raised or caught by the embedded code. All of
    them derive from [Exception], so an [except Exception] clause catches
    every constructor. *)
Inductive exn : Type :=
| Exception (msg : string)
| ValueError (msg : string)
| KeyError (key : string)
| TypeError (msg : string)
| AttributeError (msg : string)
| ZeroDivisionError (msg : string)
| DexScreenerError (msg : string)
| InvalidChainError (msg : string).

Inductive result (A : Type) : Type :=
| Ok (a : A)
| Raise (e : exn).

Arguments Ok {A} a.
Arguments Raise {A} e.

(** [str(e)] for the exceptions above: the message they were built with
    (for [KeyError] Python shows the repr of the key). *)
Definition str_of_exn (e : exn) : string :=
  match e with
  | Exception m | ValueError m | TypeError m | AttributeError m
  | ZeroDivisionError m | DexScreenerError m | InvalidChainError m => m
  | KeyError k => "'" +:+ k +:+ "'"
  end.

(** [str.lower] and [str.upper]. *)
Definition lower_ascii (c : ascii) : ascii :=
  let n := N_of_ascii c in
  if ((65 <=? n) && (n <=? 90))%N then ascii_of_N (n + 32) else c.

Definition upper_ascii (c : ascii) : ascii :=
  let n := N_of_ascii c in
  if ((97 <=? n) && (n <=? 122))%N then ascii_of_N (n - 32) else c.

Fixpoint lower (s : string) : string :=
  match s with
  | EmptyString => EmptyString
  | String c r => String (lower_ascii c) (lower r)
  end.

Fixpoint upper (s : string) : string :=
  match s with
  | EmptyString => EmptyString
  | String c r => String (upper_ascii c) (upper r)
  end.

(** [str.isspace] on one character: TAB, LF, VT, FF, CR, FS, GS, RS, US and
    the space. *)
Definition is_space (c : ascii) : bool :=
  let n := N_of_ascii c in
  (((9 <=? n) && (n <=? 13)) || ((28 <=? n) && (n <=? 32)))%N.

Fixpoint lstrip (s : string) : string :=
  match s with
  | EmptyString => EmptyString
  | String c r => if is_space c then lstrip r else s
  end.

Fixpoint rstrip (s : string) : string :=
  match s with
  | EmptyString => EmptyString
  | String c r =>
      match rstrip r with
      | EmptyString => if is_space c then EmptyString else String c EmptyString
      | r' => String c r'
      end
  end.

(** [str.strip()] with no argument. *)
Definition strip (s : string) : string := rstrip (lstrip s).

(** [s.split(sep)] for a one-character separator: never the empty list,
    one more part than there are separators. *)
Fixpoint split (sep : ascii) (s : string) : list string :=
  match s with
  | EmptyString => [EmptyString]
  | String c r =>
      if Ascii.eqb c sep then EmptyString :: split sep r
      else match split sep r with
           | h :: t => String c h :: t
           | [] => [String c EmptyString]
           end
  end.

(** [sep.join(parts)]. *)
Fixpoint join (sep : string) (parts : list string) : string :=
  match parts with
  | [] => EmptyString
  | [p] => p
  | p :: ps => p +:+ sep +:+ join sep ps
  end.

(** Number of occurrences of a character. *)
Fixpoint count_char (sep : ascii) (s : string) : nat :=
  match s with
  | EmptyString => 0
  | String c r => (if Ascii.eqb c sep then 1 else 0) + count_char sep r
  end.

End Py.

Import Py.

(** ** utils/dexscreener.py: chain identifiers *)

Module ChainRegistry.

(** [DEXSCREENER_CHAINS]. *)
Definition DEXSCREENER_CHAINS : gset string :=
  list_to_set
    ["ethereum"; "bsc"; "polygon"; "arbitrum"; "optimism"; "base";
     "avalanche"; "fantom"; "solana"; "sui"; "aptos"; "zksync";
     "scroll"; "linea"; "blast"; "sonic"; "berachain"].

(** [sorted(DEXSCREENER_CHAINS)], as it appears in the error message. *)
Definition sorted_chains : list string :=
  ["aptos"; "arbitrum"; "avalanche"; "base"; "berachain"; "blast"; "bsc";
   "ethereum"; "fantom"; "linea"; "optimism"; "polygon"; "scroll";
   "solana"; "sonic"; "sui"; "zksync"].

(** [CHAIN_ALIASES]. *)
Definition CHAIN_ALIASES : gmap string string :=
  list_to_map
    [("eth", "ethereum"); ("ether", "ethereum"); ("mainnet", "ethereum");
     ("bnb", "bsc"); ("binance", "bsc"); ("matic", "polygon");
     ("poly", "polygon"); ("arb", "arbitrum"); ("op", "optimism");
     ("avax", "avalanche"); ("ftm", "fantom"); ("sol", "solana")].

(** [DexScreenerClient.normalize_chain_id]. *)
Definition normalize_chain_id (chain_input : string) : result string :=
  if decide (chain_input = "") then
    Raise (InvalidChainError "Chain identifier cannot be empty")
  else
    let normalized := strip (lower chain_input) in
    let normalized :=
      match CHAIN_ALIASES !! normalized with
      | Some target => target
      | None => normalized
      end in
    if decide (normalized ∈ DEXSCREENER_CHAINS) then Ok normalized
    else Raise (InvalidChainError
                  ("Invalid chain: '" +:+ chain_input +:+ "'. Valid chains: "
                   +:+ join ", " sorted_chains)).

(** [DexScreenerClient.make_unique_key]. *)
Definition make_unique_key (chain_id address : string) : string :=
  lower chain_id +:+ ":" +:+ lower address.

End ChainRegistry.

(** ** app/utils/rate_limiter.py and utils/dexscreener.py: token bucket

    Both files define the same [TokenBucketRateLimiter]. *)

Module RateLimiter.

#[local] Open Scope Q_scope.

Record TokenBucketRateLimiter : Type := {
  capacity : Z;
  tokens : Q;
  last_update : Q
}.

(** [__init__(requests_per_minute)], run when the clock reads [now]. *)
Definition init (requests_per_minute : Z) (now : Q) : TokenBucketRateLimiter :=
  {| capacity := requests_per_minute;
     tokens := inject_Z requests_per_minute;
     last_update := now |}.

(** Python's [min(a, b)]: [b] only when [b < a]. *)
Definition pymin (a b : Q) : Q := if Qlt_le_dec b a then b else a.

(** [acquire], with [now] the reading of [time.time()] taken once the lock
    is held. The result is the new bucket and the time at which the call
    returns: [now], or [now + wait_time] when the caller sleeps (the sleep
    lasts [wait_time]); the lock is held until then. Dividing by a zero
    capacity raises. *)
Definition acquire (now : Q) (b : TokenBucketRateLimiter)
  : result (TokenBucketRateLimiter * Q) :=
  let elapsed := now - last_update b in
  let refill := elapsed * (inject_Z (capacity b) / 60) in
  let tokens1 := pymin (inject_Z (capacity b)) (tokens b + refill) in
  if Qlt_le_dec tokens1 1 then
    if decide (capacity b = 0%Z) then Raise (ZeroDivisionError "float division by zero")
    else
      let wait_time := (1 - tokens1) * 60 / inject_Z (capacity b) in
      Ok ({| capacity := capacity b; tokens := 0; last_update := now |},
          now + wait_time)
  else
    Ok ({| capacity := capacity b; tokens := tokens1 - 1; last_update := now |},
        now).

(** Callers queue on the lock: a caller arriving at [arrival] obtains the
    lock when the previous holder has returned, not earlier. [serve] runs
    the callers in lock order and lists the times at which their
    [acquire] calls complete. *)
Fixpoint serve (b : TokenBucketRateLimiter) (free_at : Q) (arrivals : list Q)
  : result (list Q) :=
  match arrivals with
  | [] => Ok []
  | arrival :: rest =>
      let now := if Qlt_le_dec arrival free_at then free_at else arrival in
      match acquire now b with
      | Raise e => Raise e
      | Ok (b', done) =>
          match serve b' done rest with
          | Raise e => Raise e
          | Ok l => Ok (done :: l)
          end
      end
  end.

(** Completion times of the callers of a bucket created at [t0]. *)
Definition completions (requests_per_minute : Z) (t0 : Q) (arrivals : list Q)
  : result (list Q) :=
  serve (init requests_per_minute t0) t0 arrivals.

(** Membership in the closed window [[a, a + 60]] and the number of
    completions in it. *)
Definition in_window (a t : Q) : bool := Qle_bool a t && Qle_bool t (a + 60).

Definition count_in_window (a : Q) (l : list Q) : nat :=
  length (List.filter (in_window a) l).

(** The number of completions up to time [h]. *)
Definition count_upto (h : Q) (l : list Q) : nat :=
  length (List.filter (fun t => Qle_bool t h) l).

(** Tokens the bucket would hold at time [t] (no cap applied). *)
Definition level (b : TokenBucketRateLimiter) (t : Q) : Q :=
  tokens b + (t - last_update b) * (inject_Z (capacity b) / 60).

(** What holds of a bucket of capacity [C] whose previous holder released
    the lock at [free_at]. *)
Definition bucket_ok (C : Z) (b : TokenBucketRateLimiter) (free_at : Q) : Prop :=
  capacity b = C
  /\ 0 <= tokens b
  /\ last_update b <= free_at
  /\ level b free_at <= inject_Z C.

(** The tokens [acquire] finds after the refill, and its test
    [self.tokens < 1]: whether the caller is suspended. *)
Definition refilled (now : Q) (b : TokenBucketRateLimiter) : Q :=
  pymin (inject_Z (capacity b))
    (tokens b + (now - last_update b) * (inject_Z (capacity b) / 60)).

Definition suspends (now : Q) (b : TokenBucketRateLimiter) : bool :=
  if Qlt_le_dec (refilled now b) 1 then true else false.

(** No caller of the run is suspended: each one finds a token when it
    holds the lock. *)
Fixpoint never_suspends (b : TokenBucketRateLimiter) (free_at : Q)
  (arrivals : list Q) : bool :=
  match arrivals with
  | [] => true
  | arrival :: rest =>
      let now := if Qlt_le_dec arrival free_at then free_at else arrival in
      negb (suspends now b)
      && match acquire now b with
         | Raise _ => false
         | Ok (b', done) => never_suspends b' done rest
         end
  end.

End RateLimiter.

(** ** utils/dexscreener.py: circuit breaker *)

Module CircuitBreaker.

#[local] Open Scope Q_scope.

(** The values of the [state] attribute: ['closed'], ['open'],
    ['half-open']. *)
Inductive cb_state : Type := closed | open | half_open.

Record CircuitBreaker : Type := {
  failure_threshold : Z;
  timeout_seconds : Z;
  failures : Z;
  last_failure_time : option Q;
  state : cb_state
}.

(** [__init__(failure_threshold=5, timeout_seconds=60)]. *)
Definition init (failure_threshold timeout_seconds : Z) : CircuitBreaker :=
  {| failure_threshold := failure_threshold;
     timeout_seconds := timeout_seconds;
     failures := 0;
     last_failure_time := None;
     state := closed |}.

Definition default : CircuitBreaker := init 5 60.

Definition set_state (cb : CircuitBreaker) (s : cb_state) : CircuitBreaker :=
  {| failure_threshold := failure_threshold cb;
     timeout_seconds := timeout_seconds cb;
     failures := failures cb;
     last_failure_time := last_failure_time cb;
     state := s |}.

(** The [is_open] property, read when the clock shows [now]. Reading it
    may change the state. *)
Definition is_open (now : Q) (cb : CircuitBreaker) : result (bool * CircuitBreaker) :=
  match state cb with
  | closed => Ok (false, cb)
  | open =>
      match last_failure_time cb with
      | None =>
          Raise (TypeError "unsupported operand type(s) for -: 'float' and 'NoneType'")
      | Some last =>
          if Qlt_le_dec (inject_Z (timeout_seconds cb)) (now - last)
          then Ok (false, set_state cb half_open)
          else Ok (true, cb)
      end
  | half_open => Ok (false, cb)
  end.

Definition record_success (cb : CircuitBreaker) : CircuitBreaker :=
  {| failure_threshold := failure_threshold cb;
     timeout_seconds := timeout_seconds cb;
     failures := 0;
     last_failure_time := last_failure_time cb;
     state := closed |}.

Definition record_failure (now : Q) (cb : CircuitBreaker) : CircuitBreaker :=
  let failures' := (failures cb + 1)%Z in
  {| failure_threshold := failure_threshold cb;
     timeout_seconds := timeout_seconds cb;
     failures := failures';
     last_failure_time := Some now;
     state := if (failure_threshold cb <=? failures')%Z then open else state cb |}.

(** [record_failure] at each of the given times, in order. *)
Definition record_failures (times : list Q) (cb : CircuitBreaker) : CircuitBreaker :=
  fold_left (fun cb t => record_failure t cb) times cb.

(** What [is_open] reports, and the breaker it leaves. *)
Definition reports (now : Q) (cb : CircuitBreaker) (answer : bool) (cb' : CircuitBreaker) : Prop :=
  is_open now cb = Ok (answer, cb').

(** The breaker after four failures and a fifth one at [t5], then after
    the check that finds the cooldown over. *)
Definition tripped (t1 t2 t3 t4 t5 : Q) : CircuitBreaker :=
  record_failures [t1; t2; t3; t4; t5] default.

Definition trial (t1 t2 t3 t4 t5 : Q) : CircuitBreaker :=
  set_state (tripped t1 t2 t3 t4 t5) half_open.

End CircuitBreaker.

(** ** models/token_registry.py: token verification *)

Module TokenRegistry.

#[local] Open Scope Q_scope.

(** [TokenPrice] of utils/dexscreener.py. *)
Record TokenPrice : Type := {
  chain_id : string;
  contract_address : string;
  symbol : string;
  name : string;
  price_usd : Q;
  price_native : Q;
  liquidity_usd : Q;
  volume_24h : Q;
  price_change_24h : Q;
  dex_id : string;
  pair_address : string;
  unique_key : string;
  timestamp : Z
}.

(** An entry of [scam_indicators]. The source renders each as a text with
    the amount formatted in it; the embedding keeps the kind of indicator
    and the amount shown. *)
Inductive scam_indicator : Type :=
| LowLiquidity (liquidity : Q)
| LowVolume (volume : Q)
| AbnormalRatio
| SuspiciousPrice (price : Q)
| NoDexPairs.

(** The dictionary returned by [_verify_token]; [scam_reason] is [None]
    when there is no indicator, else the indicators that are joined. *)
Record verification : Type := {
  is_verified : bool;
  is_scam : bool;
  scam_reason : option (list scam_indicator);
  checks_passed : Z;
  checks_total : Z
}.

Definition Qlt_bool (x y : Q) : bool := negb (Qle_bool y x).

(** [TokenRegistry._verify_token]. *)
Definition _verify_token (chain_id address : string) (token_data : TokenPrice)
  : verification :=
  let checks_passed := 0%Z in
  let checks_total := 5%Z in
  let scam_indicators : list scam_indicator := [] in
  (* Check 1: minimum liquidity *)
  let '(checks_passed, scam_indicators) :=
    if Qle_bool 100000 (liquidity_usd token_data)
    then ((checks_passed + 1)%Z, scam_indicators)
    else (checks_passed,
          scam_indicators ++ [LowLiquidity (liquidity_usd token_data)]) in
  (* Check 2: trading volume *)
  let '(checks_passed, scam_indicators) :=
    if Qle_bool 10000 (volume_24h token_data)
    then ((checks_passed + 1)%Z, scam_indicators)
    else (checks_passed,
          scam_indicators ++ [LowVolume (volume_24h token_data)]) in
  (* Check 3: not a honeypot pattern *)
  let '(checks_passed, scam_indicators) :=
    if Qlt_bool 0 (volume_24h token_data) then
      let liquidity_to_volume_ratio :=
        liquidity_usd token_data / volume_24h token_data in
      if Qlt_bool 0.1 liquidity_to_volume_ratio
         && Qlt_bool liquidity_to_volume_ratio 100
      then ((checks_passed + 1)%Z, scam_indicators)
      else (checks_passed, scam_indicators ++ [AbnormalRatio])
    else (checks_passed, scam_indicators) in
  (* Check 4: price not suspiciously high or low *)
  let '(checks_passed, scam_indicators) :=
    if Qlt_bool 0.000001 (price_usd token_data)
       && Qlt_bool (price_usd token_data) 1000000
    then ((checks_passed + 1)%Z, scam_indicators)
    else (checks_passed,
          scam_indicators ++ [SuspiciousPrice (price_usd token_data)]) in
  (* Check 5: pairs exist *)
  let '(checks_passed, scam_indicators) :=
    if negb (String.eqb (dex_id token_data) "unknown")
    then ((checks_passed + 1)%Z, scam_indicators)
    else (checks_passed, scam_indicators ++ [NoDexPairs]) in
  {| is_verified := (4 <=? checks_passed)%Z;
     is_scam := (checks_passed <=? 2)%Z;
     scam_reason :=
       match scam_indicators with [] => None | _ => Some scam_indicators end;
     checks_passed := checks_passed;
     checks_total := checks_total |}.

(** A snapshot with the given figures; the other fields do not enter the
    verification. *)
Definition snapshot (liquidity volume price : Q) (dex : string) : TokenPrice :=
  {| chain_id := "ethereum"; contract_address := "0xabc"; symbol := "TKN";
     name := "Token"; price_usd := price; price_native := 0;
     liquidity_usd := liquidity; volume_24h := volume;
     price_change_24h := 0; dex_id := dex; pair_address := "0xdef";
     unique_key := "ethereum:0xabc"; timestamp := 0 |}.

(** The five checks one by one, each as 0 or 1; the ratio check counts
    only when the volume is positive. *)
Definition liquidity_check (td : TokenPrice) : Z :=
  if Qle_bool 100000 (liquidity_usd td) then 1 else 0.

Definition volume_check (td : TokenPrice) : Z :=
  if Qle_bool 10000 (volume_24h td) then 1 else 0.

Definition price_check (td : TokenPrice) : Z :=
  if Qlt_bool 0.000001 (price_usd td) && Qlt_bool (price_usd td) 1000000
  then 1 else 0.

Definition dex_check (td : TokenPrice) : Z :=
  if negb (String.eqb (dex_id td) "unknown") then 1 else 0.

Definition ratio_check (td : TokenPrice) : Z :=
  if Qlt_bool 0 (volume_24h td)
     && Qlt_bool 0.1 (liquidity_usd td / volume_24h td)
     && Qlt_bool (liquidity_usd td / volume_24h td) 100
  then 1 else 0.

End TokenRegistry.

(** ** app/models: the rows of the three tables *)

(** Values held by the dictionaries exchanged with the provider clients
    and by the columns filled from them. *)
Inductive value : Type :=
| VNone
| VStr (s : string)
| VInt (n : Z)
| VBool (b : bool).

(** Python truthiness and [a or b]. *)
Definition truthy (v : value) : bool :=
  match v with
  | VNone => false
  | VStr s => negb (String.eqb s "")
  | VInt n => negb (n =? 0)%Z
  | VBool b => b
  end.

Definition py_or (a b : value) : value := if truthy a then a else b.

Module ContractAddress.

Record t : Type := {
  id : Z;
  token_symbol : string;
  token_name : value;
  contract_address : string;
  blockchain : string;
  decimals : value;
  verified : value;
  created_at : Z;
  updated_at : Z;
  last_verified_at : option Z
}.

(** [timedelta.total_seconds()] of a difference of [delta] microseconds. *)
Definition total_seconds (delta : Z) : Q := Qmake delta 1000000.

(** [is_cache_valid(cache_ttl_seconds)], with [utcnow] the reading of
    [datetime.utcnow()]. *)
Definition is_cache_valid (row : t) (cache_ttl_seconds : Z) (utcnow : Z) : bool :=
  match last_verified_at row with
  | None => false
  | Some verified_at =>
      let age_seconds := total_seconds (utcnow - verified_at) in
      TokenRegistry.Qlt_bool age_seconds (inject_Z cache_ttl_seconds)
  end.

End ContractAddress.

Module FailedContractLookup.

Record t : Type := {
  id : Z;
  token_symbol : string;
  blockchain : string;
  error_message : string;
  failed_at : Z;
  retry_count : Z
}.

End FailedContractLookup.

Module ApiCallLog.

Record t : Type := {
  id : Z;
  api_name : string;
  endpoint : string;
  status_code : option Z;
  success : bool;
  response_time_ms : Z;
  called_at : Z;
  error_message : option string
}.

(** Which provider a record is about and whether the call succeeded. *)
Definition view (l : t) : string * bool := (api_name l, success l).

End ApiCallLog.

(** ** The provider clients, as the resolver sees them *)

(** The dictionary built by [CoinGeckoClient.get_contract_address]. *)
Module CoinGecko.

Record contract : Type := {
  contract_address : string;
  platform : value;
  name : value;
  symbol : string;
  decimals : value
}.

Definition to_dict (c : contract) : gmap string value :=
  <["contract_address" := VStr (contract_address c)]>
  (<["platform" := platform c]>
  (<["name" := name c]>
  (<["symbol" := VStr (symbol c)]>
  (<["decimals" := decimals c]>
  (<["source" := VStr "coingecko"]> ∅))))).

End CoinGecko.

(** An element of the list built by [OneInchClient.search_tokens]. *)
Module OneInch.

Record token : Type := {
  contract_address : string;
  symbol : string;
  name : value;
  decimals : value
}.

End OneInch.

(** An element of the list built by [DexScreenerClient.search_tokens]. *)
Module DexScreener.

Record token : Type := {
  chain_id : string;
  address : string;
  symbol : value;
  name : value;
  pairs_count : Z;
  total_liquidity : Q;
  unique_key : string
}.

End DexScreener.

(** What lies outside the resolver: the answers of the three clients. An
    answer comes with the time the call took, in microseconds, and is
    either the value the client returns or the exception that leaves the
    [try] block around it (raised by the client, by its session or by the
    rate limiter). *)
Record Providers : Type := {
  DEXSCREENER_AVAILABLE : bool;
  coingecko_search_coin : string -> Z * result (option string);
  coingecko_get_contract_address :
    string -> string -> Z * result (option CoinGecko.contract);
  oneinch_search_tokens : string -> string -> Z * result (list OneInch.token);
  dexscreener_search_tokens : string -> Z * result (list DexScreener.token)
}.

(** ** The resolver's state and the monad of its methods *)

Record Database : Type := {
  contract_addresses : list ContractAddress.t;
  failed_contract_lookups : list FailedContractLookup.t;
  api_call_logs : list ApiCallLog.t
}.

Record Metrics : Type := {
  cache_hits : Z;
  cache_misses : Z;
  api_calls_saved : Z;
  total_requests : Z
}.

(** [clock] is the wall clock in microseconds, read by [time.time()],
    [datetime.utcnow()] and the database's [now()]; [acquired] lists, in
    order, the providers whose rate limiter was acquired. *)
Record State : Type := {
  clock : Z;
  db : Database;
  metrics : Metrics;
  cache_ttl : Z;
  acquired : list string
}.

Definition M (A : Type) : Type := State -> State * result A.

Definition ret {A} (a : A) : M A := fun s => (s, Ok a).

Definition bind {A B} (c : M A) (k : A -> M B) : M B :=
  fun s =>
    match c s with
    | (s', Ok a) => k a s'
    | (s', Raise e) => (s', Raise e)
    end.

Definition raise {A} (e : exn) : M A := fun s => (s, Raise e).

(** [try: body / except Exception as e: handler]. *)
Definition try_except {A} (body : M A) (handler : exn -> M A) : M A :=
  fun s =>
    match body s with
    | (s', Ok a) => (s', Ok a)
    | (s', Raise e) => handler e s'
    end.

Notation "'let*' x ':=' c 'in' k" := (bind c (fun x => k))
  (at level 10, x name, c at level 100, k at level 200).

Definition get_state : M State := fun s => (s, Ok s).

Definition now : M Z := fun s => (s, Ok (clock s)).

Definition set_db (d : Database) : M unit :=
  fun s => ({| clock := clock s; db := d; metrics := metrics s;
               cache_ttl := cache_ttl s; acquired := acquired s |}, Ok tt).

Definition set_metrics (m : Metrics) : M unit :=
  fun s => ({| clock := clock s; db := db s; metrics := m;
               cache_ttl := cache_ttl s; acquired := acquired s |}, Ok tt).

(** A call to a client: time passes, then the answer arrives. *)
Definition call {A} (answer : Z * result A) : M A :=
  fun s => ({| clock := (clock s + fst answer)%Z; db := db s;
               metrics := metrics s; cache_ttl := cache_ttl s;
               acquired := acquired s |}, snd answer).

(** [await self.rate_limiter.acquire(api_name)]. *)
Definition rate_limiter_acquire (api_name : string) : M unit :=
  fun s => ({| clock := clock s; db := db s; metrics := metrics s;
               cache_ttl := cache_ttl s;
               acquired := acquired s ++ [api_name] |}, Ok tt).

(** [d[k]] and the string methods of a value. *)
Definition getitem (d : gmap string value) (k : string) : M value :=
  match d !! k with
  | Some v => ret v
  | None => raise (KeyError k)
  end.

Definition as_str (v : value) (method : string) : M string :=
  match v with
  | VStr s => ret s
  | _ => raise (AttributeError ("object has no attribute '" +:+ method +:+ "'"))
  end.

(** Replace the first element that satisfies [p]. *)
Fixpoint update_first {A} (p : A -> bool) (f : A -> A) (l : list A) : list A :=
  match l with
  | [] => []
  | x :: r => if p x then f x :: r else x :: update_first p f r
  end.

Definition with_contract_addresses (d : Database) (rows : list ContractAddress.t)
  : Database :=
  {| contract_addresses := rows;
     failed_contract_lookups := failed_contract_lookups d;
     api_call_logs := api_call_logs d |}.

Definition with_failed_contract_lookups (d : Database)
  (rows : list FailedContractLookup.t) : Database :=
  {| contract_addresses := contract_addresses d;
     failed_contract_lookups := rows;
     api_call_logs := api_call_logs d |}.

Definition with_api_call_logs (d : Database) (rows : list ApiCallLog.t)
  : Database :=
  {| contract_addresses := contract_addresses d;
     failed_contract_lookups := failed_contract_lookups d;
     api_call_logs := rows |}.

(** ** app/utils/contract_cache.py

    The database session is taken to work: queries, [add] and [commit] do
    not raise, so the [except] clauses that roll back are reached only by
    the exceptions of the Python code inside the [try]. *)

Module ContractCache.

Definition by_symbol_chain (token_symbol blockchain : string)
  (row : ContractAddress.t) : bool :=
  String.eqb (ContractAddress.token_symbol row) (upper token_symbol)
  && String.eqb (ContractAddress.blockchain row) (lower blockchain).

(** [ContractCache.get_cached_contract]. *)
Definition get_cached_contract (token_symbol blockchain : string)
  : M (option ContractAddress.t) :=
  let* s := get_state in
  match find (by_symbol_chain token_symbol blockchain)
             (contract_addresses (db s)) with
  | Some contract =>
      if ContractAddress.is_cache_valid contract (cache_ttl s) (clock s)
      then ret (Some contract)
      else ret None
  | None => ret None
  end.

Definition by_symbol_chain_contract (symbol blockchain contract : string)
  (row : ContractAddress.t) : bool :=
  String.eqb (ContractAddress.token_symbol row) (upper symbol)
  && String.eqb (ContractAddress.blockchain row) (lower blockchain)
  && String.eqb (ContractAddress.contract_address row) (lower contract).

(** [ContractCache.save_contract]. *)
Definition save_contract (contract_data : gmap string value)
  : M ContractAddress.t :=
  try_except
    (let* v := getitem contract_data "symbol" in
     let* symbol := as_str v "upper" in
     let* v := getitem contract_data "blockchain" in
     let* blockchain := as_str v "lower" in
     let* v := getitem contract_data "contract" in
     let* contract := as_str v "lower" in
     let* s := get_state in
     let rows := contract_addresses (db s) in
     let key := by_symbol_chain_contract symbol blockchain contract in
     match find key rows with
     | Some found =>
         let update (c : ContractAddress.t) : ContractAddress.t :=
           {| ContractAddress.id := ContractAddress.id c;
              ContractAddress.token_symbol := ContractAddress.token_symbol c;
              ContractAddress.token_name :=
                default (ContractAddress.token_name c) (contract_data !! "name");
              ContractAddress.contract_address :=
                ContractAddress.contract_address c;
              ContractAddress.blockchain := ContractAddress.blockchain c;
              ContractAddress.decimals :=
                default (ContractAddress.decimals c) (contract_data !! "decimals");
              ContractAddress.verified :=
                default (ContractAddress.verified c) (contract_data !! "verified");
              ContractAddress.created_at := ContractAddress.created_at c;
              ContractAddress.updated_at := clock s;
              ContractAddress.last_verified_at := Some (clock s) |} in
         let* _ := set_db (with_contract_addresses (db s)
                             (update_first key update rows)) in
         ret (update found)
     | None =>
         let created : ContractAddress.t :=
           {| ContractAddress.id := Z.of_nat (length rows) + 1;
              ContractAddress.token_symbol := upper symbol;
              ContractAddress.token_name :=
                default VNone (contract_data !! "name");
              ContractAddress.contract_address := lower contract;
              ContractAddress.blockchain := lower blockchain;
              ContractAddress.decimals :=
                default VNone (contract_data !! "decimals");
              ContractAddress.verified :=
                default (VBool false) (contract_data !! "verified");
              ContractAddress.created_at := clock s;
              ContractAddress.updated_at := clock s;
              ContractAddress.last_verified_at := Some (clock s) |} in
         let* _ := set_db (with_contract_addresses (db s) (rows ++ [created])) in
         ret created
     end)
    (fun e => raise e).

(** [ContractCache.log_api_call]. *)
Definition log_api_call (api_name endpoint : string) (success : bool)
  (response_time_ms : Z) (status_code : option Z)
  (error_message : option string) : M unit :=
  let* s := get_state in
  let rows := api_call_logs (db s) in
  let log_entry : ApiCallLog.t :=
    {| ApiCallLog.id := Z.of_nat (length rows) + 1;
       ApiCallLog.api_name := api_name;
       ApiCallLog.endpoint := endpoint;
       ApiCallLog.status_code := status_code;
       ApiCallLog.success := success;
       ApiCallLog.response_time_ms := response_time_ms;
       ApiCallLog.called_at := clock s;
       ApiCallLog.error_message := error_message |} in
  set_db (with_api_call_logs (db s) (rows ++ [log_entry])).

End ContractCache.

(** ** app/services/contract_resolver.py *)

Module ContractResolver.

Import ContractCache.

(** [NATIVE_TOKENS]. *)
Definition NATIVE_TOKENS : gmap string string :=
  list_to_map
    [("ethereum", "ETH"); ("bsc", "BNB"); ("polygon", "MATIC");
     ("avalanche", "AVAX"); ("fantom", "FTM"); ("arbitrum", "ETH");
     ("optimism", "ETH"); ("base", "ETH")].

(** [blockchain in NATIVE_TOKENS and token_symbol == NATIVE_TOKENS[blockchain]]. *)
Definition is_native (token_symbol blockchain : string) : bool :=
  match NATIVE_TOKENS !! blockchain with
  | Some native => String.eqb token_symbol native
  | None => false
  end.

(** [int((time.time() - start_time) * 1000)] on a clock in microseconds. *)
Definition response_time (start_time t : Z) : Z := Z.quot (t - start_time) 1000.

(** The first [try] block of [_fetch_from_apis]: [Some d] when the block
    returns [d], [None] when control goes on to the next block. *)
Definition try_coingecko (P : Providers) (token_symbol blockchain : string)
  (start_time : Z) : M (option (gmap string value)) :=
  try_except
    (let* _ := rate_limiter_acquire "coingecko" in
     let* coin_id := call (coingecko_search_coin P token_symbol) in
     match coin_id with
     | Some coin_id =>
         if String.eqb coin_id "" then ret None
         else
           let* contract_data :=
             call (coingecko_get_contract_address P coin_id blockchain) in
           match contract_data with
           | Some contract_data =>
               let* t := now in
               let* _ := log_api_call "coingecko"
                           ("/coins/" +:+ coin_id +:+ "/contract/" +:+ blockchain)
                           true (response_time start_time t) (Some 200%Z) None in
               ret (Some (CoinGecko.to_dict contract_data))
           | None => ret None
           end
     | None => ret None
     end)
    (fun e =>
       let* t := now in
       let* _ := log_api_call "coingecko" ("search/" +:+ token_symbol)
                   false (response_time start_time t) None
                   (Some (str_of_exn e)) in
       ret None).

(** The dictionary returned for a 1inch token. *)
Definition oneinch_dict (token : OneInch.token) (token_symbol blockchain : string)
  : gmap string value :=
  <["symbol" := VStr (OneInch.symbol token)]>
  (<["contract" := VStr (OneInch.contract_address token)]>
  (<["blockchain" := VStr blockchain]>
  (<["decimals" := OneInch.decimals token]>
  (<["name" := OneInch.name token]>
  (<["verified" := VBool false]>
  (<["source" := VStr "1inch"]> ∅)))))).

(** The second [try] block. *)
Definition try_oneinch (P : Providers) (token_symbol blockchain : string)
  (start_time : Z) : M (option (gmap string value)) :=
  try_except
    (let* _ := rate_limiter_acquire "1inch" in
     let* tokens := call (oneinch_search_tokens P token_symbol blockchain) in
     match tokens with
     | token :: _ =>
         let* t := now in
         let* _ := log_api_call "1inch"
                     ("/token/v1.2/" +:+ blockchain +:+ "/search")
                     true (response_time start_time t) (Some 200%Z) None in
         ret (Some (oneinch_dict token token_symbol blockchain))
     | [] => ret None
     end)
    (fun e =>
       let* t := now in
       let* _ := log_api_call "1inch"
                   ("/token/v1.2/" +:+ blockchain +:+ "/search")
                   false (response_time start_time t) None
                   (Some (str_of_exn e)) in
       ret None).

(** The dictionary returned for a DexScreener token. *)
Definition dexscreener_dict (token : DexScreener.token) (blockchain : string)
  : gmap string value :=
  <["symbol" := DexScreener.symbol token]>
  (<["contract" := VStr (DexScreener.address token)]>
  (<["blockchain" := VStr blockchain]>
  (<["decimals" := VInt 18]>
  (<["name" := DexScreener.name token]>
  (<["verified" := VBool false]>
  (<["source" := VStr "dexscreener"]> ∅)))))).

Definition on_chain (blockchain : string) (token : DexScreener.token) : bool :=
  String.eqb (lower (DexScreener.chain_id token)) (lower blockchain).

(** The third [try] block, entered when [DEXSCREENER_AVAILABLE]. *)
Definition try_dexscreener (P : Providers) (token_symbol blockchain : string)
  (start_time : Z) : M (option (gmap string value)) :=
  try_except
    (let* _ := rate_limiter_acquire "dexscreener" in
     let* tokens := call (dexscreener_search_tokens P token_symbol) in
     match find (on_chain blockchain) tokens with
     | Some token =>
         let* t := now in
         let* _ := log_api_call "dexscreener" ("/search?q=" +:+ token_symbol)
                     true (response_time start_time t) (Some 200%Z) None in
         ret (Some (dexscreener_dict token blockchain))
     | None => ret None
     end)
    (fun e =>
       let* t := now in
       let* _ := log_api_call "dexscreener" ("/search?q=" +:+ token_symbol)
                   false (response_time start_time t) None
                   (Some (str_of_exn e)) in
       ret None).

(** [ContractResolver._fetch_from_apis]. *)
Definition _fetch_from_apis (P : Providers) (token_symbol blockchain : string)
  : M (option (gmap string value)) :=
  let* start_time := now in
  let* returned := try_coingecko P token_symbol blockchain start_time in
  match returned with
  | Some contract_data => ret (Some contract_data)
  | None =>
      let* returned := try_oneinch P token_symbol blockchain start_time in
      match returned with
      | Some contract_data => ret (Some contract_data)
      | None =>
          if DEXSCREENER_AVAILABLE P then
            let* returned :=
              try_dexscreener P token_symbol blockchain start_time in
            match returned with
            | Some contract_data => ret (Some contract_data)
            | None => ret None
            end
          else ret None
      end
  end.

Definition by_failed_symbol_chain (token_symbol blockchain : string)
  (row : FailedContractLookup.t) : bool :=
  String.eqb (FailedContractLookup.token_symbol row) (upper token_symbol)
  && String.eqb (FailedContractLookup.blockchain row) (lower blockchain).

(** [ContractResolver._log_failed_lookup]. *)
Definition _log_failed_lookup (token_symbol blockchain error_message : string)
  : M unit :=
  try_except
    (let* s := get_state in
     let rows := failed_contract_lookups (db s) in
     let key := by_failed_symbol_chain token_symbol blockchain in
     match find key rows with
     | Some _ =>
         let again (failed : FailedContractLookup.t) : FailedContractLookup.t :=
           {| FailedContractLookup.id := FailedContractLookup.id failed;
              FailedContractLookup.token_symbol :=
                FailedContractLookup.token_symbol failed;
              FailedContractLookup.blockchain :=
                FailedContractLookup.blockchain failed;
              FailedContractLookup.error_message := error_message;
              FailedContractLookup.failed_at := clock s;
              FailedContractLookup.retry_count :=
                FailedContractLookup.retry_count failed + 1 |} in
         set_db (with_failed_contract_lookups (db s)
                   (update_first key again rows))
     | None =>
         let failed : FailedContractLookup.t :=
           {| FailedContractLookup.id := Z.of_nat (length rows) + 1;
              FailedContractLookup.token_symbol := upper token_symbol;
              FailedContractLookup.blockchain := lower blockchain;
              FailedContractLookup.error_message := error_message;
              FailedContractLookup.failed_at := clock s;
              FailedContractLookup.retry_count := 1 |} in
         set_db (with_failed_contract_lookups (db s) (rows ++ [failed]))
     end)
    (fun e => ret tt).

Definition incr_total_requests (m : Metrics) : Metrics :=
  {| cache_hits := cache_hits m; cache_misses := cache_misses m;
     api_calls_saved := api_calls_saved m;
     total_requests := total_requests m + 1 |}.

Definition incr_cache_hits (m : Metrics) : Metrics :=
  {| cache_hits := cache_hits m + 1; cache_misses := cache_misses m;
     api_calls_saved := api_calls_saved m;
     total_requests := total_requests m |}.

Definition incr_cache_misses (m : Metrics) : Metrics :=
  {| cache_hits := cache_hits m; cache_misses := cache_misses m + 1;
     api_calls_saved := api_calls_saved m;
     total_requests := total_requests m |}.

Definition update_metrics (f : Metrics -> Metrics) : M unit :=
  let* s := get_state in set_metrics (f (metrics s)).

(** The messages of the two [ValueError]s of the resolver. *)
Definition could_not_resolve (token_symbol blockchain : string) : exn :=
  ValueError ("Could not resolve contract address for " +:+ token_symbol
              +:+ " on " +:+ blockchain).

Definition invalid_pair_format (pair : string) : exn :=
  ValueError ("Invalid pair format: " +:+ pair
              +:+ ". Expected format: BASE/QUOTE").

(** Truthiness of the optional dictionary returned by [_fetch_from_apis]. *)
Definition some_data (o : option (gmap string value))
  : option (gmap string value) :=
  match o with
  | Some d => if decide (d = ∅) then None else Some d
  | None => None
  end.

(** [ContractResolver.get_contract_address]. *)
Definition get_contract_address (P : Providers) (token_symbol blockchain : string)
  (force_refresh : bool) : M (gmap string value) :=
  let* _ := update_metrics incr_total_requests in
  let token_symbol := upper token_symbol in
  let blockchain := lower blockchain in
  if is_native token_symbol blockchain then
    ret (<["symbol" := VStr token_symbol]>
         (<["contract" := VNone]>
         (<["blockchain" := VStr blockchain]>
         (<["decimals" := VInt 18]>
         (<["name" := VStr token_symbol]>
         (<["source" := VStr "native"]> ∅))))))
  else
    let* cached :=
      if force_refresh then ret None
      else get_cached_contract token_symbol blockchain in
    match cached with
    | Some cached =>
        let* _ := update_metrics incr_cache_hits in
        ret (<["symbol" := VStr (ContractAddress.token_symbol cached)]>
             (<["contract" := VStr (ContractAddress.contract_address cached)]>
             (<["blockchain" := VStr (ContractAddress.blockchain cached)]>
             (<["decimals" := py_or (ContractAddress.decimals cached) (VInt 18)]>
             (<["name" := py_or (ContractAddress.token_name cached)
                                (VStr token_symbol)]>
             (<["source" := VStr "cache"]>
             (<["verified" := ContractAddress.verified cached]> ∅)))))))
    | None =>
        let* _ := update_metrics incr_cache_misses in
        let* contract_data := _fetch_from_apis P token_symbol blockchain in
        match some_data contract_data with
        | Some contract_data =>
            let* _ :=
              try_except
                (let* contract := getitem contract_data "contract" in
                 let* _ :=
                   save_contract
                     (<["symbol" := VStr token_symbol]>
                      (<["contract" := contract]>
                      (<["blockchain" := VStr blockchain]>
                      (<["decimals" :=
                           default (VInt 18) (contract_data !! "decimals")]>
                      (<["name" :=
                           default (VStr token_symbol) (contract_data !! "name")]>
                      (<["verified" :=
                           default (VBool false) (contract_data !! "verified")]>
                       ∅)))))) in
                 ret tt)
                (fun e => ret tt) in
            ret (<["source" := VStr "api"]> contract_data)
        | None =>
            let* _ := _log_failed_lookup token_symbol blockchain
                        "All APIs failed" in
            raise (could_not_resolve token_symbol blockchain)
        end
    end.

(** The dictionary returned by [get_pair_contracts]. *)
Record pair_contracts : Type := {
  pair : string;
  base_token : gmap string value;
  quote_token : gmap string value;
  blockchain : string
}.

(** [ContractResolver.get_pair_contracts]. *)
Definition get_pair_contracts (P : Providers) (pair blockchain : string)
  : M pair_contracts :=
  match split "/" pair with
  | [base; quote] =>
      let base_symbol := upper base in
      let quote_symbol := upper quote in
      let* base_token := get_contract_address P base_symbol blockchain false in
      let* quote_token := get_contract_address P quote_symbol blockchain false in
      ret {| pair := pair; base_token := base_token;
             quote_token := quote_token; blockchain := blockchain |}
  | _ => raise (invalid_pair_format pair)
  end.

End ContractResolver.

(** ** The fallback chain, as the specification describes it

    Providers are tried in a fixed order; each attempt ends in an error,
    in not-found or in a record. *)

Module FallbackChain.

Import ContractResolver.

Inductive outcome : Type :=
| Failed (e : exn)
| NotFound
| Found (d : gmap string value).

(** What a provider answers to the resolver's request. *)
Definition coingecko_outcome (P : Providers) (token_symbol blockchain : string)
  : outcome :=
  match snd (coingecko_search_coin P token_symbol) with
  | Raise e => Failed e
  | Ok None => NotFound
  | Ok (Some coin_id) =>
      if String.eqb coin_id "" then NotFound
      else match snd (coingecko_get_contract_address P coin_id blockchain) with
           | Raise e => Failed e
           | Ok None => NotFound
           | Ok (Some contract_data) => Found (CoinGecko.to_dict contract_data)
           end
  end.

Definition oneinch_outcome (P : Providers) (token_symbol blockchain : string)
  : outcome :=
  match snd (oneinch_search_tokens P token_symbol blockchain) with
  | Raise e => Failed e
  | Ok [] => NotFound
  | Ok (token :: _) => Found (oneinch_dict token token_symbol blockchain)
  end.

Definition dexscreener_outcome (P : Providers) (token_symbol blockchain : string)
  : outcome :=
  match snd (dexscreener_search_tokens P token_symbol) with
  | Raise e => Failed e
  | Ok tokens =>
      match find (on_chain blockchain) tokens with
      | Some token => Found (dexscreener_dict token blockchain)
      | None => NotFound
      end
  end.

(** The providers in priority order, each with its outcome. *)
Definition attempts (P : Providers) (token_symbol blockchain : string)
  : list (string * outcome) :=
  [("coingecko", coingecko_outcome P token_symbol blockchain);
   ("1inch", oneinch_outcome P token_symbol blockchain)]
  ++ (if DEXSCREENER_AVAILABLE P
      then [("dexscreener", dexscreener_outcome P token_symbol blockchain)]
      else []).

Definition failed (attempt : string * outcome) : Prop :=
  match snd attempt with
  | Found _ => False
  | _ => True
  end.

(** First success wins: the record returned, the providers tried, and the
    call-log records written, as (provider, success) pairs. An attempt
    that ends in not-found writes no record. *)
Fixpoint fallback (l : list (string * outcome))
  : option (gmap string value) * list string * list (string * bool) :=
  match l with
  | [] => (None, [], [])
  | (provider, Found d) :: _ => (Some d, [provider], [(provider, true)])
  | (provider, Failed _) :: rest =>
      let '(returned, tried, logs) := fallback rest in
      (returned, provider :: tried, (provider, false) :: logs)
  | (provider, NotFound) :: rest =>
      let '(returned, tried, logs) := fallback rest in
      (returned, provider :: tried, logs)
  end.

(** The records written for a run of failed attempts. *)
Fixpoint logged_failures (l : list (string * outcome)) : list (string * bool) :=
  match l with
  | [] => []
  | (provider, Failed _) :: rest => (provider, false) :: logged_failures rest
  | _ :: rest => logged_failures rest
  end.

(** The (provider, success) pairs of the call log. *)
Definition call_log (s : State) : list (string * bool) :=
  map ApiCallLog.view (api_call_logs (db s)).

(** The parts of the state that the fallback chain leaves alone. *)
Definition same_tables (s s' : State) : Prop :=
  contract_addresses (db s') = contract_addresses (db s)
  /\ failed_contract_lookups (db s') = failed_contract_lookups (db s)
  /\ metrics s' = metrics s
  /\ cache_ttl s' = cache_ttl s.

(** [effect s s' tried logs]: from [s] to [s'] the rate limiters of
    [tried] were acquired, the records [logs] were appended to the call
    log, and nothing else changed but the clock. *)
Definition effect (s s' : State) (tried : list string)
  (logs : list (string * bool)) : Prop :=
  acquired s' = acquired s ++ tried
  /\ call_log s' = call_log s ++ logs
  /\ same_tables s s'.

(** What one provider contributes to the result and to the call log. *)
Definition returned (o : outcome) : option (gmap string value) :=
  match o with
  | Found d => Some d
  | _ => None
  end.

Definition logs_of (provider : string) (o : outcome) : list (string * bool) :=
  match o with
  | Found _ => [(provider, true)]
  | Failed _ => [(provider, false)]
  | NotFound => []
  end.

(** A pair text with exactly one separator and two non-empty parts. *)
Definition two_nonempty_parts (pair : string) : bool :=
  match split "/" pair with
  | [base; quote] => negb (String.eqb base "") && negb (String.eqb quote "")
  | _ => false
  end.

End FallbackChain.

(** ** Scenarios *)

Module Scenario.

(** A resolver that has just been created: empty tables, a TTL of 24
    hours. *)
Definition fresh : State :=
  {| clock := 0;
     db := {| contract_addresses := [];
              failed_contract_lookups := [];
              api_call_logs := [] |};
     metrics := {| cache_hits := 0; cache_misses := 0;
                   api_calls_saved := 0; total_requests := 0 |};
     cache_ttl := 86400;
     acquired := [] |}.

Definition usdt : OneInch.token :=
  {| OneInch.contract_address := "0xdac17f958d2ee523a2206206994597c13d831ec7";
     OneInch.symbol := "USDT";
     OneInch.name := VStr "Tether USD";
     OneInch.decimals := VInt 6 |}.

(** No provider knows any token; every call takes 1 ms. *)
Definition nothing_found : Providers :=
  {| DEXSCREENER_AVAILABLE := true;
     coingecko_search_coin := fun _ => (1000%Z, Ok None);
     coingecko_get_contract_address := fun _ _ => (1000%Z, Ok None);
     oneinch_search_tokens := fun _ _ => (1000%Z, Ok []);
     dexscreener_search_tokens := fun _ => (1000%Z, Ok []) |}.

(** CoinGecko does not know the token, 1inch answers every search with
    USDT. *)
Definition coingecko_misses : Providers :=
  {| DEXSCREENER_AVAILABLE := true;
     coingecko_search_coin := fun _ => (1000%Z, Ok None);
     coingecko_get_contract_address := fun _ _ => (1000%Z, Ok None);
     oneinch_search_tokens := fun _ _ => (1000%Z, Ok [usdt]);
     dexscreener_search_tokens := fun _ => (1000%Z, Ok []) |}.

(** CoinGecko raises, 1inch answers every search with USDT. *)
Definition coingecko_raises : Providers :=
  {| DEXSCREENER_AVAILABLE := true;
     coingecko_search_coin := fun _ => (1000%Z, Raise (Exception "timeout"));
     coingecko_get_contract_address := fun _ _ => (1000%Z, Ok None);
     oneinch_search_tokens := fun _ _ => (1000%Z, Ok [usdt]);
     dexscreener_search_tokens := fun _ => (1000%Z, Ok []) |}.

(** Every provider raises. *)
Definition all_raise : Providers :=
  {| DEXSCREENER_AVAILABLE := true;
     coingecko_search_coin := fun _ => (1000%Z, Raise (Exception "timeout"));
     coingecko_get_contract_address := fun _ _ => (1000%Z, Ok None);
     oneinch_search_tokens := fun _ _ => (1000%Z, Raise (Exception "refused"));
     dexscreener_search_tokens :=
       fun _ => (1000%Z, Raise (DexScreenerError "Circuit breaker is open due to repeated failures")) |}.

(** A USDT row stamped as verified at time 0, and the same row never
    stamped. *)
Definition stamped : ContractAddress.t :=
  {| ContractAddress.id := 1;
     ContractAddress.token_symbol := "USDT";
     ContractAddress.token_name := VStr "Tether USD";
     ContractAddress.contract_address :=
       "0xdac17f958d2ee523a2206206994597c13d831ec7";
     ContractAddress.blockchain := "ethereum";
     ContractAddress.decimals := VInt 6;
     ContractAddress.verified := VBool false;
     ContractAddress.created_at := 0;
     ContractAddress.updated_at := 0;
     ContractAddress.last_verified_at := Some 0%Z |}.

Definition unstamped : ContractAddress.t :=
  {| ContractAddress.id := 1;
     ContractAddress.token_symbol := "USDT";
     ContractAddress.token_name := VStr "Tether USD";
     ContractAddress.contract_address :=
       "0xdac17f958d2ee523a2206206994597c13d831ec7";
     ContractAddress.blockchain := "ethereum";
     ContractAddress.decimals := VInt 6;
     ContractAddress.verified := VBool false;
     ContractAddress.created_at := 0;
     ContractAddress.updated_at := 0;
     ContractAddress.last_verified_at := None |}.

(** A resolver whose cache holds the given rows, one hour after time 0. *)
Definition holding (rows : list ContractAddress.t) : State :=
  {| clock := 3600000000;
     db := {| contract_addresses := rows;
              failed_contract_lookups := [];
              api_call_logs := [] |};
     metrics := {| cache_hits := 0; cache_misses := 0;
                   api_calls_saved := 0; total_requests := 0 |};
     cache_ttl := 86400;
     acquired := [] |}.

End Scenario.

(** ** Sorting as [list.sort(key=..., reverse=True)] does

    The sort is stable: of two elements with the same key the one that
    came first stays first. *)

Module PySort.

#[local] Open Scope Q_scope.

Section Sort.

Context {A : Type} (key : A -> Q).

Fixpoint insert_desc (x : A) (l : list A) : list A :=
  match l with
  | [] => [x]
  | y :: r =>
      if TokenRegistry.Qlt_bool (key x) (key y) then y :: insert_desc x r
      else x :: y :: r
  end.

Definition sort_desc (l : list A) : list A := fold_right insert_desc [] l.

End Sort.

End PySort.

(** ** utils/dexscreener.py: the client

    The network is a function from the URL and the number of requests the
    client has sent before to a reply: the time the request takes and what
    comes back. The body of a 200 is taken to be a JSON object, of which
    the client reads ["pairs"]. The fields of a pair are those the client
    reads; numbers arrive as numbers, a missing field is [None]. *)

Module DexClient.

#[local] Open Scope Q_scope.

(** The exceptions that pass through the client: those of [exn] and
    [NoLiquidityError], a subclass of [DexScreenerError]. *)
Inductive exc : Type :=
| Base (e : exn)
| NoLiquidityError (msg : string).

(** [isinstance(e, DexScreenerError)]. *)
Definition is_dexscreener_error (e : exc) : bool :=
  match e with
  | NoLiquidityError _ => true
  | Base (DexScreenerError _) => true
  | Base (InvalidChainError _) => true
  | Base _ => false
  end.

Inductive res (A : Type) : Type :=
| Returned (a : A)
| Raised (e : exc).

Arguments Returned {A} a.
Arguments Raised {A} e.

(** An element of ["pairs"] in a reply. *)
Record pair : Type := {
  chainId : option string;
  baseToken_address : string;
  baseToken_symbol : string;
  baseToken_name : string;
  priceUsd : option Q;
  priceNative : option Q;
  liquidity_usd : option Q;
  volume_h24 : option Q;
  priceChange_h24 : option Q;
  dexId : option string;
  pairAddress : option string
}.

(** What a request ends in: a status with its body, a timeout or a
    network error. The body of a 200 is the value of ["pairs"], if any. *)
Inductive response : Type :=
| Status200 (pairs : option (list pair))
| Status429
| Status404 (text : string)
| StatusOther (status : Z) (text : string)
| TimeoutError
| ClientError (msg : string).

Record reply : Type := {
  latency : Q;
  answer : response
}.

Definition Network : Type := string -> nat -> reply.

Record Metrics : Type := {
  requests_success : Z;
  requests_failed : Z;
  cache_hits : Z;
  cache_misses : Z;
  rate_limit_waits : Z;
  chain_errors : gmap string Z
}.

(** The client: [clock] is the reading of [time.time()], [sent] the
    number of requests sent so far. *)
Record Client : Type := {
  clock : Q;
  sent : nat;
  pair_limiter : RateLimiter.TokenBucketRateLimiter;
  profile_limiter : RateLimiter.TokenBucketRateLimiter;
  circuit_breaker : CircuitBreaker.CircuitBreaker;
  cache : gmap string (TokenRegistry.TokenPrice * Q);
  cache_ttl : Q;
  metrics : Metrics
}.

(** [DexScreenerClient.__init__], run when the clock reads [now]. *)
Definition init (now : Q) : Client :=
  {| clock := now;
     sent := 0;
     pair_limiter := RateLimiter.init 300 now;
     profile_limiter := RateLimiter.init 60 now;
     circuit_breaker := CircuitBreaker.default;
     cache := ∅;
     cache_ttl := 300;
     metrics := {| requests_success := 0; requests_failed := 0;
                   cache_hits := 0; cache_misses := 0;
                   rate_limit_waits := 0; chain_errors := ∅ |} |}.

Definition BASE_URL : string := "https://api.dexscreener.com/latest/dex".

Definition M (A : Type) : Type := Client -> Client * res A.

Definition ret {A} (a : A) : M A := fun c => (c, Returned a).

Definition bind {A B} (m : M A) (k : A -> M B) : M B :=
  fun c =>
    match m c with
    | (c', Returned a) => k a c'
    | (c', Raised e) => (c', Raised e)
    end.

Definition raise {A} (e : exc) : M A := fun c => (c, Raised e).

Definition set_clock (c : Client) (t : Q) : Client :=
  {| clock := t; sent := sent c; pair_limiter := pair_limiter c;
     profile_limiter := profile_limiter c;
     circuit_breaker := circuit_breaker c; cache := cache c;
     cache_ttl := cache_ttl c; metrics := metrics c |}.

Definition set_breaker (c : Client) (cb : CircuitBreaker.CircuitBreaker)
  : Client :=
  {| clock := clock c; sent := sent c; pair_limiter := pair_limiter c;
     profile_limiter := profile_limiter c;
     circuit_breaker := cb; cache := cache c;
     cache_ttl := cache_ttl c; metrics := metrics c |}.

Definition set_metrics (c : Client) (m : Metrics) : Client :=
  {| clock := clock c; sent := sent c; pair_limiter := pair_limiter c;
     profile_limiter := profile_limiter c;
     circuit_breaker := circuit_breaker c; cache := cache c;
     cache_ttl := cache_ttl c; metrics := m |}.

Definition set_cache (c : Client)
  (entries : gmap string (TokenRegistry.TokenPrice * Q)) : Client :=
  {| clock := clock c; sent := sent c; pair_limiter := pair_limiter c;
     profile_limiter := profile_limiter c;
     circuit_breaker := circuit_breaker c; cache := entries;
     cache_ttl := cache_ttl c; metrics := metrics c |}.

(** [await asyncio.sleep(seconds)]. *)
Definition sleep (seconds : Q) : M unit :=
  fun c => (set_clock c (clock c + seconds), Returned tt).

(** [await limiter.acquire()] on the limiter chosen by [is_profile]. *)
Definition limiter_acquire (is_profile : bool) : M unit :=
  fun c =>
    let limiter := if is_profile then profile_limiter c else pair_limiter c in
    match RateLimiter.acquire (clock c) limiter with
    | Raise e => (c, Raised (Base e))
    | Ok (limiter', done) =>
        ({| clock := done; sent := sent c;
            pair_limiter := if is_profile then pair_limiter c else limiter';
            profile_limiter :=
              if is_profile then limiter' else profile_limiter c;
            circuit_breaker := circuit_breaker c; cache := cache c;
            cache_ttl := cache_ttl c; metrics := metrics c |}, Returned tt)
    end.

(** [self.session.get(url, timeout=10)] up to the status or the error. *)
Definition request (net : Network) (url : string) : M response :=
  fun c =>
    let r := net url (sent c) in
    ({| clock := clock c + latency r; sent := S (sent c);
        pair_limiter := pair_limiter c; profile_limiter := profile_limiter c;
        circuit_breaker := circuit_breaker c; cache := cache c;
        cache_ttl := cache_ttl c; metrics := metrics c |},
     Returned (answer r)).

Definition count_success (m : Metrics) : Metrics :=
  {| requests_success := requests_success m + 1;
     requests_failed := requests_failed m; cache_hits := cache_hits m;
     cache_misses := cache_misses m; rate_limit_waits := rate_limit_waits m;
     chain_errors := chain_errors m |}.

Definition count_failed (m : Metrics) : Metrics :=
  {| requests_success := requests_success m;
     requests_failed := requests_failed m + 1; cache_hits := cache_hits m;
     cache_misses := cache_misses m; rate_limit_waits := rate_limit_waits m;
     chain_errors := chain_errors m |}.

Definition count_cache_hit (m : Metrics) : Metrics :=
  {| requests_success := requests_success m;
     requests_failed := requests_failed m; cache_hits := cache_hits m + 1;
     cache_misses := cache_misses m; rate_limit_waits := rate_limit_waits m;
     chain_errors := chain_errors m |}.

Definition count_cache_miss (m : Metrics) : Metrics :=
  {| requests_success := requests_success m;
     requests_failed := requests_failed m; cache_hits := cache_hits m;
     cache_misses := cache_misses m + 1;
     rate_limit_waits := rate_limit_waits m;
     chain_errors := chain_errors m |}.

Definition count_rate_limit_wait (m : Metrics) : Metrics :=
  {| requests_success := requests_success m;
     requests_failed := requests_failed m; cache_hits := cache_hits m;
     cache_misses := cache_misses m;
     rate_limit_waits := rate_limit_waits m + 1;
     chain_errors := chain_errors m |}.

(** [chain_errors[chain]] set to 0 when absent, then counted up. *)
Definition count_chain_error (chain : string) (m : Metrics) : Metrics :=
  {| requests_success := requests_success m;
     requests_failed := requests_failed m; cache_hits := cache_hits m;
     cache_misses := cache_misses m; rate_limit_waits := rate_limit_waits m;
     chain_errors :=
       <[chain := (default 0%Z (chain_errors m !! chain) + 1)%Z]>
         (chain_errors m) |}.

Definition max_retries : Z := 3.

(** The 429 backoff [min(2 ** attempt * 2, 30)] and the pause before a
    retry [2 ** attempt]. *)
Definition backoff (attempt : Z) : Z := Z.min (2 ^ attempt * 2) 30.

Definition pause (attempt : Z) : Z := (2 ^ attempt)%Z.

(** The body of the [for attempt in range(max_retries)] loop of [_fetch]
    and what follows the loop. *)
Fixpoint attempt_loop (net : Network) (endpoint : string) (is_profile : bool)
  (attempts : list Z) (last_error : option exc) : M (option (list pair)) :=
  match attempts with
  | [] =>
      fun c =>
        (set_metrics
           (set_breaker c
              (CircuitBreaker.record_failure (clock c) (circuit_breaker c)))
           (count_failed (metrics c)),
         Raised
           (match last_error with
            | Some e => e
            | None =>
                Base (DexScreenerError
                        ("Failed to fetch " +:+ endpoint +:+ " after "
                         +:+ pretty max_retries +:+ " attempts"))
            end))
  | attempt :: rest =>
      let retry_after (e : exc) : M (option (list pair)) :=
        bind (if (attempt <? max_retries - 1)%Z
              then sleep (inject_Z (pause attempt)) else ret tt)
             (fun _ => attempt_loop net endpoint is_profile rest (Some e)) in
      bind (limiter_acquire is_profile) (fun _ =>
      bind (request net (BASE_URL +:+ "/" +:+ endpoint)) (fun resp =>
        match resp with
        | Status200 data =>
            fun c =>
              (set_metrics
                 (set_breaker c
                    (CircuitBreaker.record_success (circuit_breaker c)))
                 (count_success (metrics c)),
               Returned data)
        | Status429 =>
            bind (fun c => (set_metrics c (count_rate_limit_wait (metrics c)),
                            Returned tt)) (fun _ =>
            bind (sleep (inject_Z (backoff attempt))) (fun _ =>
            attempt_loop net endpoint is_profile rest last_error))
        | Status404 text =>
            raise (Base (DexScreenerError
                           ("Not found: " +:+ endpoint +:+ ". Response: "
                            +:+ text)))
        | StatusOther status text =>
            raise (Base (DexScreenerError
                           ("API error " +:+ pretty status +:+ ": " +:+ text)))
        | TimeoutError =>
            retry_after
              (Base (DexScreenerError ("Request timeout for " +:+ endpoint)))
        | ClientError msg =>
            retry_after (Base (DexScreenerError ("Network error: " +:+ msg)))
        end))
  end.

(** [DexScreenerClient._fetch]. *)
Definition _fetch (net : Network) (endpoint : string) (is_profile : bool)
  : M (option (list pair)) :=
  fun c =>
    match CircuitBreaker.is_open (clock c) (circuit_breaker c) with
    | Raise e => (c, Raised (Base e))
    | Ok (true, cb) =>
        (set_breaker c cb,
         Raised (Base (DexScreenerError
                         "Circuit breaker is open due to repeated failures")))
    | Ok (false, cb) =>
        attempt_loop net endpoint is_profile [0; 1; 2]%Z None
          (set_breaker c cb)
    end.

(** [int(x)] of a float: truncation towards zero. *)
Definition int_of (x : Q) : Z := Z.quot (Qnum x) (Z.pos (Qden x)).

(** The [TokenPrice] built from a pair of the reply. *)
Definition to_price (chain_normalized token_address cache_key : string)
  (now : Q) (p : pair) : TokenRegistry.TokenPrice :=
  {| TokenRegistry.chain_id := chain_normalized;
     TokenRegistry.contract_address := lower token_address;
     TokenRegistry.symbol := baseToken_symbol p;
     TokenRegistry.name := baseToken_name p;
     TokenRegistry.price_usd := default 0 (priceUsd p);
     TokenRegistry.price_native := default 0 (priceNative p);
     TokenRegistry.liquidity_usd := default 0 (liquidity_usd p);
     TokenRegistry.volume_24h := default 0 (volume_h24 p);
     TokenRegistry.price_change_24h := default 0 (priceChange_h24 p);
     TokenRegistry.dex_id := default "unknown" (dexId p);
     TokenRegistry.pair_address := default "" (pairAddress p);
     TokenRegistry.unique_key := cache_key;
     TokenRegistry.timestamp := int_of now |}.

(** [pair.get('chainId', '').lower() == chain_normalized]. *)
Definition pair_on_chain (chain_normalized : string) (p : pair) : bool :=
  String.eqb (lower (default "" (chainId p))) chain_normalized.

(** The cached entry for a key, when it is younger than the TTL. *)
Definition cache_lookup (c : Client) (cache_key : string)
  : option TokenRegistry.TokenPrice :=
  match cache c !! cache_key with
  | Some (cached_data, cached_time) =>
      if TokenRegistry.Qlt_bool (clock c - cached_time) (cache_ttl c)
      then Some cached_data else None
  | None => None
  end.

(** [try: ... except DexScreenerError: count the chain error; raise]. *)
Definition counting_chain_errors {A} (chain_normalized : string) (body : M A)
  : M A :=
  fun c =>
    match body c with
    | (c', Returned a) => (c', Returned a)
    | (c', Raised e) =>
        if is_dexscreener_error e
        then (set_metrics c' (count_chain_error chain_normalized (metrics c')),
              Raised e)
        else (c', Raised e)
    end.

(** [DexScreenerClient.get_token_pairs]. *)
Definition get_token_pairs (net : Network) (chain token_address : string)
  : M (list TokenRegistry.TokenPrice) :=
  fun c =>
    match ChainRegistry.normalize_chain_id chain with
    | Raise e => (c, Raised (Base e))
    | Ok chain_normalized =>
        let cache_key :=
          ChainRegistry.make_unique_key chain_normalized token_address in
        match cache_lookup c cache_key with
        | Some cached_data =>
            (set_metrics c (count_cache_hit (metrics c)),
             Returned [cached_data])
        | None =>
            counting_chain_errors chain_normalized
              (bind (_fetch net ("tokens/" +:+ token_address) false)
                 (fun data =>
                    match data with
                    | None | Some [] =>
                        raise (NoLiquidityError
                                 ("No pairs found for " +:+ token_address
                                  +:+ " on " +:+ chain_normalized))
                    | Some pairs =>
                        fun c =>
                          let results :=
                            PySort.sort_desc TokenRegistry.liquidity_usd
                              (map (to_price chain_normalized token_address
                                      cache_key (clock c))
                                 (List.filter (pair_on_chain chain_normalized)
                                    pairs)) in
                          (match results with
                           | best :: _ =>
                               set_cache c
                                 (<[cache_key := (best, clock c)]> (cache c))
                           | [] => c
                           end, Returned results)
                    end))
              (set_metrics c (count_cache_miss (metrics c)))
        end
    end.

(** [DexScreenerClient.get_token_price]. *)
Definition get_token_price (net : Network) (chain token_address : string)
  : M (option TokenRegistry.TokenPrice) :=
  fun c =>
    match get_token_pairs net chain token_address c with
    | (c', Returned pairs) => (c', Returned (head pairs))
    | (c', Raised (NoLiquidityError _)) => (c', Returned None)
    | (c', Raised e) => (c', Raised e)
    end.

(** The dictionary [dex_prices] of [compare_prices_across_dexes], in
    insertion order: a pair replaces the entry of its DEX only when its
    liquidity is strictly larger. *)
Fixpoint put_dex (p : TokenRegistry.TokenPrice)
  (entries : list (string * TokenRegistry.TokenPrice))
  : list (string * TokenRegistry.TokenPrice) :=
  match entries with
  | [] => [(TokenRegistry.dex_id p, p)]
  | (dex, q) :: rest =>
      if String.eqb dex (TokenRegistry.dex_id p)
      then (dex, if TokenRegistry.Qlt_bool (TokenRegistry.liquidity_usd q)
                      (TokenRegistry.liquidity_usd p) then p else q) :: rest
      else (dex, q) :: put_dex p rest
  end.

Definition best_per_dex (all_pairs : list TokenRegistry.TokenPrice)
  : list TokenRegistry.TokenPrice :=
  map snd (fold_left (fun entries p => put_dex p entries) all_pairs []).

(** [DexScreenerClient.compare_prices_across_dexes]. *)
Definition compare_prices_across_dexes (net : Network)
  (chain token_address : string) : M (list TokenRegistry.TokenPrice) :=
  bind (get_token_pairs net chain token_address)
    (fun all_pairs => ret (best_per_dex all_pairs)).

(** The dictionary [tokens_by_key] of [search_tokens], in insertion order:
    the first pair of a token fixes its fields, every pair counts. *)
Fixpoint count_pair (key : string) (p : pair)
  (entries : list (string * DexScreener.token))
  : list (string * DexScreener.token) :=
  match entries with
  | [] =>
      [(key,
        {| DexScreener.chain_id := lower (default "" (chainId p));
           DexScreener.address := lower (baseToken_address p);
           DexScreener.symbol := VStr (baseToken_symbol p);
           DexScreener.name := VStr (baseToken_name p);
           DexScreener.pairs_count := 1;
           DexScreener.total_liquidity := 0 + default 0 (liquidity_usd p);
           DexScreener.unique_key := key |})]
  | (k, t) :: rest =>
      if String.eqb k key
      then (k,
            {| DexScreener.chain_id := DexScreener.chain_id t;
               DexScreener.address := DexScreener.address t;
               DexScreener.symbol := DexScreener.symbol t;
               DexScreener.name := DexScreener.name t;
               DexScreener.pairs_count := (DexScreener.pairs_count t + 1)%Z;
               DexScreener.total_liquidity :=
                 DexScreener.total_liquidity t + default 0 (liquidity_usd p);
               DexScreener.unique_key := DexScreener.unique_key t |}) :: rest
      else (k, t) :: count_pair key p rest
  end.

Definition pair_key (p : pair) : string :=
  ChainRegistry.make_unique_key (lower (default "" (chainId p)))
    (lower (baseToken_address p)).

Definition group_tokens (pairs : list pair) : list DexScreener.token :=
  map snd
    (fold_left (fun entries p => count_pair (pair_key p) p entries) pairs []).

(** What holds of every entry of the dictionary of [search_tokens]: the
    token carries its key, the key is that of its chain and address, and
    at least one pair is counted. *)
Definition token_entry_ok (e : string * DexScreener.token) : Prop :=
  DexScreener.unique_key (snd e) = fst e
  /\ ChainRegistry.make_unique_key (DexScreener.chain_id (snd e))
       (DexScreener.address (snd e)) = fst e
  /\ (1 <= DexScreener.pairs_count (snd e))%Z.

(** [DexScreenerClient.search_tokens]. *)
Definition search_tokens (net : Network) (query : string)
  : M (list DexScreener.token) :=
  bind (_fetch net ("search?q=" +:+ query) true)
    (fun data =>
       match data with
       | None | Some [] => ret []
       | Some pairs => ret (group_tokens pairs)
       end).

(** [TokenPrice.is_liquid]. *)
Definition is_liquid (p : TokenRegistry.TokenPrice) : bool :=
  Qle_bool 100000 (TokenRegistry.liquidity_usd p).

(** What the client relies on: an open breaker has a time of last
    failure. *)
Definition breaker_ok (cb : CircuitBreaker.CircuitBreaker) : Prop :=
  CircuitBreaker.state cb = CircuitBreaker.open ->
  CircuitBreaker.last_failure_time cb <> None.

Definition client_ok (c : Client) : Prop :=
  breaker_ok (circuit_breaker c)
  /\ RateLimiter.capacity (pair_limiter c) <> 0%Z
  /\ RateLimiter.capacity (profile_limiter c) <> 0%Z.

(** A reply after which [_fetch] tries again. *)
Definition retryable (r : response) : bool :=
  match r with
  | Status429 | TimeoutError | ClientError _ => true
  | _ => false
  end.

(** A reply with an error status other than 429. *)
Definition http_error (r : response) : bool :=
  match r with
  | Status404 _ | StatusOther _ _ => true
  | _ => false
  end.

(** What the retries of [_fetch] leave alone: the breaker, the cache, the
    capacities of the limiters and all counters but [rate_limit_waits]. *)
Definition retry_frame (c c' : Client) : Prop :=
  circuit_breaker c' = circuit_breaker c
  /\ cache c' = cache c
  /\ cache_ttl c' = cache_ttl c
  /\ RateLimiter.capacity (pair_limiter c')
     = RateLimiter.capacity (pair_limiter c)
  /\ RateLimiter.capacity (profile_limiter c')
     = RateLimiter.capacity (profile_limiter c)
  /\ requests_success (metrics c') = requests_success (metrics c)
  /\ requests_failed (metrics c') = requests_failed (metrics c)
  /\ cache_hits (metrics c') = cache_hits (metrics c)
  /\ cache_misses (metrics c') = cache_misses (metrics c)
  /\ chain_errors (metrics c') = chain_errors (metrics c).

(** The reply to the [i]-th request sent from client [c] on. *)
Definition reply_at (net : Network) (endpoint : string) (c : Client) (i : nat)
  : response :=
  answer (net (BASE_URL +:+ "/" +:+ endpoint) (sent c + i)%nat).

(** The ways out of the retry loop of [_fetch] with [n] attempts: after
    [k] replies that call for a retry, a 200 or an error status; or [n]
    replies that call for a retry. [c1] is the client when the loop is
    left. *)
Inductive attempted (net : Network) (endpoint : string) (c : Client) (n : nat)
  : Client -> res (option (list pair)) -> Prop :=
| attempted_ok (c1 : Client) (k : nat) (data : option (list pair)) :
    retry_frame c c1 ->
    sent c1 = (sent c + S k)%nat ->
    (k < n)%nat ->
    (forall i, (i < k)%nat -> retryable (reply_at net endpoint c i) = true) ->
    reply_at net endpoint c k = Status200 data ->
    attempted net endpoint c n
      (set_metrics
         (set_breaker c1 (CircuitBreaker.record_success (circuit_breaker c1)))
         (count_success (metrics c1)))
      (Returned data)
| attempted_error (c1 : Client) (k : nat) (e : exc) :
    retry_frame c c1 ->
    sent c1 = (sent c + S k)%nat ->
    (k < n)%nat ->
    (forall i, (i < k)%nat -> retryable (reply_at net endpoint c i) = true) ->
    http_error (reply_at net endpoint c k) = true ->
    is_dexscreener_error e = true ->
    attempted net endpoint c n c1 (Raised e)
| attempted_exhausted (c1 : Client) (e : exc) :
    retry_frame c c1 ->
    sent c1 = (sent c + n)%nat ->
    (forall i, (i < n)%nat -> retryable (reply_at net endpoint c i) = true) ->
    is_dexscreener_error e = true ->
    attempted net endpoint c n
      (set_metrics
         (set_breaker c1
            (CircuitBreaker.record_failure (clock c1) (circuit_breaker c1)))
         (count_failed (metrics c1)))
      (Raised e).

(** [_fetch] for each endpoint in turn, whatever the outcomes. *)
Fixpoint fetch_each (net : Network) (endpoints : list string) (c : Client)
  : Client :=
  match endpoints with
  | [] => c
  | endpoint :: rest => fetch_each net rest (fst (_fetch net endpoint false c))
  end.

End DexClient.

(** ** models/token_registry.py: the registry *)

Module Registry.

#[local] Open Scope Q_scope.

Record VerifiedToken : Type := {
  chain_id : string;
  address : string;
  symbol : string;
  name : string;
  decimals : Z;
  liquidity_usd : Q;
  holder_count : Z;
  is_verified : bool;
  is_scam : bool;
  scam_reason : option (list TokenRegistry.scam_indicator);
  unique_key : string;
  added_timestamp : Q
}.

(** [VerifiedToken.is_tradeable]. *)
Definition is_tradeable (t : VerifiedToken) : bool :=
  is_verified t && negb (is_scam t) && Qle_bool 100000 (liquidity_usd t).

(** The registry with the client it was given. *)
Record TokenRegistry : Type := {
  dex_client : DexClient.Client;
  tokens_by_key : gmap string VerifiedToken;
  addresses_by_symbol : gmap string (list string);
  scam_tokens : gset string
}.

(** [TokenRegistry.__init__]. *)
Definition init (client : DexClient.Client) : TokenRegistry :=
  {| dex_client := client; tokens_by_key := ∅;
     addresses_by_symbol := ∅; scam_tokens := ∅ |}.

Definition whitelist : gmap string string :=
  list_to_map
    [("ethereum:0xa0b86991c6218b36c1d19d4a2e9eb0ce3606eb48", "USDC");
     ("ethereum:0xdac17f958d2ee523a2206206994597c13d831ec7", "USDT");
     ("ethereum:0xc02aaa39b223fe8d0a0e5c4f27ead9083c756cc2", "WETH");
     ("bsc:0x55d398326f99059ff775485246999027b3197955", "USDT");
     ("bsc:0x8ac76a51cc950d9822d68b83fe1ad97b32cd580d", "USDC")].

(** [TokenRegistry.make_key]. *)
Definition make_key (chain_id address : string) : string :=
  lower chain_id +:+ ":" +:+ lower address.

(** What [add_token] raises: its own two exceptions and whatever the
    client raises. *)
Inductive exc : Type :=
| ScamTokenError (msg : string)
| NoDataError (msg : string)
| FromClient (e : DexClient.exc).

Inductive res (A : Type) : Type :=
| Returned (a : A)
| Raised (e : exc).

Arguments Returned {A} a.
Arguments Raised {A} e.

Definition with_client (reg : TokenRegistry) (client : DexClient.Client)
  : TokenRegistry :=
  {| dex_client := client; tokens_by_key := tokens_by_key reg;
     addresses_by_symbol := addresses_by_symbol reg;
     scam_tokens := scam_tokens reg |}.

(** The key of the symbol index: the chain as it is given, the symbol in
    upper case. *)
Definition symbol_key (chain_id symbol : string) : string :=
  chain_id +:+ ":" +:+ upper symbol.

(** [TokenRegistry.add_token]. *)
Definition add_token (net : DexClient.Network) (chain_id address : string)
  (verify : bool) (reg : TokenRegistry) : TokenRegistry * res VerifiedToken :=
  let key := make_key chain_id address in
  match tokens_by_key reg !! key with
  | Some token => (reg, Returned token)
  | None =>
      if decide (key ∈ scam_tokens reg) then
        (reg, Raised (ScamTokenError ("Token " +:+ key +:+ " is marked as scam")))
      else
        match DexClient.get_token_price net chain_id address (dex_client reg) with
        | (client, DexClient.Raised e) =>
            (with_client reg client, Raised (FromClient e))
        | (client, DexClient.Returned None) =>
            (with_client reg client,
             Raised (NoDataError ("No data found for " +:+ key)))
        | (client, DexClient.Returned (Some token_data)) =>
            let '(is_verified, is_scam, scam_reason) :=
              if verify then
                let verification :=
                  TokenRegistry._verify_token chain_id address token_data in
                (TokenRegistry.is_verified verification,
                 TokenRegistry.is_scam verification,
                 TokenRegistry.scam_reason verification)
              else (false, false, None) in
            let '(is_verified, is_scam) :=
              match whitelist !! key with
              | Some _ => (true, false)
              | None => (is_verified, is_scam)
              end in
            let token :=
              {| chain_id := chain_id;
                 address := lower address;
                 symbol := TokenRegistry.symbol token_data;
                 name := TokenRegistry.name token_data;
                 decimals := 18;
                 liquidity_usd := TokenRegistry.liquidity_usd token_data;
                 holder_count := 0;
                 is_verified := is_verified;
                 is_scam := is_scam;
                 scam_reason := scam_reason;
                 unique_key := key;
                 added_timestamp := DexClient.clock client |} in
            if is_scam then
              ({| dex_client := client; tokens_by_key := tokens_by_key reg;
                  addresses_by_symbol := addresses_by_symbol reg;
                  scam_tokens := {[key]} ∪ scam_tokens reg |},
               Returned token)
            else
              let skey := symbol_key chain_id (symbol token) in
              ({| dex_client := client;
                  tokens_by_key := <[key := token]> (tokens_by_key reg);
                  addresses_by_symbol :=
                    <[skey := default [] (addresses_by_symbol reg !! skey)
                              ++ [lower address]]> (addresses_by_symbol reg);
                  scam_tokens := scam_tokens reg |},
               Returned token)
        end
  end.

(** The outcomes of [add_token], one constructor for each way through
    the function: the token is known; the key is in the scam set; the
    client raises or has no data; the token is flagged; the token is
    registered. *)
Inductive added (net : DexClient.Network) (c a : string) (verify : bool)
  (reg reg' : TokenRegistry) : res VerifiedToken -> Prop :=
| added_known (t : VerifiedToken) :
    tokens_by_key reg !! make_key c a = Some t ->
    reg' = reg ->
    added net c a verify reg reg' (Returned t)
| added_refused (msg : string) :
    tokens_by_key reg !! make_key c a = None ->
    make_key c a ∈ scam_tokens reg ->
    reg' = reg ->
    added net c a verify reg reg' (Raised (ScamTokenError msg))
| added_failed (e : exc) :
    tokens_by_key reg !! make_key c a = None ->
    make_key c a ∉ scam_tokens reg ->
    tokens_by_key reg' = tokens_by_key reg ->
    scam_tokens reg' = scam_tokens reg ->
    addresses_by_symbol reg' = addresses_by_symbol reg ->
    (forall msg, e <> ScamTokenError msg) ->
    added net c a verify reg reg' (Raised e)
| added_scam (t : VerifiedToken) :
    tokens_by_key reg !! make_key c a = None ->
    make_key c a ∉ scam_tokens reg ->
    whitelist !! make_key c a = None ->
    verify = true ->
    is_scam t = true ->
    unique_key t = make_key c a ->
    tokens_by_key reg' = tokens_by_key reg ->
    scam_tokens reg' = {[make_key c a]} ∪ scam_tokens reg ->
    addresses_by_symbol reg' = addresses_by_symbol reg ->
    added net c a verify reg reg' (Returned t)
| added_new (t : VerifiedToken) (td : TokenRegistry.TokenPrice) :
    tokens_by_key reg !! make_key c a = None ->
    make_key c a ∉ scam_tokens reg ->
    snd (DexClient.get_token_price net c a (dex_client reg))
    = DexClient.Returned (Some td) ->
    is_scam t = false ->
    (is_Some (whitelist !! make_key c a) -> is_verified t = true) ->
    (whitelist !! make_key c a = None ->
     is_verified t
     = verify && TokenRegistry.is_verified (TokenRegistry._verify_token c a td)) ->
    unique_key t = make_key c a ->
    chain_id t = c ->
    address t = lower a ->
    symbol t = TokenRegistry.symbol td ->
    liquidity_usd t = TokenRegistry.liquidity_usd td ->
    tokens_by_key reg' = <[make_key c a := t]> (tokens_by_key reg) ->
    scam_tokens reg' = scam_tokens reg ->
    addresses_by_symbol reg'
    = <[symbol_key c (symbol t)
        := default [] (addresses_by_symbol reg !! symbol_key c (symbol t))
           ++ [lower a]]> (addresses_by_symbol reg) ->
    added net c a verify reg reg' (Returned t).

(** The registered tokens listed under a symbol of a chain. *)
Definition candidates (chain_id symbol : string) (reg : TokenRegistry)
  : list VerifiedToken :=
  omap (fun addr => tokens_by_key reg !! make_key chain_id addr)
    (default [] (addresses_by_symbol reg !! symbol_key chain_id symbol)).

(** [TokenRegistry.resolve_symbol]. *)
Definition resolve_symbol (chain_id symbol : string) (reg : TokenRegistry)
  : option VerifiedToken :=
  head (PySort.sort_desc liquidity_usd (candidates chain_id symbol reg)).

(** [TokenRegistry.get_token] and [TokenRegistry.is_scam]. *)
Definition get_token (chain_id address : string) (reg : TokenRegistry)
  : option VerifiedToken :=
  tokens_by_key reg !! make_key chain_id address.

Definition is_scam_token (chain_id address : string) (reg : TokenRegistry)
  : bool :=
  bool_decide (make_key chain_id address ∈ scam_tokens reg).

(** [add_token] for each call of a list in turn, whatever the outcomes. *)
Definition add_each
  (calls : list (DexClient.Network * string * string * bool))
  (reg : TokenRegistry) : TokenRegistry :=
  fold_left
    (fun reg '(net, chain_id, address, verify) =>
       fst (add_token net chain_id address verify reg))
    calls reg.

(** What every registry built by [add_token] satisfies: a registered
    token is filed under its own key, which is the key of its chain and
    address, is not a scam, has a lower-case address, is verified when
    its key is whitelisted, and is listed in the symbol index under the
    chain it was added with; no key is both registered and in the scam
    set. *)
Definition registry_ok (reg : TokenRegistry) : Prop :=
  (forall key token,
      tokens_by_key reg !! key = Some token ->
      unique_key token = key
      /\ make_key (chain_id token) (address token) = key
      /\ is_scam token = false
      /\ address token = lower (address token)
      /\ (is_Some (whitelist !! key) -> is_verified token = true)
      /\ exists addresses,
           addresses_by_symbol reg
           !! symbol_key (chain_id token) (symbol token) = Some addresses
           /\ address token ∈ addresses)
  /\ (forall key, key ∈ scam_tokens reg -> tokens_by_key reg !! key = None).

End Registry.

(** ** app/utils/rate_limiter.py: the manager of the limiters

    The bucket of this file is the bucket of [RateLimiter], line for
    line, with a default of 10 requests per minute. The manager keeps one
    bucket for each API name, created on first use. *)

Module RateLimiterManager.

#[local] Open Scope Q_scope.

Record t : Type := {
  limiters : gmap string RateLimiter.TokenBucketRateLimiter;
  default_rpm : Z
}.

(** [RateLimiterManager.__init__]. *)
Definition init : t := {| limiters := ∅; default_rpm := 10 |}.

(** [get_limiter(api_name, requests_per_minute)], called when the clock
    reads [now]. [requests_per_minute or self.default_rpm] takes the
    default for [None] and for 0. *)
Definition get_limiter (api_name : string) (requests_per_minute : option Z)
  (now : Q) (m : t) : t * RateLimiter.TokenBucketRateLimiter :=
  match limiters m !! api_name with
  | Some limiter => (m, limiter)
  | None =>
      let rpm :=
        match requests_per_minute with
        | Some r => if decide (r = 0%Z) then default_rpm m else r
        | None => default_rpm m
        end in
      let limiter := RateLimiter.init rpm now in
      ({| limiters := <[api_name := limiter]> (limiters m);
          default_rpm := default_rpm m |}, limiter)
  end.

(** [acquire(api_name)] by a caller that arrives at [arrival] and holds
    the lock of the limiter from [now] on. The limiter is looked up, and
    created if need be, on arrival; it is the object kept by the manager,
    which sees its new state. *)
Definition acquire (api_name : string) (arrival now : Q) (m : t)
  : result (t * Q) :=
  let '(m1, limiter) := get_limiter api_name None arrival m in
  match RateLimiter.acquire now limiter with
  | Raise e => Raise e
  | Ok (limiter', done) =>
      Ok ({| limiters := <[api_name := limiter']> (limiters m1);
             default_rpm := default_rpm m1 |}, done)
  end.

(** The callers of [acquire], each with its API name and time of
    arrival, in the order in which they obtain the lock of their
    limiter. [free] gives for each API the time at which the previous
    holder of its lock returned. The result lists the times at which the
    calls complete. *)
Fixpoint serve (m : t) (free : gmap string Q) (calls : list (string * Q))
  : result (list (string * Q)) :=
  match calls with
  | [] => Ok []
  | (api_name, arrival) :: rest =>
      let now :=
        match free !! api_name with
        | Some free_at =>
            if Qlt_le_dec arrival free_at then free_at else arrival
        | None => arrival
        end in
      match acquire api_name arrival now m with
      | Raise e => Raise e
      | Ok (m', done) =>
          match serve m' (<[api_name := done]> free) rest with
          | Raise e => Raise e
          | Ok l => Ok ((api_name, done) :: l)
          end
      end
  end.

(** The times recorded for one API. *)
Definition times_of (api_name : string) (l : list (string * Q)) : list Q :=
  map snd (List.filter (fun c => String.eqb (fst c) api_name) l).

(** What holds of the manager along [serve]: the default is 10, and every
    limiter has capacity 10 and is well formed at the time its lock was
    last released; an API without limiter has no such time. *)
Definition manager_ok (m : t) (free : gmap string Q) : Prop :=
  default_rpm m = 10%Z
  /\ (forall api_name limiter,
         limiters m !! api_name = Some limiter ->
         exists free_at,
           free !! api_name = Some free_at
           /\ RateLimiter.bucket_ok 10 limiter free_at)
  /\ (forall api_name,
         limiters m !! api_name = None -> free !! api_name = None).

End RateLimiterManager.

(** ** Invariants and further scenarios *)

Module Invariants.

(** The counters of the resolver: hits and misses are counted among the
    requests. *)
Definition metrics_ok (m : Metrics) : Prop :=
  (0 <= cache_hits m)%Z
  /\ (0 <= cache_misses m)%Z
  /\ (cache_hits m + cache_misses m <= total_requests m)%Z.

End Invariants.

Module Cases.

(** The dictionary the resolver hands to [save_contract] for USDT. *)
Definition usdt_data : gmap string value :=
  <["symbol" := VStr "USDT"]>
  (<["contract" := VStr "0xdAC17F958D2ee523a2206206994597C13D831ec7"]>
  (<["blockchain" := VStr "ethereum"]>
  (<["decimals" := VInt 6]>
  (<["name" := VStr "Tether USD"]>
  (<["verified" := VBool false]> ∅))))).

(** The same for the native ETH, which has no contract. *)
Definition eth_data : gmap string value :=
  <["symbol" := VStr "ETH"]>
  (<["contract" := VNone]>
  (<["blockchain" := VStr "ethereum"]> ∅)).

(** A USDT row with another address, stamped at time 0. *)
Definition other_usdt : ContractAddress.t :=
  {| ContractAddress.id := 1;
     ContractAddress.token_symbol := "USDT";
     ContractAddress.token_name := VStr "Fake USD";
     ContractAddress.contract_address := "0x0000000000000000000000000000000000000bad";
     ContractAddress.blockchain := "ethereum";
     ContractAddress.decimals := VInt 18;
     ContractAddress.verified := VBool false;
     ContractAddress.created_at := 0;
     ContractAddress.updated_at := 0;
     ContractAddress.last_verified_at := Some 0%Z |}.

(** A resolver holding the given rows, two days after time 0. *)
Definition later (rows : list ContractAddress.t) : State :=
  {| clock := 172800000000;
     db := {| contract_addresses := rows;
              failed_contract_lookups := [];
              api_call_logs := [] |};
     metrics := {| cache_hits := 0; cache_misses := 0;
                   api_calls_saved := 0; total_requests := 0 |};
     cache_ttl := 86400;
     acquired := [] |}.

(** CoinGecko knows USDT. *)
Definition coingecko_usdt : CoinGecko.contract :=
  {| CoinGecko.contract_address := "0xdac17f958d2ee523a2206206994597c13d831ec7";
     CoinGecko.platform := VStr "ethereum";
     CoinGecko.name := VStr "Tether";
     CoinGecko.symbol := "USDT";
     CoinGecko.decimals := VInt 6 |}.

Definition coingecko_finds : Providers :=
  {| DEXSCREENER_AVAILABLE := true;
     coingecko_search_coin := fun _ => (1000%Z, Ok (Some "tether"));
     coingecko_get_contract_address :=
       fun _ _ => (1000%Z, Ok (Some coingecko_usdt));
     oneinch_search_tokens := fun _ _ => (1000%Z, Ok []);
     dexscreener_search_tokens := fun _ => (1000%Z, Ok []) |}.

(** 1inch knows no token, DexScreener lists USDT on two chains. *)
Definition dex_usdt_bsc : DexScreener.token :=
  {| DexScreener.chain_id := "bsc";
     DexScreener.address := "0x55d398326f99059ff775485246999027b3197955";
     DexScreener.symbol := VStr "USDT";
     DexScreener.name := VStr "Tether USD";
     DexScreener.pairs_count := 2;
     DexScreener.total_liquidity := 1000000;
     DexScreener.unique_key := "bsc:0x55d398326f99059ff775485246999027b3197955" |}.

Definition dex_usdt_eth : DexScreener.token :=
  {| DexScreener.chain_id := "ethereum";
     DexScreener.address := "0xdac17f958d2ee523a2206206994597c13d831ec7";
     DexScreener.symbol := VStr "USDT";
     DexScreener.name := VStr "Tether USD";
     DexScreener.pairs_count := 3;
     DexScreener.total_liquidity := 5000000;
     DexScreener.unique_key :=
       "ethereum:0xdac17f958d2ee523a2206206994597c13d831ec7" |}.

Definition dexscreener_finds : Providers :=
  {| DEXSCREENER_AVAILABLE := true;
     coingecko_search_coin := fun _ => (1000%Z, Ok None);
     coingecko_get_contract_address := fun _ _ => (1000%Z, Ok None);
     oneinch_search_tokens := fun _ _ => (1000%Z, Ok []);
     dexscreener_search_tokens :=
       fun _ => (1000%Z, Ok [dex_usdt_bsc; dex_usdt_eth]) |}.

(** Replies of DexScreener: a thin pair, and a deep pair next to a deeper
    one and to one on another chain. Every request takes 0.1 s. *)
Definition thin_pair (address : string) : DexClient.pair :=
  {| DexClient.chainId := Some "ethereum";
     DexClient.baseToken_address := address;
     DexClient.baseToken_symbol := "RUG";
     DexClient.baseToken_name := "Rug Token";
     DexClient.priceUsd := Some 1%Q;
     DexClient.priceNative := Some 0.0005%Q;
     DexClient.liquidity_usd := Some 50000%Q;
     DexClient.volume_h24 := Some 500%Q;
     DexClient.priceChange_h24 := Some 0%Q;
     DexClient.dexId := Some "uniswap";
     DexClient.pairAddress := Some "0xpair1" |}.

Definition deep_pair (dex : string) (liquidity : Q) (chain : string)
  : DexClient.pair :=
  {| DexClient.chainId := Some chain;
     DexClient.baseToken_address := "0xAbC0000000000000000000000000000000000002";
     DexClient.baseToken_symbol := "Good";
     DexClient.baseToken_name := "Good Token";
     DexClient.priceUsd := Some 1%Q;
     DexClient.priceNative := Some 0.0005%Q;
     DexClient.liquidity_usd := Some liquidity;
     DexClient.volume_h24 := Some 50000%Q;
     DexClient.priceChange_h24 := Some 0%Q;
     DexClient.dexId := Some dex;
     DexClient.pairAddress := Some "0xpair2" |}.

Definition answers (pairs : list DexClient.pair) : DexClient.Network :=
  fun _ _ => {| DexClient.latency := 0.1%Q;
                DexClient.answer := DexClient.Status200 (Some pairs) |}.

Definition net_thin (address : string) : DexClient.Network :=
  answers [thin_pair address].

Definition net_deep : DexClient.Network :=
  answers [deep_pair "uniswap" 1000000%Q "Ethereum";
           deep_pair "pancake" 9000000%Q "bsc";
           deep_pair "sushiswap" 2000000%Q "ethereum";
           deep_pair "uniswap" 1500000%Q "ethereum"].

(** Every request times out after 10 s. *)
Definition net_down : DexClient.Network :=
  fun _ _ => {| DexClient.latency := 10%Q;
                DexClient.answer := DexClient.TimeoutError |}.

(** Every request is answered 404 at once. *)
Definition net_404 : DexClient.Network :=
  fun _ _ => {| DexClient.latency := 0.1%Q;
                DexClient.answer := DexClient.Status404 "no such token" |}.

(** Two timeouts, then the deep pairs. *)
Definition net_flaky : DexClient.Network :=
  fun url n => if (n <? 2)%nat then net_down url n else net_deep url n.

Definition thin_address : string := "0xAbC0000000000000000000000000000000000001".
Definition deep_address : string := "0xAbC0000000000000000000000000000000000002".
Definition usdt_address : string := "0xdAC17F958D2ee523a2206206994597C13D831ec7".

(** A registry on a client created at time 0. *)
Definition registry0 : Registry.TokenRegistry :=
  Registry.init (DexClient.init 0%Q).

End Cases.

(** * Properties *)

(** ** Chain identifiers *)

Section ChainRegistryFacts.

Import ChainRegistry.

Lemma normalize_chain_id_cases (chain_input : string) :
  (exists c, normalize_chain_id chain_input = Ok c
             /\ c ∈ DEXSCREENER_CHAINS
             /\ c = default (strip (lower chain_input))
                            (CHAIN_ALIASES !! strip (lower chain_input)))
  \/ (exists msg, normalize_chain_id chain_input = Raise (InvalidChainError msg)).
Proof.
  unfold normalize_chain_id.
  destruct (decide (chain_input = "")) as [Hempty | Hne].
  - right. eexists. reflexivity.
  - destruct (CHAIN_ALIASES !! strip (lower chain_input)) as [target |] eqn:Ha.
    + destruct (decide (target ∈ DEXSCREENER_CHAINS)).
      * left. exists target. auto.
      * right. eexists. reflexivity.
    + destruct (decide (strip (lower chain_input) ∈ DEXSCREENER_CHAINS)).
      * left. eexists. auto.
      * right. eexists. reflexivity.
Qed.

Lemma normalize_chain_id_unknown (chain_input : string) :
  CHAIN_ALIASES !! strip (lower chain_input) = None ->
  strip (lower chain_input) ∉ DEXSCREENER_CHAINS ->
  exists msg, normalize_chain_id chain_input = Raise (InvalidChainError msg).
Proof.
  intros Ha Hc. unfold normalize_chain_id.
  destruct (decide (chain_input = "")); [eexists; reflexivity |].
  rewrite Ha.
  destruct (decide (strip (lower chain_input) ∈ DEXSCREENER_CHAINS));
    [contradiction | eexists; reflexivity].
Qed.

(** The two tables fit together: no canonical chain is an alias, and
    every alias stands for a canonical chain. *)
Lemma canonical_is_no_alias (c : string) :
  c ∈ DEXSCREENER_CHAINS -> CHAIN_ALIASES !! c = None.
Proof.
  intros H. unfold DEXSCREENER_CHAINS in H.
  apply elem_of_list_to_set in H.
  repeat (apply elem_of_cons in H as [-> | H]; [vm_compute; reflexivity |]).
  inversion H.
Qed.

Lemma alias_is_canonical (alias target : string) :
  CHAIN_ALIASES !! alias = Some target -> target ∈ DEXSCREENER_CHAINS.
Proof.
  intros H. unfold CHAIN_ALIASES in H.
  apply elem_of_list_to_map_2 in H.
  repeat (apply elem_of_cons in H as [H | H];
          [injection H as -> ->;
           refine (proj1 (bool_decide_eq_true _) _); vm_compute; reflexivity |]).
  inversion H.
Qed.

Lemma empty_is_not_canonical : "" ∉ DEXSCREENER_CHAINS.
Proof. refine (proj1 (bool_decide_eq_false _) _). vm_compute. reflexivity. Qed.

(** When [normalize_chain_id] returns, and what. *)
Lemma normalize_chain_id_ok_iff (chain_input c : string) :
  normalize_chain_id chain_input = Ok c
  <-> chain_input <> ""
      /\ c = default (strip (lower chain_input))
                     (CHAIN_ALIASES !! strip (lower chain_input))
      /\ c ∈ DEXSCREENER_CHAINS.
Proof.
  unfold normalize_chain_id.
  destruct (decide (chain_input = "")) as [Hempty | Hne].
  - split; [discriminate | intros (H & _); contradiction].
  - destruct (CHAIN_ALIASES !! strip (lower chain_input)) as [target |];
      simpl;
      match goal with
      | |- context [decide (?x ∈ DEXSCREENER_CHAINS)] =>
          destruct (decide (x ∈ DEXSCREENER_CHAINS)) as [Hin | Hout]
      end;
      (split;
       [intros H; try discriminate; injection H as <-; auto
       | intros (_ & -> & Hc); try contradiction; reflexivity]).
Qed.

Lemma normalize_chain_id_canonical (chain_input : string) :
  strip (lower chain_input) ∈ DEXSCREENER_CHAINS ->
  normalize_chain_id chain_input = Ok (strip (lower chain_input)).
Proof.
  intros H. apply normalize_chain_id_ok_iff.
  split; [| split].
  - intros ->. apply empty_is_not_canonical. exact H.
  - rewrite (canonical_is_no_alias _ H). reflexivity.
  - exact H.
Qed.

Lemma normalize_chain_id_alias (chain_input target : string) :
  CHAIN_ALIASES !! strip (lower chain_input) = Some target ->
  normalize_chain_id chain_input = Ok target.
Proof.
  intros H. apply normalize_chain_id_ok_iff.
  split; [| split].
  - intros ->. vm_compute in H. discriminate H.
  - rewrite H. reflexivity.
  - exact (alias_is_canonical _ _ H).
Qed.

(** C5. For every input, [normalize_chain_id] lower-cases and trims it,
    maps it through the alias table, and either returns a member of the
    canonical chain set or raises [InvalidChainError]. It returns exactly
    when the input is not empty and its image is canonical, and then it
    returns that image: every canonical chain and every alias is
    accepted, in any letter case and with surrounding whitespace. "eth",
    "Ethereum" and "mainnet" all give "ethereum"; the empty input and
    every input that matches neither the alias table nor the canonical
    set raise [InvalidChainError]. *)
Theorem normalize_chain_id_correct :
  (forall chain_input : string,
      (exists c, normalize_chain_id chain_input = Ok c
                 /\ c ∈ DEXSCREENER_CHAINS
                 /\ c = default (strip (lower chain_input))
                                (CHAIN_ALIASES !! strip (lower chain_input)))
      \/ (exists msg,
             normalize_chain_id chain_input = Raise (InvalidChainError msg)))
  /\ (forall chain_input c : string,
         normalize_chain_id chain_input = Ok c
         <-> chain_input <> ""
             /\ c = default (strip (lower chain_input))
                            (CHAIN_ALIASES !! strip (lower chain_input))
             /\ c ∈ DEXSCREENER_CHAINS)
  /\ (forall chain_input : string,
         strip (lower chain_input) ∈ DEXSCREENER_CHAINS ->
         normalize_chain_id chain_input = Ok (strip (lower chain_input)))
  /\ (forall chain_input target : string,
         CHAIN_ALIASES !! strip (lower chain_input) = Some target ->
         normalize_chain_id chain_input = Ok target
         /\ target ∈ DEXSCREENER_CHAINS)
  /\ normalize_chain_id "eth" = Ok "ethereum"
  /\ normalize_chain_id "Ethereum" = Ok "ethereum"
  /\ normalize_chain_id "mainnet" = Ok "ethereum"
  /\ normalize_chain_id "ETH" = Ok "ethereum"
  /\ normalize_chain_id "ethereum" = Ok "ethereum"
  /\ normalize_chain_id "bsc" = Ok "bsc"
  /\ normalize_chain_id " BNB " = Ok "bsc"
  /\ (exists msg, normalize_chain_id "" = Raise (InvalidChainError msg))
  /\ (forall chain_input : string,
         CHAIN_ALIASES !! strip (lower chain_input) = None ->
         strip (lower chain_input) ∉ DEXSCREENER_CHAINS ->
         exists msg,
           normalize_chain_id chain_input = Raise (InvalidChainError msg)).
Proof.
  split; [exact normalize_chain_id_cases |].
  split; [exact normalize_chain_id_ok_iff |].
  split; [exact normalize_chain_id_canonical |].
  split.
  { intros chain_input target H.
    split; [exact (normalize_chain_id_alias _ _ H)
           | exact (alias_is_canonical _ _ H)]. }
  repeat split; try (vm_compute; reflexivity).
  - eexists. vm_compute. reflexivity.
  - exact normalize_chain_id_unknown.
Qed.

(** An unknown chain, "dogechain", is rejected; the canonical " Polygon "
    and the alias "Matic" are accepted as "polygon". *)
Lemma normalize_chain_id_correct_witness :
  (exists msg,
      normalize_chain_id "dogechain" = Raise (InvalidChainError msg))
  /\ normalize_chain_id " Polygon " = Ok "polygon"
  /\ normalize_chain_id "Matic" = Ok "polygon".
Proof.
  destruct normalize_chain_id_correct
    as (_ & _ & Hcanonical & Halias & _ & _ & _ & _ & _ & _ & _ & _
        & Hunknown).
  split; [| split].
  - apply Hunknown.
    + vm_compute. reflexivity.
    + refine (proj1 (bool_decide_eq_false _) _). vm_compute. reflexivity.
  - apply (Hcanonical " Polygon ").
    refine (proj1 (bool_decide_eq_true _) _). vm_compute. reflexivity.
  - apply (Halias "Matic" "polygon"). vm_compute. reflexivity.
Defined.

End ChainRegistryFacts.

(** ** Comparisons on rationals *)

Section QFacts.

#[local] Open Scope Q_scope.

Lemma Qle_bool_false_iff (x y : Q) : Qle_bool x y = false <-> y < x.
Proof.
  split; intros H.
  - apply Qnot_le_lt. intros Hle. apply Qle_bool_iff in Hle. congruence.
  - destruct (Qle_bool x y) eqn:E; [| reflexivity].
    apply Qle_bool_iff in E. exfalso. apply (Qlt_not_le _ _ H E).
Qed.

Lemma Qlt_bool_true_iff (x y : Q) : TokenRegistry.Qlt_bool x y = true <-> x < y.
Proof.
  unfold TokenRegistry.Qlt_bool. rewrite negb_true_iff.
  apply Qle_bool_false_iff.
Qed.

Lemma Qlt_bool_false_iff (x y : Q) : TokenRegistry.Qlt_bool x y = false <-> y <= x.
Proof.
  unfold TokenRegistry.Qlt_bool. rewrite negb_false_iff.
  apply Qle_bool_iff.
Qed.

End QFacts.

(** ** The durable contract cache *)

Section CacheFacts.

Import ContractAddress ContractCache.

Lemma is_cache_valid_some (row : t) (ttl utcnow verified_at : Z) :
  last_verified_at row = Some verified_at ->
  is_cache_valid row ttl utcnow = true
  <-> (utcnow - verified_at < ttl * 1000000)%Z.
Proof.
  intros Hrow. unfold is_cache_valid. rewrite Hrow.
  rewrite Qlt_bool_true_iff. unfold total_seconds, Qlt. simpl. lia.
Qed.

Lemma is_cache_valid_age (row : t) (ttl utcnow : Z) :
  is_cache_valid row ttl utcnow = true
  <-> exists verified_at,
        last_verified_at row = Some verified_at
        /\ (total_seconds (utcnow - verified_at) < inject_Z ttl)%Q.
Proof.
  unfold is_cache_valid.
  destruct (last_verified_at row) as [verified_at |].
  - rewrite Qlt_bool_true_iff. split.
    + intros H. exists verified_at. auto.
    + intros (v & Hv & H). injection Hv as <-. exact H.
  - split; [discriminate | intros (v & Hv & _); discriminate].
Qed.

Lemma is_cache_valid_expired_stays (row : t) (ttl now1 now2 : Z) :
  (now1 <= now2)%Z ->
  is_cache_valid row ttl now1 = false ->
  is_cache_valid row ttl now2 = false.
Proof.
  intros Hle H1.
  destruct (last_verified_at row) as [verified_at |] eqn:Hrow.
  - destruct (is_cache_valid row ttl now2) eqn:H2; [| reflexivity].
    apply (is_cache_valid_some row ttl now2 verified_at Hrow) in H2.
    assert (Hv : is_cache_valid row ttl now1 = true)
      by (apply (is_cache_valid_some row ttl now1 verified_at Hrow); lia).
    congruence.
  - unfold is_cache_valid. rewrite Hrow. reflexivity.
Qed.

Lemma get_cached_contract_run (token_symbol blockchain : string) (s : State) :
  get_cached_contract token_symbol blockchain s =
  (s, Ok match find (by_symbol_chain token_symbol blockchain)
                    (contract_addresses (db s)) with
         | Some contract =>
             if is_cache_valid contract (cache_ttl s) (clock s)
             then Some contract else None
         | None => None
         end).
Proof.
  unfold get_cached_contract, bind, get_state, ret.
  destruct (find _ _) as [contract |]; [| reflexivity].
  destruct (is_cache_valid _ _ _); reflexivity.
Qed.

(** C6. A cached row is valid exactly when its age, the time since
    [last_verified_at], is below the TTL (86400 seconds for the resolver's
    default); a row that has become invalid stays invalid at every later
    time as long as [last_verified_at] is not rewritten; and the cache
    lookup returns a row only when it is valid. *)
Theorem is_cache_valid_monotone (row : t) (ttl : Z) :
  (forall utcnow : Z,
      is_cache_valid row ttl utcnow = true
      <-> exists verified_at,
            last_verified_at row = Some verified_at
            /\ (total_seconds (utcnow - verified_at) < inject_Z ttl)%Q)
  /\ (forall utcnow verified_at : Z,
         last_verified_at row = Some verified_at ->
         is_cache_valid row ttl utcnow = true
         <-> (utcnow - verified_at < ttl * 1000000)%Z)
  /\ (forall now1 now2 : Z,
         (now1 <= now2)%Z ->
         is_cache_valid row ttl now1 = false ->
         is_cache_valid row ttl now2 = false)
  /\ (forall (s : State) (token_symbol blockchain : string),
         cache_ttl s = ttl ->
         get_cached_contract token_symbol blockchain s = (s, Ok (Some row)) ->
         is_cache_valid row ttl (clock s) = true).
Proof.
  split; [intros; apply is_cache_valid_age |].
  split; [intros; apply is_cache_valid_some; assumption |].
  split; [intros; eapply is_cache_valid_expired_stays; eassumption |].
  intros s token_symbol blockchain Httl Hget.
  rewrite get_cached_contract_run in Hget.
  destruct (find _ _) as [contract |]; [| discriminate].
  destruct (is_cache_valid contract (cache_ttl s) (clock s)) eqn:Hv;
    [| discriminate].
  injection Hget as Heq. subst. exact Hv.
Qed.

(** A row stamped at time 0 with the default TTL: valid one microsecond
    before 24 hours have passed, invalid from 24 hours on. *)
Lemma is_cache_valid_monotone_witness :
  is_cache_valid Scenario.stamped 86400 86399999999 = true
  /\ is_cache_valid Scenario.stamped 86400 90000000000 = false.
Proof.
  destruct (is_cache_valid_monotone Scenario.stamped 86400)
    as (_ & Hiff & Hmono & _).
  split.
  - apply (Hiff 86399999999%Z 0%Z); [reflexivity | lia].
  - apply (Hmono 86400000000%Z 90000000000%Z); [lia | reflexivity].
Defined.

(** C9. A row whose [last_verified_at] is unset is invalid for every TTL
    and at every time, and a lookup that finds it returns nothing, without
    raising. *)
Theorem unverified_row_is_cache_miss (row : t) :
  last_verified_at row = None ->
  (forall ttl utcnow : Z, is_cache_valid row ttl utcnow = false)
  /\ (forall (s : State) (token_symbol blockchain : string),
         find (by_symbol_chain token_symbol blockchain)
              (contract_addresses (db s)) = Some row ->
         get_cached_contract token_symbol blockchain s = (s, Ok None)).
Proof.
  intros Hrow.
  assert (Hinvalid : forall ttl utcnow, is_cache_valid row ttl utcnow = false)
    by (intros; unfold is_cache_valid; rewrite Hrow; reflexivity).
  split; [exact Hinvalid |].
  intros s token_symbol blockchain Hfind.
  rewrite get_cached_contract_run, Hfind, Hinvalid. reflexivity.
Qed.

(** The unstamped USDT row, looked up one hour after it was written. *)
Lemma unverified_row_is_cache_miss_witness :
  is_cache_valid Scenario.unstamped 86400 3600000000 = false
  /\ get_cached_contract "USDT" "ethereum"
       (Scenario.holding [Scenario.unstamped])
     = (Scenario.holding [Scenario.unstamped], Ok None).
Proof.
  destruct (unverified_row_is_cache_miss Scenario.unstamped eq_refl)
    as (Hinvalid & Hmiss).
  split; [apply Hinvalid |].
  apply Hmiss. reflexivity.
Defined.

End CacheFacts.

(** ** Token verification *)

Section RegistryFacts.

Import TokenRegistry.
#[local] Open Scope Q_scope.

Lemma checks_passed_sum (chain_id address : string) (td : TokenPrice) :
  checks_passed (_verify_token chain_id address td)
  = (liquidity_check td + volume_check td + ratio_check td
     + price_check td + dex_check td)%Z.
Proof.
  unfold _verify_token, liquidity_check, volume_check, ratio_check,
    price_check, dex_check.
  destruct (Qle_bool 100000 (liquidity_usd td));
    destruct (Qle_bool 10000 (volume_24h td));
    destruct (Qlt_bool 0 (volume_24h td));
    destruct (Qlt_bool 0.1 (liquidity_usd td / volume_24h td));
    destruct (Qlt_bool (liquidity_usd td / volume_24h td) 100);
    destruct (Qlt_bool 0.000001 (price_usd td));
    destruct (Qlt_bool (price_usd td) 1000000);
    destruct (String.eqb (dex_id td) "unknown"); reflexivity.
Qed.

Lemma verdict_of_checks (chain_id address : string) (td : TokenPrice) :
  let v := _verify_token chain_id address td in
  is_verified v = (4 <=? checks_passed v)%Z
  /\ is_scam v = (checks_passed v <=? 2)%Z
  /\ checks_total v = 5%Z.
Proof.
  unfold _verify_token.
  destruct (Qle_bool 100000 (liquidity_usd td));
    destruct (Qle_bool 10000 (volume_24h td));
    destruct (Qlt_bool 0 (volume_24h td));
    destruct (Qlt_bool 0.1 (liquidity_usd td / volume_24h td));
    destruct (Qlt_bool (liquidity_usd td / volume_24h td) 100);
    destruct (Qlt_bool 0.000001 (price_usd td));
    destruct (Qlt_bool (price_usd td) 1000000);
    destruct (String.eqb (dex_id td) "unknown"); repeat split.
Qed.

Lemma checks_in_range (td : TokenPrice) :
  (0 <= liquidity_check td <= 1 /\ 0 <= volume_check td <= 1
   /\ 0 <= ratio_check td <= 1 /\ 0 <= price_check td <= 1
   /\ 0 <= dex_check td <= 1)%Z.
Proof.
  unfold liquidity_check, volume_check, ratio_check, price_check, dex_check.
  repeat match goal with
         | |- context [if ?b then _ else _] => destruct b
         end; lia.
Qed.

(** C7. [is_verified] holds iff at least 4 of the 5 checks pass and
    [is_scam] iff at most 2 pass, the passed checks being counted one by
    one; a token with liquidity $50k and volume
    $500 passes at most 2 checks and is a scam; a token with liquidity $1M,
    volume $50k (ratio 20), price $1 and a known DEX passes 5 of 5 and is
    verified. *)
Theorem verify_token_thresholds :
  (forall (chain_id address : string) (td : TokenPrice),
      let v := _verify_token chain_id address td in
      (is_verified v = true <-> (4 <= checks_passed v)%Z)
      /\ (is_scam v = true <-> (checks_passed v <= 2)%Z)
      /\ checks_passed v
         = (liquidity_check td + volume_check td + ratio_check td
            + price_check td + dex_check td)%Z
      /\ (0 <= checks_passed v <= 5)%Z
      /\ checks_total v = 5%Z)
  /\ (forall (chain_id address : string) (td : TokenPrice),
         liquidity_usd td == 50000 ->
         volume_24h td == 500 ->
         let v := _verify_token chain_id address td in
         (checks_passed v <= 2)%Z /\ is_scam v = true)
  /\ (forall (chain_id address : string) (td : TokenPrice),
         liquidity_usd td == 1000000 ->
         volume_24h td == 50000 ->
         price_usd td == 1 ->
         dex_id td <> "unknown" ->
         let v := _verify_token chain_id address td in
         liquidity_usd td / volume_24h td == 20
         /\ checks_passed v = 5%Z /\ is_verified v = true).
Proof.
  split; [| split].
  - intros chain_id address td v.
    destruct (verdict_of_checks chain_id address td) as (Hv & Hs & Ht).
    fold v in Hv, Hs, Ht. rewrite Hv, Hs, Z.leb_le, Z.leb_le.
    pose proof (checks_passed_sum chain_id address td) as Hsum.
    fold v in Hsum. pose proof (checks_in_range td).
    repeat split; try tauto; try assumption; lia.
  - intros chain_id address td Hl Hvol v.
    destruct (verdict_of_checks chain_id address td) as (_ & Hs & _).
    fold v in Hs. rewrite Hs, Z.leb_le.
    assert (Hsum : (checks_passed v <= 2)%Z).
    { unfold v. rewrite checks_passed_sum.
      pose proof (checks_in_range td) as Hr.
      assert (H1 : liquidity_check td = 0%Z).
      { unfold liquidity_check.
        destruct (Qle_bool 100000 (liquidity_usd td)) eqn:E; [| reflexivity].
        apply Qle_bool_iff in E. lra. }
      assert (H2 : volume_check td = 0%Z).
      { unfold volume_check.
        destruct (Qle_bool 10000 (volume_24h td)) eqn:E; [| reflexivity].
        apply Qle_bool_iff in E. lra. }
      assert (H3 : ratio_check td = 0%Z).
      { unfold ratio_check.
        destruct (Qlt_bool (liquidity_usd td / volume_24h td) 100) eqn:E.
        - apply Qlt_bool_true_iff in E. rewrite Hl, Hvol in E.
          exfalso. revert E. apply Qle_not_lt. vm_compute. discriminate.
        - rewrite andb_false_r. reflexivity. }
      lia. }
    split; [exact Hsum | exact Hsum].
  - intros chain_id address td Hl Hvol Hp Hdex v.
    assert (Hratio : liquidity_usd td / volume_24h td == 20)
      by (rewrite Hl, Hvol; reflexivity).
    destruct (verdict_of_checks chain_id address td) as (Hv & _ & _).
    fold v in Hv. rewrite Hv, Z.leb_le.
    assert (Hsum : checks_passed v = 5%Z).
    { unfold v. rewrite checks_passed_sum.
      assert (H1 : liquidity_check td = 1%Z).
      { unfold liquidity_check.
        destruct (Qle_bool 100000 (liquidity_usd td)) eqn:E; [reflexivity |].
        apply Qle_bool_false_iff in E. lra. }
      assert (H2 : volume_check td = 1%Z).
      { unfold volume_check.
        destruct (Qle_bool 10000 (volume_24h td)) eqn:E; [reflexivity |].
        apply Qle_bool_false_iff in E. lra. }
      assert (H3 : ratio_check td = 1%Z).
      { unfold ratio_check.
        assert (E0 : Qlt_bool 0 (volume_24h td) = true)
          by (apply Qlt_bool_true_iff; lra).
        assert (E1 : Qlt_bool 0.1 (liquidity_usd td / volume_24h td) = true)
          by (apply Qlt_bool_true_iff; rewrite Hratio; reflexivity).
        assert (E2 : Qlt_bool (liquidity_usd td / volume_24h td) 100 = true)
          by (apply Qlt_bool_true_iff; rewrite Hratio; reflexivity).
        rewrite E0, E1, E2. reflexivity. }
      assert (H4 : price_check td = 1%Z).
      { unfold price_check.
        assert (E1 : Qlt_bool 0.000001 (price_usd td) = true)
          by (apply Qlt_bool_true_iff; rewrite Hp; reflexivity).
        assert (E2 : Qlt_bool (price_usd td) 1000000 = true)
          by (apply Qlt_bool_true_iff; rewrite Hp; reflexivity).
        rewrite E1, E2. reflexivity. }
      assert (H5 : dex_check td = 1%Z).
      { unfold dex_check.
        destruct (String.eqb (dex_id td) "unknown") eqn:E; [| reflexivity].
        apply String.eqb_eq in E. contradiction. }
      lia. }
    split; [exact Hratio | split; [exact Hsum | lia]].
Qed.

(** The two tokens of C7: one with price $0.5 on an unknown DEX, one at $1
    on uniswap. *)
Lemma verify_token_thresholds_witness :
  is_scam (_verify_token "ethereum" "0xabc" (snapshot 50000 500 0.5 "unknown"))
    = true
  /\ is_verified
       (_verify_token "ethereum" "0xabc" (snapshot 1000000 50000 1 "uniswap"))
     = true.
Proof.
  split.
  - apply (proj1 (proj2 verify_token_thresholds) "ethereum" "0xabc"
             (snapshot 50000 500 0.5 "unknown")); reflexivity.
  - apply (proj2 (proj2 verify_token_thresholds) "ethereum" "0xabc"
             (snapshot 1000000 50000 1 "uniswap"));
      [reflexivity | reflexivity | reflexivity | discriminate].
Defined.

(** C10. With a 24h volume of 0 the ratio check is skipped: it adds
    nothing to the passed checks and records no indicator. The volume
    check fails as well, so at most 3 checks pass and the scoring never
    sets [is_verified]. *)
Theorem zero_volume_never_verified (chain_id address : string) (td : TokenPrice) :
  volume_24h td == 0 ->
  let v := _verify_token chain_id address td in
  checks_passed v = (liquidity_check td + price_check td + dex_check td)%Z
  /\ (checks_passed v <= 3)%Z
  /\ is_verified v = false
  /\ (forall indicators,
         scam_reason v = Some indicators -> ~ In AbnormalRatio indicators).
Proof.
  intros Hvol v.
  assert (E0 : Qlt_bool 0 (volume_24h td) = false)
    by (apply Qlt_bool_false_iff; lra).
  assert (E2 : Qle_bool 10000 (volume_24h td) = false)
    by (apply Qle_bool_false_iff; lra).
  assert (Hsum : checks_passed v
                 = (liquidity_check td + price_check td + dex_check td)%Z).
  { unfold v. rewrite checks_passed_sum.
    unfold volume_check, ratio_check. rewrite E0, E2. simpl. lia. }
  pose proof (checks_in_range td) as Hr.
  destruct (verdict_of_checks chain_id address td) as (Hv & _ & _).
  fold v in Hv.
  split; [exact Hsum |]. split; [lia |]. split.
  - rewrite Hv. apply Z.leb_gt. lia.
  - unfold v, _verify_token. rewrite E0, E2.
    destruct (Qle_bool 100000 (liquidity_usd td));
      destruct (Qlt_bool 0.000001 (price_usd td));
      destruct (Qlt_bool (price_usd td) 1000000);
      destruct (String.eqb (dex_id td) "unknown");
      simpl; intros indicators Hi; try discriminate;
      injection Hi as <-; simpl; intuition discriminate.
Qed.

(** A liquid token at $1 on uniswap with no volume: 3 checks pass. *)
Lemma zero_volume_never_verified_witness :
  is_verified
    (_verify_token "ethereum" "0xabc" (snapshot 1000000 0 1 "uniswap")) = false.
Proof.
  apply (zero_volume_never_verified "ethereum" "0xabc"
           (snapshot 1000000 0 1 "uniswap")).
  reflexivity.
Defined.

End RegistryFacts.

(** ** Circuit breaker *)

Section BreakerFacts.

Import CircuitBreaker.
#[local] Open Scope Q_scope.

Lemma is_open_cooling (now last : Q) (cb : CircuitBreaker) :
  state cb = open ->
  last_failure_time cb = Some last ->
  now - last <= inject_Z (timeout_seconds cb) ->
  is_open now cb = Ok (true, cb).
Proof.
  intros Hs Hl Hle. unfold is_open. rewrite Hs, Hl.
  destruct (Qlt_le_dec _ _) as [Hlt | _]; [| reflexivity].
  exfalso. apply (Qlt_not_le _ _ Hlt Hle).
Qed.

Lemma is_open_cooled (now last : Q) (cb : CircuitBreaker) :
  state cb = open ->
  last_failure_time cb = Some last ->
  inject_Z (timeout_seconds cb) < now - last ->
  is_open now cb = Ok (false, set_state cb half_open).
Proof.
  intros Hs Hl Hlt. unfold is_open. rewrite Hs, Hl.
  destruct (Qlt_le_dec _ _) as [_ | Hle]; [reflexivity |].
  exfalso. apply (Qlt_not_le _ _ Hlt Hle).
Qed.

Lemma is_open_not_open (now : Q) (cb : CircuitBreaker) :
  state cb <> open -> is_open now cb = Ok (false, cb).
Proof.
  intros Hs. unfold is_open. destruct (state cb); congruence.
Qed.

(** C3, as the code has it. Starting closed, the breaker is not open
    after fewer than 5 failures and is open after the 5th, for as long as
    no more than 60 seconds have passed since it. The first check made
    more than 60 seconds after the last failure reports not-open and
    leaves the breaker half-open. While half-open every further check
    reports not-open as well, so the number of trial calls is not limited.
    The next recorded success closes the breaker and resets the count; the
    next recorded failure opens it again. *)
Theorem breaker_trip_and_recovery (t1 t2 t3 t4 t5 : Q) :
  let cb5 := tripped t1 t2 t3 t4 t5 in
  let cbh := trial t1 t2 t3 t4 t5 in
  (forall (k : nat) (now : Q),
      (k < 5)%nat ->
      let cb := record_failures (firstn k [t1; t2; t3; t4; t5]) default in
      state cb = closed /\ is_open now cb = Ok (false, cb))
  /\ state cb5 = open
  /\ (forall now, now - t5 <= 60 -> is_open now cb5 = Ok (true, cb5))
  /\ (forall now, 60 < now - t5 -> is_open now cb5 = Ok (false, cbh))
  /\ state cbh = half_open
  /\ (forall now, is_open now cbh = Ok (false, cbh))
  /\ (state (record_success cbh) = closed
      /\ failures (record_success cbh) = 0%Z
      /\ forall now,
           is_open now (record_success cbh) = Ok (false, record_success cbh))
  /\ (forall t6,
         state (record_failure t6 cbh) = open
         /\ forall now,
              now - t6 <= 60 ->
              is_open now (record_failure t6 cbh)
              = Ok (true, record_failure t6 cbh)).
Proof.
  intros cb5 cbh.
  split.
  { intros k now Hk.
    destruct k as [| [| [| [| [| k]]]]]; try lia;
      (split; [reflexivity | apply is_open_not_open; discriminate]). }
  split; [reflexivity |].
  split.
  { intros now Hnow. apply (is_open_cooling now t5); auto. }
  split.
  { intros now Hnow. apply (is_open_cooled now t5); auto. }
  split; [reflexivity |].
  split.
  { intros now. apply is_open_not_open. discriminate. }
  split.
  { split; [reflexivity |]. split; [reflexivity |].
    intros now. apply is_open_not_open. discriminate. }
  intros t6. split; [reflexivity |].
  intros now Hnow. apply (is_open_cooling now t6); auto.
Qed.

(** Failures at seconds 0 to 4: open at second 30, half-open at second 65,
    open again after a failed trial at second 66. *)
Lemma breaker_trip_and_recovery_witness :
  is_open 30 (tripped 0 1 2 3 4) = Ok (true, tripped 0 1 2 3 4)
  /\ is_open 65 (tripped 0 1 2 3 4) = Ok (false, trial 0 1 2 3 4)
  /\ is_open 70 (record_failure 66 (trial 0 1 2 3 4))
     = Ok (true, record_failure 66 (trial 0 1 2 3 4)).
Proof.
  pose proof (breaker_trip_and_recovery 0 1 2 3 4) as H. simpl in H.
  destruct H as (_ & _ & Hopen & Hhalf & _ & _ & _ & Hfail).
  split; [apply Hopen; vm_compute; discriminate |].
  split; [apply Hhalf; vm_compute; reflexivity |].
  apply (proj2 (Hfail 66)). vm_compute. discriminate.
Defined.

(** C3 as stated fails. After the cooldown the first check reports
    not-open, and so does a second check made before any outcome is
    recorded: not-open is reported more than once, and nothing limits the
    trial calls to one. *)
Lemma breaker_half_open_admits_second_trial :
  is_open 65 (tripped 0 1 2 3 4) = Ok (false, trial 0 1 2 3 4)
  /\ is_open 66 (trial 0 1 2 3 4) = Ok (false, trial 0 1 2 3 4)
  /\ is_open 67 (trial 0 1 2 3 4) = Ok (false, trial 0 1 2 3 4).
Proof.
  repeat split; vm_compute; reflexivity.
Qed.

End BreakerFacts.

(** ** Token bucket *)

Section RateLimiterFacts.

Import RateLimiter.
#[local] Open Scope Q_scope.

Variable C : Z.
Hypothesis C_pos : (1 <= C)%Z.

#[local] Abbreviation cap := (inject_Z C).
#[local] Abbreviation rate := (inject_Z C / 60).

Lemma cap_ge_1 : 1 <= cap.
Proof.
  change 1 with (inject_Z 1). rewrite <- Zle_Qle. exact C_pos.
Qed.

Lemma rate_times_60 : rate * 60 == cap.
Proof. field. Qed.

Lemma rate_pos : 0 < rate.
Proof.
  pose proof cap_ge_1 as Hc. pose proof rate_times_60 as Hr.
  lra.
Qed.

Lemma wait_refills (x : Q) : x * 60 / cap * rate == x.
Proof.
  pose proof cap_ge_1 as Hc. field. lra.
Qed.

Lemma init_ok (t0 : Q) : bucket_ok C (init C t0) t0.
Proof.
  unfold bucket_ok, level, init; simpl.
  pose proof cap_ge_1. repeat split; try lra.
Qed.

Lemma level_nonneg (b : TokenBucketRateLimiter) (free_at : Q) :
  bucket_ok C b free_at -> 0 <= level b free_at.
Proof.
  intros (Hc & Ht & Hl & _). unfold level. rewrite Hc.
  pose proof rate_pos as Hr.
  assert (0 <= (free_at - last_update b) * rate)
    by (apply Qmult_le_0_compat; lra).
  lra.
Qed.

(** One call: it does not raise, returns no earlier than it started, keeps
    the bucket well formed, and pays one token out of the level it found
    plus twice the refill of the time since the lock was free. *)
Lemma acquire_step (b : TokenBucketRateLimiter) (free_at now : Q) :
  bucket_ok C b free_at ->
  free_at <= now ->
  exists b' done,
    acquire now b = Ok (b', done)
    /\ bucket_ok C b' done
    /\ now <= done
    /\ level b' done + 1 <= level b free_at + 2 * rate * (done - free_at).
Proof.
  intros (Hc & Ht & Hl & Hlev) Hnow.
  pose proof cap_ge_1 as Hcap. pose proof rate_pos as Hr.
  unfold acquire. rewrite Hc.
  unfold level in *. rewrite Hc in Hlev.
  set (found := pymin cap (tokens b + (now - last_update b) * rate)).
  assert (Hgap : 0 <= (now - free_at) * rate)
    by (apply Qmult_le_0_compat; lra).
  assert (Hsplit : (now - last_update b) * rate
                   == (free_at - last_update b) * rate + (now - free_at) * rate)
    by ring.
  assert (Hfree : 0 <= (free_at - last_update b) * rate)
    by (apply Qmult_le_0_compat; lra).
  assert (Hfound : 0 <= found /\ found <= cap
                   /\ found <= tokens b + (now - last_update b) * rate).
  { unfold found, pymin. destruct (Qlt_le_dec _ _); repeat split; lra. }
  destruct Hfound as (Hf0 & HfC & Hfl).
  destruct (Qlt_le_dec found 1) as [Hlow | Hhigh].
  - destruct (decide (C = 0%Z)) as [Hz | _]; [lia |].
    eexists _, _. split; [reflexivity |].
    pose proof (wait_refills (1 - found)) as Hw.
    assert (Hwait : 0 <= (1 - found) * 60 / cap).
    { apply Qle_shift_div_l; lra. }
    unfold bucket_ok, level; simpl. rewrite ?Hc.
      assert (Hd : (now + (1 - found) * 60 / cap - now) * rate == 1 - found).
    { rewrite <- Hw at 2. ring. }
    assert (Hd2 : 2 * rate * (now + (1 - found) * 60 / cap - free_at)
                  == 2 * ((now - free_at) * rate) + 2 * (1 - found)).
    { rewrite <- Hw at 2. ring. }
    repeat split; try lra.
  - eexists _, _. split; [reflexivity |].
    unfold bucket_ok, level; simpl. rewrite ?Hc.
      assert (Hd : (now - now) * rate == 0) by ring.
    assert (Hd2 : 2 * rate * (now - free_at) == 2 * ((now - free_at) * rate))
      by ring.
    repeat split; try lra.
Qed.

Lemma serve_step (b : TokenBucketRateLimiter) (free_at arrival : Q)
  (rest : list Q) :
  bucket_ok C b free_at ->
  exists b' done,
    bucket_ok C b' done
    /\ free_at <= done
    /\ level b' done + 1 <= level b free_at + 2 * rate * (done - free_at)
    /\ serve b free_at (arrival :: rest)
       = match serve b' done rest with
         | Raise e => Raise e
         | Ok l => Ok (done :: l)
         end.
Proof.
  intros Hok. simpl.
  destruct (Qlt_le_dec arrival free_at) as [Hearly | Hlate].
  - destruct (acquire_step b free_at free_at Hok) as (b' & done & Ha & H);
      [lra |].
    exists b', done. rewrite Ha. intuition lra.
  - destruct (acquire_step b free_at arrival Hok Hlate)
      as (b' & done & Ha & Hok' & Hd & Hpay).
    exists b', done. rewrite Ha. intuition lra.
Qed.

(** Every caller is served, no earlier than the lock was free. *)
Lemma serve_total (arrivals : list Q) :
  forall (b : TokenBucketRateLimiter) (free_at : Q),
    bucket_ok C b free_at ->
    exists cs,
      serve b free_at arrivals = Ok cs
      /\ length cs = length arrivals
      /\ Forall (fun t => free_at <= t) cs.
Proof.
  induction arrivals as [| arrival rest IH]; intros b free_at Hok.
  - exists []. simpl. auto.
  - destruct (serve_step b free_at arrival rest Hok)
      as (b' & done & Hok' & Hd & _ & Hserve).
    destruct (IH b' done Hok') as (l & Hl & Hlen & Hall).
    exists (done :: l). rewrite Hserve, Hl. simpl.
    split; [reflexivity |]. split; [congruence |].
    constructor; [exact Hd |].
    eapply Forall_impl; [exact Hall |]. simpl. intros t Ht. lra.
Qed.

Lemma count_upto_none (h from : Q) (l : list Q) :
  h < from -> Forall (fun t => from <= t) l -> count_upto h l = 0%nat.
Proof.
  intros Hh Hall. unfold count_upto.
  induction Hall as [| t l Ht _ IH]; [reflexivity |].
  simpl. destruct (Qle_bool t h) eqn:E; [| exact IH].
  apply Qle_bool_iff in E. lra.
Qed.

Lemma count_in_window_upto (a : Q) (l : list Q) :
  (count_in_window a l <= count_upto (a + 60) l)%nat.
Proof.
  unfold count_in_window, count_upto, in_window.
  induction l as [| t l IH]; [reflexivity |].
  simpl. destruct (Qle_bool a t); destruct (Qle_bool t (a + 60)); simpl; lia.
Qed.

(** Calls completed by time [h]: at most the level found plus twice the
    refill until [h]. *)
Lemma count_upto_bound (arrivals : list Q) :
  forall (b : TokenBucketRateLimiter) (free_at h : Q) (cs : list Q),
    bucket_ok C b free_at ->
    serve b free_at arrivals = Ok cs ->
    free_at <= h ->
    inject_Z (Z.of_nat (count_upto h cs))
    <= level b free_at + 2 * rate * (h - free_at).
Proof.
  pose proof rate_pos as Hr.
  induction arrivals as [| arrival rest IH]; intros b free_at h cs Hok Hs Hh.
  - simpl in Hs. injection Hs as <-.
    pose proof (level_nonneg b free_at Hok).
    assert (0 <= rate * (h - free_at)) by (apply Qmult_le_0_compat; lra).
    change (inject_Z (Z.of_nat (count_upto h []))) with 0. lra.
  - destruct (serve_step b free_at arrival rest Hok)
      as (b' & done & Hok' & Hd & Hpay & Hserve).
    rewrite Hserve in Hs.
    destruct (serve_total rest b' done Hok') as (l & Hl & _ & Hall).
    rewrite Hl in Hs. injection Hs as <-.
    unfold count_upto. simpl.
    destruct (Qle_bool done h) eqn:E.
    + apply Qle_bool_iff in E.
      specialize (IH b' done h l Hok' Hl E).
      simpl length. rewrite Nat2Z.inj_succ, <- Z.add_1_r, inject_Z_plus.
      change (inject_Z 1) with 1.
      fold (count_upto h l).
      assert (Heq : 2 * rate * (h - free_at)
                    == 2 * rate * (done - free_at) + 2 * rate * (h - done))
        by ring.
      lra.
    + apply Qle_bool_false_iff in E.
      fold (count_upto h l). rewrite (count_upto_none h done l E Hall).
      pose proof (level_nonneg b free_at Hok).
      assert (0 <= rate * (h - free_at)) by (apply Qmult_le_0_compat; lra).
      change (inject_Z (Z.of_nat 0%nat)) with 0. lra.
Qed.

(** Calls completed within a window of 60 seconds, whatever the run: an
    upper bound on the code as it is, suspended callers included. *)
Lemma count_in_window_bound (arrivals : list Q) :
  forall (b : TokenBucketRateLimiter) (free_at a : Q) (cs : list Q),
    bucket_ok C b free_at ->
    serve b free_at arrivals = Ok cs ->
    inject_Z (Z.of_nat (count_in_window a cs)) <= 3 * cap + 1.
Proof.
  pose proof rate_pos as Hr. pose proof cap_ge_1 as Hcap.
  pose proof rate_times_60 as H60.
  induction arrivals as [| arrival rest IH]; intros b free_at a cs Hok Hs.
  - simpl in Hs. injection Hs as <-.
    change (inject_Z (Z.of_nat (count_in_window a []))) with 0. lra.
  - destruct (serve_step b free_at arrival rest Hok)
      as (b' & done & Hok' & Hd & Hpay & Hserve).
    rewrite Hserve in Hs.
    destruct (serve_total rest b' done Hok') as (l & Hl & _ & Hall).
    rewrite Hl in Hs. injection Hs as <-.
    unfold count_in_window. simpl.
    destruct (in_window a done) eqn:E.
    + unfold in_window in E. apply andb_true_iff in E. destruct E as [Ea Eh].
      apply Qle_bool_iff in Ea. apply Qle_bool_iff in Eh.
      pose proof (count_upto_bound rest b' done (a + 60) l Hok' Hl Eh) as Hup.
      pose proof (count_in_window_upto a l) as Hle.
      assert (Hq : inject_Z (Z.of_nat (count_in_window a l))
                   <= inject_Z (Z.of_nat (count_upto (a + 60) l))).
      { rewrite <- Zle_Qle. lia. }
      destruct Hok' as (_ & _ & _ & Hlev').
      simpl length. rewrite Nat2Z.inj_succ, <- Z.add_1_r, inject_Z_plus.
      change (inject_Z 1) with 1.
      fold (count_in_window a l).
      assert (Hw : 2 * rate * (a + 60 - done)
                   == 2 * (rate * 60) - 2 * rate * (done - a)) by ring.
      assert (0 <= rate * (done - a)) by (apply Qmult_le_0_compat; lra).
      lra.
    + fold (count_in_window a l). exact (IH b' done a l Hok' Hl).
Qed.

(** A caller that finds a token returns at once and pays it out of what
    the bucket held when the lock was free plus the refill since then;
    the bucket is left below its capacity by that token. *)
Lemma acquire_awake (b : TokenBucketRateLimiter) (free_at now : Q) :
  bucket_ok C b free_at ->
  free_at <= now ->
  suspends now b = false ->
  exists b',
    acquire now b = Ok (b', now)
    /\ bucket_ok C b' now
    /\ level b' now + 1 <= level b free_at + rate * (now - free_at)
    /\ level b' now + 1 <= cap.
Proof.
  intros (Hc & Ht & Hl & Hlev) Hnow Hawake.
  pose proof cap_ge_1 as Hcap. pose proof rate_pos as Hr.
  unfold suspends, refilled in Hawake. unfold acquire.
  rewrite Hc in *. unfold level in *. rewrite Hc in Hlev.
  set (found := pymin cap (tokens b + (now - last_update b) * rate)) in *.
  assert (Hfound : found <= cap
                   /\ found <= tokens b + (now - last_update b) * rate).
  { unfold found, pymin.
    destruct (Qlt_le_dec (tokens b + (now - last_update b) * rate) cap);
      split; lra. }
  destruct Hfound as (HfC & Hfl).
  destruct (Qlt_le_dec found 1) as [Hlow | Hhigh]; [discriminate |].
  eexists. split; [reflexivity |].
  unfold bucket_ok, level; simpl. rewrite ?Hc.
  assert (Hd : (now - now) * rate == 0) by ring.
  assert (Hsplit : (now - last_update b) * rate
                   == (free_at - last_update b) * rate
                      + rate * (now - free_at)) by ring.
  repeat split; try lra.
Qed.

Lemma never_suspends_step (b : TokenBucketRateLimiter) (free_at arrival : Q)
  (rest : list Q) :
  bucket_ok C b free_at ->
  never_suspends b free_at (arrival :: rest) = true ->
  exists b' done,
    bucket_ok C b' done
    /\ free_at <= done
    /\ level b' done + 1 <= level b free_at + rate * (done - free_at)
    /\ level b' done + 1 <= cap
    /\ never_suspends b' done rest = true
    /\ serve b free_at (arrival :: rest)
       = match serve b' done rest with
         | Raise e => Raise e
         | Ok l => Ok (done :: l)
         end.
Proof.
  intros Hok Hrun. simpl in Hrun. simpl.
  set (now := if Qlt_le_dec arrival free_at then free_at else arrival) in *.
  assert (Hnow : free_at <= now).
  { unfold now. destruct (Qlt_le_dec arrival free_at); lra. }
  apply andb_true_iff in Hrun as [Hawake Hrest].
  apply negb_true_iff in Hawake.
  destruct (acquire_awake b free_at now Hok Hnow Hawake)
    as (b' & Ha & Hok' & Hpay & Hroom).
  rewrite Ha in Hrest |- *.
  exists b', now. auto 10.
Qed.

(** Calls completed by time [h] when none is suspended: at most the level
    found plus the refill until [h]. *)
Lemma count_upto_awake (arrivals : list Q) :
  forall (b : TokenBucketRateLimiter) (free_at h : Q) (cs : list Q),
    bucket_ok C b free_at ->
    never_suspends b free_at arrivals = true ->
    serve b free_at arrivals = Ok cs ->
    free_at <= h ->
    inject_Z (Z.of_nat (count_upto h cs))
    <= level b free_at + rate * (h - free_at).
Proof.
  pose proof rate_pos as Hr.
  induction arrivals as [| arrival rest IH];
    intros b free_at h cs Hok Hrun Hs Hh.
  - simpl in Hs. injection Hs as <-.
    pose proof (level_nonneg b free_at Hok).
    assert (0 <= rate * (h - free_at)) by (apply Qmult_le_0_compat; lra).
    change (inject_Z (Z.of_nat (count_upto h []))) with 0. lra.
  - destruct (never_suspends_step b free_at arrival rest Hok Hrun)
      as (b' & done & Hok' & Hd & Hpay & _ & Hrun' & Hserve).
    rewrite Hserve in Hs.
    destruct (serve_total rest b' done Hok') as (l & Hl & _ & Hall).
    rewrite Hl in Hs. injection Hs as <-.
    unfold count_upto. simpl.
    destruct (Qle_bool done h) eqn:E.
    + apply Qle_bool_iff in E.
      specialize (IH b' done h l Hok' Hrun' Hl E).
      simpl length. rewrite Nat2Z.inj_succ, <- Z.add_1_r, inject_Z_plus.
      change (inject_Z 1) with 1.
      fold (count_upto h l).
      assert (Heq : rate * (h - free_at)
                    == rate * (done - free_at) + rate * (h - done))
        by ring.
      lra.
    + apply Qle_bool_false_iff in E.
      fold (count_upto h l). rewrite (count_upto_none h done l E Hall).
      pose proof (level_nonneg b free_at Hok).
      assert (0 <= rate * (h - free_at)) by (apply Qmult_le_0_compat; lra).
      change (inject_Z (Z.of_nat 0%nat)) with 0. lra.
Qed.

(** Calls completed within a window of 60 seconds when none is
    suspended: the burst of a full bucket and the refill of the window. *)
Lemma count_in_window_awake (arrivals : list Q) :
  forall (b : TokenBucketRateLimiter) (free_at a : Q) (cs : list Q),
    bucket_ok C b free_at ->
    never_suspends b free_at arrivals = true ->
    serve b free_at arrivals = Ok cs ->
    inject_Z (Z.of_nat (count_in_window a cs)) <= 2 * cap.
Proof.
  pose proof rate_pos as Hr. pose proof cap_ge_1 as Hcap.
  pose proof rate_times_60 as H60.
  induction arrivals as [| arrival rest IH];
    intros b free_at a cs Hok Hrun Hs.
  - simpl in Hs. injection Hs as <-.
    change (inject_Z (Z.of_nat (count_in_window a []))) with 0. lra.
  - destruct (never_suspends_step b free_at arrival rest Hok Hrun)
      as (b' & done & Hok' & Hd & Hpay & Hroom & Hrun' & Hserve).
    rewrite Hserve in Hs.
    destruct (serve_total rest b' done Hok') as (l & Hl & _ & Hall).
    rewrite Hl in Hs. injection Hs as <-.
    unfold count_in_window. simpl.
    destruct (in_window a done) eqn:E.
    + unfold in_window in E. apply andb_true_iff in E. destruct E as [Ea Eh].
      apply Qle_bool_iff in Ea. apply Qle_bool_iff in Eh.
      pose proof (count_upto_awake rest b' done (a + 60) l Hok' Hrun' Hl Eh)
        as Hup.
      pose proof (count_in_window_upto a l) as Hle.
      assert (Hq : inject_Z (Z.of_nat (count_in_window a l))
                   <= inject_Z (Z.of_nat (count_upto (a + 60) l))).
      { rewrite <- Zle_Qle. lia. }
      simpl length. rewrite Nat2Z.inj_succ, <- Z.add_1_r, inject_Z_plus.
      change (inject_Z 1) with 1.
      fold (count_in_window a l).
      assert (Hw : rate * (a + 60 - done)
                   == rate * 60 - rate * (done - a)) by ring.
      assert (0 <= rate * (done - a)) by (apply Qmult_le_0_compat; lra).
      lra.
    + fold (count_in_window a l). exact (IH b' done a l Hok' Hrun' Hl).
Qed.

End RateLimiterFacts.

Section RateLimiterClaims.

Import RateLimiter.

(** C4, as the design has it. For a bucket of capacity [C >= 1] every
    call of [acquire] completes. More than [C] calls can complete within
    60 seconds, because the bucket starts full and refills [C] tokens in
    60 seconds; as long as no caller is suspended, that is all: at most
    [2 * C] calls complete within any window of 60 seconds. Nothing is
    said here of the runs in which a caller is suspended. *)
Theorem rate_limiter_window_bound (C : Z) (t0 : Q) (arrivals : list Q) :
  (1 <= C)%Z ->
  exists cs,
    completions C t0 arrivals = Ok cs
    /\ length cs = length arrivals
    /\ (never_suspends (init C t0) t0 arrivals = true ->
        forall a : Q, (count_in_window a cs <= 2 * Z.to_nat C)%nat).
Proof.
  intros HC.
  destruct (serve_total C HC arrivals (init C t0) t0 (init_ok C HC t0))
    as (cs & Hcs & Hlen & _).
  exists cs. split; [exact Hcs |]. split; [exact Hlen |].
  intros Hrun a.
  pose proof (count_in_window_awake C HC arrivals (init C t0) t0 a cs
                (init_ok C HC t0) Hrun Hcs) as Hq.
  assert (Heq : (2 * inject_Z C == inject_Z (2 * C))%Q).
  { rewrite inject_Z_mult. reflexivity. }
  rewrite Heq in Hq. rewrite <- Zle_Qle in Hq. lia.
Qed.

(** Capacity 2, callers at seconds 0, 0, 30 and 60: none is suspended. *)
Lemma rate_limiter_window_bound_witness :
  exists cs,
    completions 2 0 [0; 0; 30; 60]%Q = Ok cs
    /\ length cs = 4%nat
    /\ forall a : Q, (count_in_window a cs <= 4)%nat.
Proof.
  destruct (rate_limiter_window_bound 2 0 [0; 0; 30; 60]%Q)
    as (cs & Hcs & Hlen & Hbound); [lia |].
  exists cs. split; [exact Hcs |]. split; [exact Hlen |].
  apply Hbound. vm_compute. reflexivity.
Defined.

(** C4 as stated fails: with capacity 2 the callers arriving at seconds 0,
    0 and 30 all complete without waiting, three acquisitions within 30
    seconds. *)
Lemma rate_limiter_exceeds_capacity :
  exists cs,
    completions 2 0 [0; 0; 30]%Q = Ok cs
    /\ (2 < count_in_window 0 cs)%nat.
Proof.
  eexists. split.
  - vm_compute. reflexivity.
  - vm_compute. lia.
Qed.

(** The bound of the design is reached: with capacity 2 the callers at
    seconds 0, 0, 30 and 60 all complete on arrival, four acquisitions
    within the window from 0 to 60. *)
Example design_bound_reached :
  never_suspends (init 2 0) 0 [0; 0; 30; 60]%Q = true
  /\ completions 2 0 [0; 0; 30; 60]%Q = Ok [0; 0; 30; 60]%Q
  /\ count_in_window 0 [0; 0; 30; 60]%Q = 4%nat.
Proof. repeat split; vm_compute; reflexivity. Qed.

(** Outside the bound: the time a caller sleeps is refilled once more,
    because [last_update] is stamped before the sleep and the tokens are
    set to 0 after it. With capacity 1, of five callers arriving at
    second 0, four complete between seconds 60 and 120. *)
Example suspended_time_is_refilled_twice :
  never_suspends (init 1 0) 0 [0; 0; 0; 0; 0]%Q = false
  /\ exists cs,
       completions 1 0 [0; 0; 0; 0; 0]%Q = Ok cs
       /\ count_in_window 60 cs = 4%nat.
Proof.
  split; [vm_compute; reflexivity |].
  eexists. split; vm_compute; reflexivity.
Qed.

End RateLimiterClaims.

(** ** The fallback chain of the resolver *)

Section ResolverFacts.

Import ContractCache ContractResolver FallbackChain.

Lemma bind_ok {A B} (c : M A) (k : A -> M B) (s s' : State) (a : A) :
  c s = (s', Ok a) -> bind c k s = k a s'.
Proof. intros H. unfold bind. rewrite H. reflexivity. Qed.

Lemma bind_raise {A B} (c : M A) (k : A -> M B) (s s' : State) (e : exn) :
  c s = (s', Raise e) -> bind c k s = (s', Raise e).
Proof. intros H. unfold bind. rewrite H. reflexivity. Qed.

Lemma effect_refl (s : State) : effect s s [] [].
Proof.
  unfold effect, same_tables. rewrite !app_nil_r. auto 10.
Qed.

Lemma effect_trans (s s1 s2 : State) (t1 t2 : list string)
  (l1 l2 : list (string * bool)) :
  effect s s1 t1 l1 -> effect s1 s2 t2 l2 -> effect s s2 (t1 ++ t2) (l1 ++ l2).
Proof.
  unfold effect, same_tables.
  intros (Ha1 & Hl1 & Hc1 & Hf1 & Hm1 & Ht1) (Ha2 & Hl2 & Hc2 & Hf2 & Hm2 & Ht2).
  rewrite Ha2, Ha1, Hl2, Hl1, !app_assoc.
  repeat split; congruence.
Qed.

Ltac run_block :=
  eexists; split; [reflexivity |];
  unfold effect, call_log, same_tables; simpl;
  rewrite ?map_app, ?app_nil_r; simpl; auto 10.

Lemma try_coingecko_run (P : Providers) (token_symbol blockchain : string)
  (start_time : Z) (s : State) :
  exists s',
    try_coingecko P token_symbol blockchain start_time s
    = (s', Ok (returned (coingecko_outcome P token_symbol blockchain)))
    /\ effect s s' ["coingecko"]
         (logs_of "coingecko" (coingecko_outcome P token_symbol blockchain)).
Proof.
  unfold try_coingecko, coingecko_outcome, try_except, bind, call,
    rate_limiter_acquire, log_api_call, now, get_state, set_db, ret.
  simpl.
  destruct (coingecko_search_coin P token_symbol) as [d1 [[coin_id |] | e]];
    simpl; try run_block.
  destruct (String.eqb coin_id ""); simpl; try run_block.
  destruct (coingecko_get_contract_address P coin_id blockchain)
    as [d2 [[contract_data |] | e]]; simpl; run_block.
Qed.

Lemma try_oneinch_run (P : Providers) (token_symbol blockchain : string)
  (start_time : Z) (s : State) :
  exists s',
    try_oneinch P token_symbol blockchain start_time s
    = (s', Ok (returned (oneinch_outcome P token_symbol blockchain)))
    /\ effect s s' ["1inch"]
         (logs_of "1inch" (oneinch_outcome P token_symbol blockchain)).
Proof.
  unfold try_oneinch, oneinch_outcome, try_except, bind, call,
    rate_limiter_acquire, log_api_call, now, get_state, set_db, ret.
  simpl.
  destruct (oneinch_search_tokens P token_symbol blockchain)
    as [d1 [[| token tokens] | e]]; simpl; run_block.
Qed.

Lemma try_dexscreener_run (P : Providers) (token_symbol blockchain : string)
  (start_time : Z) (s : State) :
  exists s',
    try_dexscreener P token_symbol blockchain start_time s
    = (s', Ok (returned (dexscreener_outcome P token_symbol blockchain)))
    /\ effect s s' ["dexscreener"]
         (logs_of "dexscreener"
            (dexscreener_outcome P token_symbol blockchain)).
Proof.
  unfold try_dexscreener, dexscreener_outcome, try_except, bind, call,
    rate_limiter_acquire, log_api_call, now, get_state, set_db, ret.
  simpl.
  destruct (dexscreener_search_tokens P token_symbol) as [d1 [tokens | e]];
    simpl; try run_block.
  destruct (find (on_chain blockchain) tokens); simpl; run_block.
Qed.

(** [_fetch_from_apis] never raises and does what [fallback] says on the
    providers' outcomes. *)
Lemma fetch_from_apis_run (P : Providers) (token_symbol blockchain : string)
  (s : State) :
  exists s',
    _fetch_from_apis P token_symbol blockchain s
    = (s', Ok (fallback (attempts P token_symbol blockchain)).1.1)
    /\ effect s s' (fallback (attempts P token_symbol blockchain)).1.2
         (fallback (attempts P token_symbol blockchain)).2.
Proof.
  unfold _fetch_from_apis, attempts.
  rewrite (bind_ok now _ s s (clock s) eq_refl).
  destruct (try_coingecko_run P token_symbol blockchain (clock s) s)
    as (s1 & H1 & E1).
  rewrite (bind_ok _ _ _ _ _ H1).
  destruct (try_oneinch_run P token_symbol blockchain (clock s) s1)
    as (s2 & H2 & E2).
  destruct (try_dexscreener_run P token_symbol blockchain (clock s) s2)
    as (s3 & H3 & E3).
  pose proof (effect_trans _ _ _ _ _ _ _ E1 E2) as E12.
  pose proof (effect_trans _ _ _ _ _ _ _ E12 E3) as E123.
  destruct (coingecko_outcome P token_symbol blockchain) as [e1 | | d1];
    simpl in *.
  3: { exists s1. split; [reflexivity | exact E1]. }
  all: rewrite (bind_ok _ _ _ _ _ H2);
    destruct (oneinch_outcome P token_symbol blockchain) as [e2 | | d2];
    simpl in *;
    try (exists s2; split; [reflexivity | exact E12]);
    destruct (DEXSCREENER_AVAILABLE P); simpl;
    try (exists s2; split; [reflexivity | exact E12]);
    rewrite (bind_ok _ _ _ _ _ H3);
    destruct (dexscreener_outcome P token_symbol blockchain) as [e3 | | d3];
    simpl in *; exists s3; (split; [reflexivity | exact E123]).
Qed.

Lemma fallback_first_success (before after : list (string * outcome))
  (B : string) (d : gmap string value) :
  Forall failed before ->
  fallback (before ++ (B, Found d) :: after)
  = (Some d, map fst before ++ [B], logged_failures before ++ [(B, true)]).
Proof.
  induction 1 as [| [provider o] rest Hf _ IH]; [reflexivity |].
  simpl. rewrite IH.
  destruct o as [e | | d']; [reflexivity | reflexivity | destruct Hf].
Qed.

Lemma fallback_all_failed (l : list (string * outcome)) :
  Forall failed l ->
  fallback l = (None, map fst l, logged_failures l).
Proof.
  induction 1 as [| [provider o] rest Hf _ IH]; [reflexivity |].
  simpl. rewrite IH.
  destruct o as [e | | d']; [reflexivity | reflexivity | destruct Hf].
Qed.

(** A record found by a provider names that provider as its source. *)
Lemma attempts_source (P : Providers) (token_symbol blockchain B : string)
  (d : gmap string value) :
  In (B, Found d) (attempts P token_symbol blockchain) ->
  d !! "source" = Some (VStr B).
Proof.
  unfold attempts, coingecko_outcome, oneinch_outcome, dexscreener_outcome.
  intros Hin. apply in_app_or in Hin.
  destruct Hin as [[Hin | [Hin | []]] | Hin].
  - destruct (snd (coingecko_search_coin P token_symbol))
      as [[coin_id |] | e]; try discriminate.
    destruct (String.eqb coin_id ""); try discriminate.
    destruct (snd (coingecko_get_contract_address P coin_id blockchain))
      as [[c |] | e]; try discriminate.
    injection Hin as <- <-. reflexivity.
  - destruct (snd (oneinch_search_tokens P token_symbol blockchain))
      as [[| token tokens] | e]; try discriminate.
    injection Hin as <- <-. reflexivity.
  - destruct (DEXSCREENER_AVAILABLE P); [| destruct Hin].
    destruct Hin as [Hin | []].
    destruct (snd (dexscreener_search_tokens P token_symbol))
      as [tokens | e]; try discriminate.
    destruct (find (on_chain blockchain) tokens); try discriminate.
    injection Hin as <- <-. reflexivity.
Qed.

(** C1, as the code has it. When the providers before [B] in the
    priority order fail, by error or by not-found, and [B] succeeds,
    [_fetch_from_apis] returns the record of [B], whose source is [B]; it
    acquires the rate limiters of the providers up to [B] and of none
    after it; and it appends to the call log one failure record for each
    earlier provider that raised an error, then the success record of [B].
    An earlier attempt that ended in not-found leaves no record. *)
Theorem fallback_chain_first_success (P : Providers)
  (token_symbol blockchain : string) (s : State)
  (before after : list (string * outcome)) (B : string)
  (d : gmap string value) :
  attempts P token_symbol blockchain = before ++ (B, Found d) :: after ->
  Forall failed before ->
  exists s',
    _fetch_from_apis P token_symbol blockchain s = (s', Ok (Some d))
    /\ d !! "source" = Some (VStr B)
    /\ acquired s' = acquired s ++ map fst before ++ [B]
    /\ call_log s' = call_log s ++ logged_failures before ++ [(B, true)]
    /\ same_tables s s'.
Proof.
  intros Hattempts Hfailed.
  destruct (fetch_from_apis_run P token_symbol blockchain s)
    as (s' & Hrun & Hacq & Hlog & Hsame).
  rewrite Hattempts, (fallback_first_success _ _ _ _ Hfailed) in Hrun, Hacq, Hlog.
  exists s'. split; [exact Hrun |].
  split.
  { apply (attempts_source P token_symbol blockchain).
    rewrite Hattempts. apply in_or_app. right. left. reflexivity. }
  auto.
Qed.

(** CoinGecko raises and 1inch knows USDT: the record of 1inch is
    returned, after a failure record for CoinGecko and a success record for
    1inch; DexScreener is not tried. *)
Lemma fallback_chain_first_success_witness :
  exists s',
    _fetch_from_apis Scenario.coingecko_raises "USDT" "ethereum" Scenario.fresh
    = (s', Ok (Some (oneinch_dict Scenario.usdt "USDT" "ethereum")))
    /\ oneinch_dict Scenario.usdt "USDT" "ethereum" !! "source"
       = Some (VStr "1inch")
    /\ acquired s' = ["coingecko"; "1inch"]
    /\ call_log s' = [("coingecko", false); ("1inch", true)]
    /\ same_tables Scenario.fresh s'.
Proof.
  apply (fallback_chain_first_success Scenario.coingecko_raises
           "USDT" "ethereum" Scenario.fresh
           [("coingecko", Failed (Exception "timeout"))]
           [("dexscreener", NotFound)] "1inch"
           (oneinch_dict Scenario.usdt "USDT" "ethereum")).
  - reflexivity.
  - constructor; [exact I | constructor].
Defined.

(** C1 as stated fails. CoinGecko does not find the token (not-found) and
    1inch succeeds: the record of 1inch is returned, but the call log holds
    no record for the failed CoinGecko attempt. *)
Lemma not_found_attempt_is_not_logged :
  attempts Scenario.coingecko_misses "USDT" "ethereum"
  = [("coingecko", NotFound);
     ("1inch", Found (oneinch_dict Scenario.usdt "USDT" "ethereum"));
     ("dexscreener", NotFound)]
  /\ exists s',
       _fetch_from_apis Scenario.coingecko_misses "USDT" "ethereum"
         Scenario.fresh
       = (s', Ok (Some (oneinch_dict Scenario.usdt "USDT" "ethereum")))
       /\ call_log s' = [("1inch", true)]
       /\ ~ In "coingecko" (map fst (call_log s')).
Proof.
  split; [reflexivity |].
  eexists. split; [reflexivity |].
  split; [reflexivity |].
  simpl. intros [H | []]. discriminate.
Qed.

(** *** Exhaustion of the chain *)

Lemma upper_ascii_idem (c : ascii) : upper_ascii (upper_ascii c) = upper_ascii c.
Proof. destruct c as [[] [] [] [] [] [] [] []]; reflexivity. Qed.

Lemma lower_ascii_idem (c : ascii) : lower_ascii (lower_ascii c) = lower_ascii c.
Proof. destruct c as [[] [] [] [] [] [] [] []]; reflexivity. Qed.

Lemma upper_idem (s : string) : upper (upper s) = upper s.
Proof.
  induction s as [| c s IH]; [reflexivity |].
  simpl. rewrite upper_ascii_idem, IH. reflexivity.
Qed.

Lemma lower_idem (s : string) : lower (lower s) = lower s.
Proof.
  induction s as [| c s IH]; [reflexivity |].
  simpl. rewrite lower_ascii_idem, IH. reflexivity.
Qed.

Lemma find_update_first {A} (p : A -> bool) (f : A -> A) (l : list A) (x : A) :
  find p l = Some x ->
  p (f x) = true ->
  find p (update_first p f l) = Some (f x)
  /\ length (update_first p f l) = length l.
Proof.
  intros Hfind Hp. induction l as [| y l IH]; [discriminate |].
  simpl in *. destruct (p y) eqn:Hy.
  - injection Hfind as ->. simpl. rewrite Hp. auto.
  - simpl. rewrite Hy. destruct (IH Hfind) as [-> ->]. auto.
Qed.

Lemma find_app_new {A} (p : A -> bool) (l : list A) (y : A) :
  find p l = None ->
  p y = true ->
  find p (l ++ [y]) = Some y.
Proof.
  intros Hfind Hp. induction l as [| x l IH]; simpl in *.
  - rewrite Hp. reflexivity.
  - destruct (p x); [discriminate | auto].
Qed.

Lemma update_metrics_run (f : Metrics -> Metrics) (s : State) :
  exists s',
    update_metrics f s = (s', Ok tt)
    /\ db s' = db s /\ clock s' = clock s /\ cache_ttl s' = cache_ttl s
    /\ acquired s' = acquired s /\ metrics s' = f (metrics s).
Proof.
  eexists. split; [reflexivity |]. simpl. auto.
Qed.

(** [_log_failed_lookup] does not raise and leaves a row for the symbol
    and chain, counted once more than the row it found. *)
Lemma log_failed_lookup_run (token_symbol blockchain error_message : string)
  (s : State) :
  let key := by_failed_symbol_chain token_symbol blockchain in
  let rows := failed_contract_lookups (db s) in
  exists s' row,
    _log_failed_lookup token_symbol blockchain error_message s = (s', Ok tt)
    /\ find key (failed_contract_lookups (db s')) = Some row
    /\ FailedContractLookup.token_symbol row = upper token_symbol
    /\ FailedContractLookup.blockchain row = lower blockchain
    /\ FailedContractLookup.error_message row = error_message
    /\ FailedContractLookup.retry_count row
       = match find key rows with
         | Some old => (FailedContractLookup.retry_count old + 1)%Z
         | None => 1%Z
         end
    /\ length (failed_contract_lookups (db s'))
       = match find key rows with
         | Some _ => length rows
         | None => S (length rows)
         end
    /\ contract_addresses (db s') = contract_addresses (db s).
Proof.
  intros key rows.
  unfold _log_failed_lookup, try_except, bind, get_state, set_db. simpl.
  fold key. fold rows.
  destruct (find key rows) as [old |] eqn:Hfind; simpl.
  - pose proof (find_some _ _ Hfind) as [_ Hkey].
    set (again := fun failed : FailedContractLookup.t =>
           {| FailedContractLookup.id := FailedContractLookup.id failed;
              FailedContractLookup.token_symbol :=
                FailedContractLookup.token_symbol failed;
              FailedContractLookup.blockchain :=
                FailedContractLookup.blockchain failed;
              FailedContractLookup.error_message := error_message;
              FailedContractLookup.failed_at := clock s;
              FailedContractLookup.retry_count :=
                (FailedContractLookup.retry_count failed + 1)%Z |}).
    destruct (find_update_first key again rows old Hfind Hkey) as [Hf Hlen].
    unfold key, by_failed_symbol_chain in Hkey.
    apply andb_true_iff in Hkey. destruct Hkey as [Hs Hb].
    apply String.eqb_eq in Hs. apply String.eqb_eq in Hb.
    eexists _, (again old). split; [reflexivity |]. simpl.
    auto 10.
  - eexists _, _. split; [reflexivity |]. simpl.
    split.
    { apply find_app_new; [exact Hfind |].
      unfold key, by_failed_symbol_chain. simpl.
      rewrite !String.eqb_refl. reflexivity. }
    rewrite length_app. simpl. repeat split; lia.
Qed.

Lemma try_except_unit_total (body : M unit) (s : State) :
  exists s', try_except body (fun _ => ret tt) s = (s', Ok tt).
Proof.
  unfold try_except, ret. destruct (body s) as [s' [[] | e]]; eauto.
Qed.

(** The only exception that leaves [get_contract_address] is its own
    [ValueError]: whatever a provider or the cache write raises is caught
    inside. *)
Lemma get_contract_address_raises_only (P : Providers)
  (token_symbol blockchain : string) (force_refresh : bool) (s : State) :
  exists s' r,
    get_contract_address P token_symbol blockchain force_refresh s = (s', r)
    /\ forall e,
         r = Raise e ->
         e = could_not_resolve (upper token_symbol) (lower blockchain).
Proof.
  unfold get_contract_address.
  destruct (update_metrics_run incr_total_requests s) as (s1 & H1 & _).
  rewrite (bind_ok _ _ _ _ _ H1). cbv zeta.
  destruct (is_native (upper token_symbol) (lower blockchain)).
  { eexists _, _. split; [reflexivity | discriminate]. }
  assert (Hc : exists cached,
             (if force_refresh then ret None
              else get_cached_contract (upper token_symbol) (lower blockchain))
               s1 = (s1, Ok cached)).
  { destruct force_refresh; [eexists; reflexivity |].
    rewrite get_cached_contract_run. eauto. }
  destruct Hc as (cached & Hc). rewrite (bind_ok _ _ _ _ _ Hc).
  destruct cached as [cached |].
  { destruct (update_metrics_run incr_cache_hits s1) as (s2 & H2 & _).
    rewrite (bind_ok _ _ _ _ _ H2).
    eexists _, _. split; [reflexivity | discriminate]. }
  destruct (update_metrics_run incr_cache_misses s1) as (s2 & H2 & _).
  rewrite (bind_ok _ _ _ _ _ H2).
  destruct (fetch_from_apis_run P (upper token_symbol) (lower blockchain) s2)
    as (s3 & H3 & _).
  rewrite (bind_ok _ _ _ _ _ H3).
  destruct (some_data _) as [contract_data |].
  - match goal with
    | |- context [bind (try_except ?body ?h)] =>
        destruct (try_except_unit_total body s3) as (s4 & H4)
    end.
    rewrite (bind_ok _ _ _ _ _ H4).
    eexists _, _. split; [reflexivity | discriminate].
  - destruct (log_failed_lookup_run (upper token_symbol) (lower blockchain)
                "All APIs failed" s3) as (s4 & row & H4 & _).
    rewrite (bind_ok _ _ _ _ _ H4).
    eexists _, _. split; [reflexivity |].
    intros e He. injection He as <-. reflexivity.
Qed.

(** C2. When the symbol is not the chain's native token, the cache misses
    (or a refresh is forced) and every provider fails, by error or by
    not-found, [get_contract_address] leaves a failed-lookup row for the
    symbol and chain, with [retry_count] one more than that of the row
    already there, or 1 for a new row, and raises its [ValueError]; the
    exceptions of the providers do not reach the caller. *)
Theorem resolution_exhausted (P : Providers) (token_symbol blockchain : string)
  (force_refresh : bool) (s : State) :
  is_native (upper token_symbol) (lower blockchain) = false ->
  force_refresh = true
  \/ get_cached_contract (upper token_symbol) (lower blockchain) s
     = (s, Ok None) ->
  Forall failed (attempts P (upper token_symbol) (lower blockchain)) ->
  exists s' row,
    get_contract_address P token_symbol blockchain force_refresh s
    = (s', Raise (could_not_resolve (upper token_symbol) (lower blockchain)))
    /\ find (by_failed_symbol_chain token_symbol blockchain)
            (failed_contract_lookups (db s')) = Some row
    /\ FailedContractLookup.token_symbol row = upper token_symbol
    /\ FailedContractLookup.blockchain row = lower blockchain
    /\ FailedContractLookup.retry_count row
       = match find (by_failed_symbol_chain token_symbol blockchain)
                    (failed_contract_lookups (db s)) with
         | Some old => (FailedContractLookup.retry_count old + 1)%Z
         | None => 1%Z
         end
    /\ length (failed_contract_lookups (db s'))
       = match find (by_failed_symbol_chain token_symbol blockchain)
                    (failed_contract_lookups (db s)) with
         | Some _ => length (failed_contract_lookups (db s))
         | None => S (length (failed_contract_lookups (db s)))
         end
    /\ contract_addresses (db s') = contract_addresses (db s).
Proof.
  intros Hnative Hmiss Hfailed.
  assert (Hkey : by_failed_symbol_chain (upper token_symbol) (lower blockchain)
                 = by_failed_symbol_chain token_symbol blockchain).
  { unfold by_failed_symbol_chain. rewrite upper_idem, lower_idem.
    reflexivity. }
  unfold get_contract_address.
  destruct (update_metrics_run incr_total_requests s)
    as (s1 & H1 & Hdb1 & Hclk1 & Httl1 & _).
  rewrite (bind_ok _ _ _ _ _ H1). cbv zeta. rewrite Hnative.
  assert (Hc : (if force_refresh then ret None
                else get_cached_contract (upper token_symbol)
                       (lower blockchain)) s1 = (s1, Ok None)).
  { destruct force_refresh; [reflexivity |].
    destruct Hmiss as [Hmiss | Hmiss]; [discriminate |].
    rewrite get_cached_contract_run in *.
    rewrite Hdb1, Hclk1, Httl1.
    injection Hmiss as ->. reflexivity. }
  rewrite (bind_ok _ _ _ _ _ Hc).
  destruct (update_metrics_run incr_cache_misses s1)
    as (s2 & H2 & Hdb2 & _).
  rewrite (bind_ok _ _ _ _ _ H2).
  destruct (fetch_from_apis_run P (upper token_symbol) (lower blockchain) s2)
    as (s3 & H3 & _ & _ & Hca3 & Hfl3 & _).
  rewrite (fallback_all_failed _ Hfailed) in H3. simpl in H3.
  rewrite (bind_ok _ _ _ _ _ H3). simpl.
  destruct (log_failed_lookup_run (upper token_symbol) (lower blockchain)
              "All APIs failed" s3)
    as (s4 & row & H4 & Hfind & Hsym & Hchain & _ & Hcount & Hlen & Hca4).
  rewrite (bind_ok _ _ _ _ _ H4).
  rewrite Hkey, Hfl3, Hdb2, Hdb1 in *.
  rewrite upper_idem in Hsym. rewrite lower_idem in Hchain.
  exists s4, row. split; [reflexivity |].
  repeat (split; [assumption |]).
  congruence.
Qed.

(** Every provider raises for "usdt" on "Ethereum": the caller sees the
    resolver's [ValueError] and a first failed-lookup row is written. *)
Lemma resolution_exhausted_witness :
  exists s' row,
    get_contract_address Scenario.all_raise "usdt" "Ethereum" false
      Scenario.fresh
    = (s', Raise (ValueError
                    "Could not resolve contract address for USDT on ethereum"))
    /\ find (by_failed_symbol_chain "usdt" "Ethereum")
            (failed_contract_lookups (db s')) = Some row
    /\ FailedContractLookup.token_symbol row = "USDT"
    /\ FailedContractLookup.blockchain row = "ethereum"
    /\ FailedContractLookup.retry_count row = 1%Z
    /\ length (failed_contract_lookups (db s')) = 1%nat.
Proof.
  destruct (resolution_exhausted Scenario.all_raise "usdt" "Ethereum" false
              Scenario.fresh)
    as (s' & row & Hrun & Hfind & Hsym & Hchain & Hcount & Hlen & _).
  - reflexivity.
  - right. reflexivity.
  - repeat constructor.
  - exists s', row.
    split; [exact Hrun |]. split; [exact Hfind |]. split; [exact Hsym |].
    split; [exact Hchain |]. split; [exact Hcount | exact Hlen].
Defined.

(** A second exhausted resolution of the same symbol counts the row up. *)
Example second_failure_counts_up :
  let s1 := fst (get_contract_address Scenario.all_raise "usdt" "Ethereum"
                   false Scenario.fresh) in
  let s2 := fst (get_contract_address Scenario.all_raise "USDT" "ethereum"
                   false s1) in
  map FailedContractLookup.retry_count (failed_contract_lookups (db s1))
  = [1%Z]
  /\ map FailedContractLookup.retry_count (failed_contract_lookups (db s2))
     = [2%Z].
Proof.
  vm_compute. split; reflexivity.
Qed.

(** *** Pairs *)

Lemma split_length (sep : ascii) (s : string) :
  length (split sep s) = S (count_char sep s).
Proof.
  induction s as [| c s IH]; [reflexivity |].
  simpl. destruct (Ascii.eqb c sep); simpl.
  - rewrite IH. reflexivity.
  - destruct (split sep s) as [| h t]; [discriminate |]. exact IH.
Qed.

Lemma invalid_pair_is_not_unresolved (pair token_symbol blockchain : string) :
  could_not_resolve token_symbol blockchain <> invalid_pair_format pair.
Proof. discriminate. Qed.

(** C8, as the code has it. [get_pair_contracts] raises the invalid-format
    [ValueError] exactly when the text does not contain exactly one "/".
    Otherwise it resolves the upper-cased part before the "/" and then the
    one after it, empty or not: when both resolve it returns the pair with
    both records; when one does not, the [ValueError] of that resolution
    reaches the caller. *)
Theorem pair_format_checked (P : Providers) (pair blockchain : string)
  (s : State) :
  ((exists s',
       get_pair_contracts P pair blockchain s
       = (s', Raise (invalid_pair_format pair)))
   <-> count_char "/" pair <> 1%nat)
  /\ (count_char "/" pair = 1%nat ->
      exists base quote,
        split "/" pair = [base; quote]
        /\ (forall s1 base_token s2 quote_token,
               get_contract_address P (upper base) blockchain false s
               = (s1, Ok base_token) ->
               get_contract_address P (upper quote) blockchain false s1
               = (s2, Ok quote_token) ->
               get_pair_contracts P pair blockchain s
               = (s2, Ok {| ContractResolver.pair := pair;
                            base_token := base_token;
                            quote_token := quote_token;
                            ContractResolver.blockchain := blockchain |}))
        /\ (forall s1 e,
               get_contract_address P (upper base) blockchain false s
               = (s1, Raise e) ->
               get_pair_contracts P pair blockchain s = (s1, Raise e)
               /\ e = could_not_resolve (upper base) (lower blockchain))
        /\ (forall s1 base_token s2 e,
               get_contract_address P (upper base) blockchain false s
               = (s1, Ok base_token) ->
               get_contract_address P (upper quote) blockchain false s1
               = (s2, Raise e) ->
               get_pair_contracts P pair blockchain s = (s2, Raise e)
               /\ e = could_not_resolve (upper quote) (lower blockchain))).
Proof.
  pose proof (split_length "/" pair) as Hlen.
  unfold get_pair_contracts.
  destruct (split "/" pair) as [| base [| quote [| extra rest]]] eqn:Hsplit;
    simpl in Hlen.
  - discriminate.
  - split.
    + split; [intros _; lia | intros _; eexists; reflexivity].
    + intros Hone. lia.
  - assert (Hone : count_char "/" pair = 1%nat) by lia.
    assert (Hbase : forall s1 e,
               get_contract_address P (upper base) blockchain false s
               = (s1, Raise e) ->
               e = could_not_resolve (upper base) (lower blockchain)).
    { intros s1 e He.
      destruct (get_contract_address_raises_only P (upper base) blockchain
                  false s) as (s' & r & Hr & Honly).
      rewrite Hr in He. injection He as _ ->.
      rewrite (Honly e eq_refl), upper_idem. reflexivity. }
    assert (Hquote : forall s1 s2 e,
               get_contract_address P (upper quote) blockchain false s1
               = (s2, Raise e) ->
               e = could_not_resolve (upper quote) (lower blockchain)).
    { intros s1 s2 e He.
      destruct (get_contract_address_raises_only P (upper quote) blockchain
                  false s1) as (s' & r & Hr & Honly).
      rewrite Hr in He. injection He as _ ->.
      rewrite (Honly e eq_refl), upper_idem. reflexivity. }
    split.
    + split; [| intros Hne; contradiction].
      intros (s' & Hrun). exfalso. revert Hrun. unfold bind.
      destruct (get_contract_address P (upper base) blockchain false s)
        as [s1 [base_token | e]] eqn:H1.
      * destruct (get_contract_address P (upper quote) blockchain false s1)
          as [s2 [quote_token | e]] eqn:H2; [discriminate |].
        intros Hrun. injection Hrun as _ He.
        rewrite (Hquote _ _ _ H2) in He.
        exact (invalid_pair_is_not_unresolved _ _ _ He).
      * intros Hrun. injection Hrun as _ He.
        rewrite (Hbase _ _ eq_refl) in He.
        exact (invalid_pair_is_not_unresolved _ _ _ He).
    + intros _. exists base, quote. split; [reflexivity |].
      split; [| split].
      * intros s1 base_token s2 quote_token H1 H2.
        rewrite (bind_ok _ _ _ _ _ H1), (bind_ok _ _ _ _ _ H2). reflexivity.
      * intros s1 e H1. rewrite (bind_raise _ _ _ _ _ H1).
        split; [reflexivity | exact (Hbase _ _ H1)].
      * intros s1 base_token s2 e H1 H2.
        rewrite (bind_ok _ _ _ _ _ H1), (bind_raise _ _ _ _ _ H2).
        split; [reflexivity | exact (Hquote _ _ _ H2)].
  - split.
    + split; [intros _; lia | intros _; eexists; reflexivity].
    + intros Hone. lia.
Qed.

(** "USDTETH" has no separator and is rejected; "USDT/ETH" resolves ETH as
    the native token of ethereum. *)
Lemma pair_format_checked_witness :
  (exists s',
      get_pair_contracts Scenario.coingecko_misses "USDTETH" "ethereum"
        Scenario.fresh
      = (s', Raise (invalid_pair_format "USDTETH")))
  /\ exists base quote, split "/" "USDT/ETH" = [base; quote].
Proof.
  split.
  - apply (proj1 (pair_format_checked Scenario.coingecko_misses "USDTETH"
                    "ethereum" Scenario.fresh)).
    simpl. lia.
  - destruct (proj2 (pair_format_checked Scenario.coingecko_misses "USDT/ETH"
                       "ethereum" Scenario.fresh) eq_refl)
      as (base & quote & Hsplit & _).
    exists base, quote. exact Hsplit.
Defined.

(** C8 as stated fails. "USDT/" has one separator and an empty second
    part, so it does not have two non-empty parts; it is not rejected: the
    empty symbol is resolved like any other (here 1inch answers every
    search with USDT) and the pair is returned. *)
Lemma empty_part_is_not_rejected :
  two_nonempty_parts "USDT/" = false
  /\ match snd (get_pair_contracts Scenario.coingecko_misses "USDT/"
                  "ethereum" Scenario.fresh) with
     | Ok r =>
         ContractResolver.pair r = "USDT/"
         /\ quote_token r !! "source" = Some (VStr "api")
     | Raise _ => False
     end.
Proof.
  split; [reflexivity |].
  vm_compute. split; reflexivity.
Qed.

End ResolverFacts.

(** ** Writing to the cache and reading it back *)

Section CacheWrites.

Import ContractAddress ContractCache.

Lemma find_update_first_within {A} (p q : A -> bool) (f : A -> A) (l : list A) :
  (forall x, p (f x) = p x) ->
  (forall x, q x = true -> p x = true) ->
  find p (update_first q f l)
  = match find p l with
    | Some x => Some (if q x then f x else x)
    | None => None
    end.
Proof.
  intros Hf Hqp. induction l as [| y l IH]; [reflexivity |].
  simpl. destruct (q y) eqn:Hq.
  - simpl. rewrite Hf, (Hqp y Hq), Hq. reflexivity.
  - simpl. destruct (p y); [rewrite Hq; reflexivity | exact IH].
Qed.

Lemma find_app_last {A} (p : A -> bool) (l : list A) (y : A) :
  find p (l ++ [y])
  = match find p l with
    | Some x => Some x
    | None => if p y then Some y else None
    end.
Proof.
  induction l as [| x l IH]; simpl.
  - destruct (p y); reflexivity.
  - destruct (p x); [reflexivity | exact IH].
Qed.

Lemma find_first_agree {A} (p q : A -> bool) (l : list A) (a b : A) :
  (forall x, q x = true -> p x = true) ->
  find q l = Some a -> find p l = Some b -> q b = true -> a = b.
Proof.
  intros Hqp. induction l as [| y l IH]; [discriminate |].
  simpl. intros Ha Hb Hqb.
  destruct (q y) eqn:Hq.
  - rewrite (Hqp y Hq) in Hb. congruence.
  - destruct (p y) eqn:Hp; [| auto].
    injection Hb as <-. congruence.
Qed.

Lemma update_first_length {A} (q : A -> bool) (f : A -> A) (l : list A) :
  length (update_first q f l) = length l.
Proof.
  induction l as [| y l IH]; [reflexivity |].
  simpl. destruct (q y); simpl; congruence.
Qed.

Lemma key_within_symbol_chain (sym ch c : string) (x : t) :
  by_symbol_chain_contract sym ch c x = true -> by_symbol_chain sym ch x = true.
Proof.
  unfold by_symbol_chain_contract, by_symbol_chain.
  intros H. apply andb_true_iff in H. tauto.
Qed.

Lemma key_of_symbol_chain (sym ch c : string) (x : t) :
  by_symbol_chain sym ch x = true ->
  by_symbol_chain_contract sym ch c x
  = String.eqb (contract_address x) (lower c).
Proof.
  unfold by_symbol_chain_contract, by_symbol_chain. intros ->. reflexivity.
Qed.

(** What [save_contract] does with a dictionary whose symbol, blockchain
    and contract are texts: it does not raise, stamps the row it returns
    with the current time, and either rewrites the first row with that
    symbol, chain and address or appends a new row. *)
Lemma save_contract_run (d : gmap string value) (sym ch c : string) (s : State) :
  d !! "symbol" = Some (VStr sym) ->
  d !! "blockchain" = Some (VStr ch) ->
  d !! "contract" = Some (VStr c) ->
  let key := by_symbol_chain_contract sym ch c in
  let rows := contract_addresses (db s) in
  exists s' row upd,
    save_contract d s = (s', Ok row)
    /\ (forall x, token_symbol (upd x) = token_symbol x
                  /\ blockchain (upd x) = blockchain x
                  /\ contract_address (upd x) = contract_address x
                  /\ id (upd x) = id x
                  /\ created_at (upd x) = created_at x
                  /\ last_verified_at (upd x) = Some (clock s))
    /\ match find key rows with
       | Some found =>
           row = upd found
           /\ contract_addresses (db s') = update_first key upd rows
       | None =>
           contract_addresses (db s') = rows ++ [row]
           /\ id row = (Z.of_nat (length rows) + 1)%Z
           /\ created_at row = clock s
       end
    /\ token_symbol row = upper sym
    /\ blockchain row = lower ch
    /\ contract_address row = lower c
    /\ last_verified_at row = Some (clock s)
    /\ clock s' = clock s /\ cache_ttl s' = cache_ttl s
    /\ metrics s' = metrics s /\ acquired s' = acquired s
    /\ failed_contract_lookups (db s') = failed_contract_lookups (db s)
    /\ api_call_logs (db s') = api_call_logs (db s).
Proof.
  intros Hsym Hch Hc key rows.
  unfold save_contract, try_except, bind, getitem, as_str, get_state, set_db,
    ret.
  rewrite Hsym, Hch, Hc. simpl. fold key. fold rows.
  destruct (find key rows) as [found |] eqn:Hfind; simpl.
  - pose proof (find_some _ _ Hfind) as [_ Hkey].
    unfold key, by_symbol_chain_contract in Hkey.
    apply andb_true_iff in Hkey. destruct Hkey as [Hkey Hc'].
    apply andb_true_iff in Hkey. destruct Hkey as [Hs' Hb'].
    apply String.eqb_eq in Hs', Hb', Hc'.
    eexists _, _, (fun x =>
                     {| id := id x; token_symbol := token_symbol x;
                        token_name := default (token_name x) (d !! "name");
                        contract_address := contract_address x;
                        blockchain := blockchain x;
                        decimals := default (decimals x) (d !! "decimals");
                        verified := default (verified x) (d !! "verified");
                        created_at := created_at x;
                        updated_at := clock s;
                        last_verified_at := Some (clock s) |}).
    split; [reflexivity |].
    split; [intros x; simpl; auto 10 |].
    split; [split; reflexivity |].
    simpl. auto 20.
  - eexists _, _, (fun x => {| id := id x; token_symbol := token_symbol x;
                               token_name := token_name x;
                               contract_address := contract_address x;
                               blockchain := blockchain x;
                               decimals := decimals x;
                               verified := verified x;
                               created_at := created_at x;
                               updated_at := clock s;
                               last_verified_at := Some (clock s) |}).
    split; [reflexivity |].
    split; [intros x; simpl; auto 10 |].
    simpl. auto 20.
Qed.

Lemma fresh_stamp_is_valid (row : t) (ttl utcnow : Z) :
  last_verified_at row = Some utcnow ->
  (0 < ttl)%Z ->
  is_cache_valid row ttl utcnow = true.
Proof.
  intros Hrow Httl.
  apply (is_cache_valid_some row ttl utcnow utcnow Hrow). lia.
Qed.

Lemma save_then_lookup (d : gmap string value) (sym ch c : string)
  (s : State) :
  d !! "symbol" = Some (VStr sym) ->
  d !! "blockchain" = Some (VStr ch) ->
  d !! "contract" = Some (VStr c) ->
  (0 < cache_ttl s)%Z ->
  (forall r,
      find (by_symbol_chain sym ch) (contract_addresses (db s)) = Some r ->
      contract_address r = lower c) ->
  exists s' row,
    save_contract d s = (s', Ok row)
    /\ get_cached_contract sym ch s' = (s', Ok (Some row))
    /\ token_symbol row = upper sym
    /\ blockchain row = lower ch
    /\ contract_address row = lower c.
Proof.
  intros Hsym Hch Hc Httl Hfirst.
  destruct (save_contract_run d sym ch c s Hsym Hch Hc)
    as (s' & row & upd & Hrun & Hupd & Hrows & Hrs & Hrb & Hrc & Hstamp
        & Hclk & Httl' & _).
  exists s', row. split; [exact Hrun |]. split; [| auto].
  rewrite get_cached_contract_run, Hclk, Httl'.
  assert (Hsc : by_symbol_chain sym ch row = true).
  { unfold by_symbol_chain. rewrite Hrs, Hrb, !String.eqb_refl. reflexivity. }
  assert (Hfound : find (by_symbol_chain sym ch) (contract_addresses (db s'))
                   = Some row).
  { destruct (find (by_symbol_chain_contract sym ch c)
                (contract_addresses (db s))) as [found |] eqn:Hkey.
    - destruct Hrows as [-> ->].
      rewrite (find_update_first_within (by_symbol_chain sym ch)
                 (by_symbol_chain_contract sym ch c) upd).
      + destruct (find (by_symbol_chain sym ch) (contract_addresses (db s)))
          as [x |] eqn:Hx.
        * pose proof (find_some _ _ Hx) as [_ Hpx].
          assert (Hqx : by_symbol_chain_contract sym ch c x = true).
          { rewrite (key_of_symbol_chain _ _ _ _ Hpx), (Hfirst x eq_refl).
            apply String.eqb_refl. }
          rewrite Hqx.
          rewrite (find_first_agree _ _ _ _ _
                     (key_within_symbol_chain sym ch c) Hkey Hx Hqx).
          reflexivity.
        * pose proof (find_some _ _ Hkey) as [Hin Hq].
          pose proof (find_none _ _ Hx found Hin) as Hp.
          rewrite (key_within_symbol_chain _ _ _ _ Hq) in Hp. discriminate.
      + intros x. unfold by_symbol_chain.
        destruct (Hupd x) as (-> & -> & _). reflexivity.
      + apply key_within_symbol_chain.
    - destruct Hrows as (-> & _). rewrite find_app_last, Hsc.
      destruct (find (by_symbol_chain sym ch) (contract_addresses (db s)))
        as [x |] eqn:Hx; [| reflexivity].
      pose proof (find_some _ _ Hx) as [Hin Hpx].
      pose proof (find_none _ _ Hkey x Hin) as Hq.
      rewrite (key_of_symbol_chain _ _ _ _ Hpx), (Hfirst x eq_refl),
        String.eqb_refl in Hq. discriminate. }
  rewrite Hfound, (fresh_stamp_is_valid row _ _ Hstamp Httl). reflexivity.
Qed.

(** X1. Round trip of the cache. When no row for the symbol and chain
    stands before the one written (the first such row, if any, has the
    address that is saved) and the TTL is positive, the row that
    [save_contract] returns is what [get_cached_contract] returns right
    after. *)
Theorem save_then_lookup_hits (d : gmap string value) (sym ch c : string)
  (s : State) :
  d !! "symbol" = Some (VStr sym) ->
  d !! "blockchain" = Some (VStr ch) ->
  d !! "contract" = Some (VStr c) ->
  (0 < cache_ttl s)%Z ->
  (forall r,
      find (by_symbol_chain sym ch) (contract_addresses (db s)) = Some r ->
      contract_address r = lower c) ->
  exists s' row,
    save_contract d s = (s', Ok row)
    /\ get_cached_contract sym ch s' = (s', Ok (Some row))
    /\ token_symbol row = upper sym
    /\ blockchain row = lower ch
    /\ contract_address row = lower c.
Proof. exact (save_then_lookup d sym ch c s). Qed.

End CacheWrites.

Section CacheWrites2.

Import ContractAddress ContractCache.

(** USDT saved into an empty cache. *)
Lemma save_then_lookup_hits_witness :
  exists s' row,
    save_contract Cases.usdt_data Scenario.fresh = (s', Ok row)
    /\ get_cached_contract "USDT" "ethereum" s' = (s', Ok (Some row))
    /\ token_symbol row = "USDT"
    /\ blockchain row = "ethereum"
    /\ contract_address row = "0xdac17f958d2ee523a2206206994597c13d831ec7".
Proof.
  apply (save_then_lookup_hits Cases.usdt_data "USDT" "ethereum"
           "0xdAC17F958D2ee523a2206206994597C13D831ec7" Scenario.fresh).
  - reflexivity.
  - reflexivity.
  - reflexivity.
  - simpl. lia.
  - simpl. discriminate.
Defined.

(** X2. A stale row shadows a fresh one. The lookup only examines the
    first row for the symbol and chain: when that row is no longer valid
    and holds another address than the one saved, the saved row is in the
    table and valid, and the lookup still misses. *)
Theorem stale_row_shadows_saved_address (d : gmap string value)
  (sym ch c : string) (s : State) (r : t) :
  d !! "symbol" = Some (VStr sym) ->
  d !! "blockchain" = Some (VStr ch) ->
  d !! "contract" = Some (VStr c) ->
  (0 < cache_ttl s)%Z ->
  find (by_symbol_chain sym ch) (contract_addresses (db s)) = Some r ->
  contract_address r <> lower c ->
  is_cache_valid r (cache_ttl s) (clock s) = false ->
  exists s' row,
    save_contract d s = (s', Ok row)
    /\ In row (contract_addresses (db s'))
    /\ is_cache_valid row (cache_ttl s') (clock s') = true
    /\ get_cached_contract sym ch s' = (s', Ok None).
Proof.
  intros Hsym Hch Hc Httl Hfind Hother Hstale.
  destruct (save_contract_run d sym ch c s Hsym Hch Hc)
    as (s' & row & upd & Hrun & Hupd & Hrows & Hrs & Hrb & Hrc & Hstamp
        & Hclk & Httl' & _).
  pose proof (find_some _ _ Hfind) as [_ Hpr].
  assert (Hqr : by_symbol_chain_contract sym ch c r = false).
  { rewrite (key_of_symbol_chain _ _ _ _ Hpr).
    apply String.eqb_neq. exact Hother. }
  exists s', row. split; [exact Hrun |].
  rewrite get_cached_contract_run, Hclk, Httl'.
  split; [| split; [exact (fresh_stamp_is_valid row _ _ Hstamp Httl) |]].
  - destruct (find (by_symbol_chain_contract sym ch c)
                (contract_addresses (db s))) as [found |] eqn:Hkey.
    + destruct Hrows as [-> ->].
      pose proof (find_update_first_within
                    (by_symbol_chain_contract sym ch c)
                    (by_symbol_chain_contract sym ch c) upd
                    (contract_addresses (db s))) as Hf.
      rewrite Hkey in Hf.
      pose proof (find_some _ _ Hkey) as [_ Hq]. rewrite Hq in Hf.
      eapply (proj1 (find_some _ _ (Hf _ _))).
    + destruct Hrows as (-> & _). apply in_or_app. right. left. reflexivity.
  - assert (Hstill : find (by_symbol_chain sym ch) (contract_addresses (db s'))
                     = Some r).
    { destruct (find (by_symbol_chain_contract sym ch c)
                  (contract_addresses (db s))) as [found |] eqn:Hkey.
      - destruct Hrows as [_ ->].
        rewrite (find_update_first_within (by_symbol_chain sym ch)
                   (by_symbol_chain_contract sym ch c) upd).
        + rewrite Hfind, Hqr. reflexivity.
        + intros x. unfold by_symbol_chain.
          destruct (Hupd x) as (-> & -> & _). reflexivity.
        + apply key_within_symbol_chain.
      - destruct Hrows as (-> & _). rewrite find_app_last, Hfind.
        reflexivity. }
    rewrite Hstill, Hstale. reflexivity.
  Unshelve.
  all: intros x; unfold by_symbol_chain_contract;
    try (destruct (Hupd x) as (-> & -> & -> & _); reflexivity); auto.
Qed.

(** The right USDT saved two days after a row with another address was
    stamped. *)
Lemma stale_row_shadows_saved_address_witness :
  exists s' row,
    save_contract Cases.usdt_data (Cases.later [Cases.other_usdt])
    = (s', Ok row)
    /\ In row (contract_addresses (db s'))
    /\ is_cache_valid row (cache_ttl s') (clock s') = true
    /\ get_cached_contract "USDT" "ethereum" s' = (s', Ok None).
Proof.
  apply (stale_row_shadows_saved_address Cases.usdt_data "USDT" "ethereum"
           "0xdAC17F958D2ee523a2206206994597C13D831ec7"
           (Cases.later [Cases.other_usdt]) Cases.other_usdt).
  - reflexivity.
  - reflexivity.
  - reflexivity.
  - simpl. lia.
  - reflexivity.
  - discriminate.
  - reflexivity.
Defined.

End CacheWrites2.

Section CacheWrites3.

Import ContractAddress ContractCache.

Lemma save_contract_finds (d : gmap string value) (sym ch c : string)
  (s s' : State) (row : t) :
  d !! "symbol" = Some (VStr sym) ->
  d !! "blockchain" = Some (VStr ch) ->
  d !! "contract" = Some (VStr c) ->
  save_contract d s = (s', Ok row) ->
  find (by_symbol_chain_contract sym ch c) (contract_addresses (db s'))
  = Some row.
Proof.
  intros Hsym Hch Hc Hsave.
  destruct (save_contract_run d sym ch c s Hsym Hch Hc)
    as (s1 & row1 & upd & Hrun & Hupd & Hrows & Hrs & Hrb & Hrc & _).
  rewrite Hrun in Hsave. injection Hsave as <- <-.
  destruct (find (by_symbol_chain_contract sym ch c)
              (contract_addresses (db s))) as [found |] eqn:Hkey.
  - destruct Hrows as [-> ->].
    rewrite (find_update_first_within _ (by_symbol_chain_contract sym ch c)).
    + rewrite Hkey. pose proof (find_some _ _ Hkey) as [_ ->]. reflexivity.
    + intros x. unfold by_symbol_chain_contract.
      destruct (Hupd x) as (-> & -> & -> & _). reflexivity.
    + auto.
  - destruct Hrows as (-> & _). rewrite find_app_last, Hkey.
    unfold by_symbol_chain_contract.
    rewrite Hrs, Hrb, Hrc, !String.eqb_refl. reflexivity.
Qed.

(** X3. [save_contract] is an upsert on (symbol, chain, address) compared
    without regard to case: saving the same token again, with whatever
    name, decimals or flag, rewrites the row in place. The table does not
    grow and the row keeps its id and creation time. *)
Theorem save_contract_upserts (d d' : gmap string value)
  (sym ch c sym' ch' c' : string) (s : State) :
  d !! "symbol" = Some (VStr sym) ->
  d !! "blockchain" = Some (VStr ch) ->
  d !! "contract" = Some (VStr c) ->
  d' !! "symbol" = Some (VStr sym') ->
  d' !! "blockchain" = Some (VStr ch') ->
  d' !! "contract" = Some (VStr c') ->
  upper sym' = upper sym -> lower ch' = lower ch -> lower c' = lower c ->
  exists s1 row1 s2 row2,
    save_contract d s = (s1, Ok row1)
    /\ save_contract d' s1 = (s2, Ok row2)
    /\ length (contract_addresses (db s2))
       = length (contract_addresses (db s1))
    /\ id row2 = id row1
    /\ created_at row2 = created_at row1
    /\ contract_address row2 = contract_address row1
    /\ last_verified_at row2 = Some (clock s1).
Proof.
  intros Hsym Hch Hc Hsym' Hch' Hc' Es Eb Ec.
  destruct (save_contract_run d sym ch c s Hsym Hch Hc)
    as (s1 & row1 & upd1 & Hrun1 & _).
  pose proof (save_contract_finds d sym ch c s s1 row1 Hsym Hch Hc Hrun1)
    as Hfind.
  destruct (save_contract_run d' sym' ch' c' s1 Hsym' Hch' Hc')
    as (s2 & row2 & upd2 & Hrun2 & Hupd2 & Hrows2 & _ & _ & _ & Hstamp & _).
  assert (Hkey : by_symbol_chain_contract sym' ch' c'
                 = by_symbol_chain_contract sym ch c).
  { unfold by_symbol_chain_contract. rewrite Es, Eb, Ec. reflexivity. }
  rewrite Hkey, Hfind in Hrows2. destruct Hrows2 as [-> Hrows2].
  exists s1, row1, s2, (upd2 row1).
  destruct (Hupd2 row1) as (_ & _ & Ha & Hi & Hcr & _).
  rewrite Hrows2, update_first_length. auto 10.
Qed.

(** USDT saved twice, the second time spelled in lower case. *)
Lemma save_contract_upserts_witness :
  exists s1 row1 s2 row2,
    save_contract Cases.usdt_data Scenario.fresh = (s1, Ok row1)
    /\ save_contract (<["symbol" := VStr "usdt"]> Cases.usdt_data) s1
       = (s2, Ok row2)
    /\ length (contract_addresses (db s2))
       = length (contract_addresses (db s1))
    /\ id row2 = id row1
    /\ created_at row2 = created_at row1
    /\ contract_address row2 = contract_address row1
    /\ last_verified_at row2 = Some (clock s1).
Proof.
  apply (save_contract_upserts Cases.usdt_data
           (<["symbol" := VStr "usdt"]> Cases.usdt_data)
           "USDT" "ethereum" "0xdAC17F958D2ee523a2206206994597C13D831ec7"
           "usdt" "ethereum" "0xdAC17F958D2ee523a2206206994597C13D831ec7");
    reflexivity.
Defined.

(** X4. [save_contract] needs the symbol, the blockchain and the contract
    to be texts. When one of them is missing or is not a text (the
    contract of a native token is [None]) it raises [KeyError] or
    [AttributeError] and writes nothing. *)
Theorem save_contract_rejects (d : gmap string value) (s : State) :
  (forall sym ch c,
      ~ (d !! "symbol" = Some (VStr sym)
         /\ d !! "blockchain" = Some (VStr ch)
         /\ d !! "contract" = Some (VStr c))) ->
  exists e,
    save_contract d s = (s, Raise e)
    /\ ((exists k, e = KeyError k) \/ (exists m, e = AttributeError m)).
Proof.
  intros Hnot.
  unfold save_contract, try_except, bind, getitem, as_str, get_state, raise,
    ret.
  destruct (d !! "symbol") as [[| sym | |] |] eqn:Hs; simpl;
    try (eexists; split; [reflexivity | eauto]).
  destruct (d !! "blockchain") as [[| ch | |] |] eqn:Hb; simpl;
    try (eexists; split; [reflexivity | eauto]).
  destruct (d !! "contract") as [[| c | |] |] eqn:Hc; simpl;
    try (eexists; split; [reflexivity | eauto]).
  exfalso. apply (Hnot sym ch c). auto.
Qed.

(** The data of native ETH: the contract is [None]. *)
Lemma save_contract_rejects_witness :
  exists e,
    save_contract Cases.eth_data Scenario.fresh = (Scenario.fresh, Raise e)
    /\ ((exists k, e = KeyError k) \/ (exists m, e = AttributeError m)).
Proof.
  apply (save_contract_rejects Cases.eth_data Scenario.fresh).
  intros sym ch c (_ & _ & Hc). discriminate Hc.
Defined.

End CacheWrites3.

(** ** The paths of [get_contract_address] *)

Section ResolverPaths.

Import ContractAddress ContractCache ContractResolver FallbackChain Invariants.

(** The parts of the state that a cache write or a failed-lookup record
    leaves alone. *)
Lemma save_contract_frame (d : gmap string value) (s s' : State)
  (r : result ContractAddress.t) :
  save_contract d s = (s', r) ->
  metrics s' = metrics s /\ acquired s' = acquired s
  /\ clock s' = clock s /\ cache_ttl s' = cache_ttl s
  /\ failed_contract_lookups (db s') = failed_contract_lookups (db s)
  /\ api_call_logs (db s') = api_call_logs (db s)
  /\ (forall e, r = Raise e -> s' = s).
Proof.
  unfold save_contract, try_except, bind, getitem, as_str, get_state, set_db,
    raise, ret.
  destruct (d !! "symbol") as [[| sym | |] |]; simpl;
    try (intros H; injection H as <- <-; auto 10).
  destruct (d !! "blockchain") as [[| ch | |] |]; simpl;
    try (intros H; injection H as <- <-; auto 10).
  destruct (d !! "contract") as [[| c | |] |]; simpl;
    try (intros H; injection H as <- <-; auto 10).
  destruct (find _ _); simpl; intros H; injection H as <- <-;
    simpl; repeat split; discriminate.
Qed.

Lemma log_failed_lookup_frame (token_symbol blockchain message : string)
  (s : State) :
  exists s',
    _log_failed_lookup token_symbol blockchain message s = (s', Ok tt)
    /\ metrics s' = metrics s /\ acquired s' = acquired s
    /\ clock s' = clock s /\ cache_ttl s' = cache_ttl s
    /\ contract_addresses (db s') = contract_addresses (db s)
    /\ api_call_logs (db s') = api_call_logs (db s).
Proof.
  unfold _log_failed_lookup, try_except, bind, get_state, set_db.
  simpl. destruct (find _ _); simpl; eexists; (split; [reflexivity |]);
    simpl; auto 10.
Qed.

(** The [try] block around the cache write: it never raises; it writes the
    row when the record has a text under "contract" and nothing
    otherwise. *)
Lemma save_block_run (d : gmap string value)
  (data : value -> gmap string value) (s : State) :
  exists s',
    try_except
      (let* contract := getitem d "contract" in
       let* _ := save_contract (data contract) in
       ret tt)
      (fun _ => ret tt) s = (s', Ok tt)
    /\ metrics s' = metrics s /\ acquired s' = acquired s
    /\ clock s' = clock s /\ cache_ttl s' = cache_ttl s
    /\ failed_contract_lookups (db s') = failed_contract_lookups (db s)
    /\ api_call_logs (db s') = api_call_logs (db s)
    /\ match d !! "contract" with
       | Some contract =>
           exists r, save_contract (data contract) s = (s', r)
       | None => s' = s
       end.
Proof.
  unfold try_except, bind, getitem, raise, ret.
  destruct (d !! "contract") as [contract |]; simpl.
  - destruct (save_contract (data contract) s) as [s1 [row | e]] eqn:Hsave;
      destruct (save_contract_frame _ _ _ _ Hsave)
        as (Hm & Ha & Hc & Ht & Hf & Hl & _);
      exists s1; (split; [reflexivity |]); eauto 10.
  - exists s. auto 10.
Qed.

Lemma fallback_found (l : list (string * outcome)) (d : gmap string value) :
  (fallback l).1.1 = Some d -> exists B, In (B, Found d) l.
Proof.
  induction l as [| [provider o] rest IH]; [discriminate |].
  simpl. destruct o as [e | | d'].
  - destruct (fallback rest) as [[r t] g]. simpl in *.
    intros H. destruct (IH H) as (B & HB). eauto.
  - destruct (fallback rest) as [[r t] g]. simpl in *.
    intros H. destruct (IH H) as (B & HB). eauto.
  - simpl. intros H. injection H as ->. eauto.
Qed.

(** The path through the providers: the record found is returned with its
    source set to "api", after an attempt to write it to the cache. *)
Lemma resolve_by_api (P : Providers) (token_symbol blockchain : string)
  (force_refresh : bool) (s : State) (d : gmap string value) :
  is_native (upper token_symbol) (lower blockchain) = false ->
  force_refresh = true
  \/ get_cached_contract (upper token_symbol) (lower blockchain) s
     = (s, Ok None) ->
  (fallback (attempts P (upper token_symbol) (lower blockchain))).1.1
  = Some d ->
  exists s3 s',
    get_contract_address P token_symbol blockchain force_refresh s
    = (s', Ok (<["source" := VStr "api"]> d))
    /\ acquired s3
       = acquired s
         ++ (fallback (attempts P (upper token_symbol) (lower blockchain))).1.2
    /\ call_log s3
       = call_log s
         ++ (fallback (attempts P (upper token_symbol) (lower blockchain))).2
    /\ failed_contract_lookups (db s3) = failed_contract_lookups (db s)
    /\ metrics s3 = incr_cache_misses (incr_total_requests (metrics s))
    /\ cache_ttl s3 = cache_ttl s
    /\ contract_addresses (db s3) = contract_addresses (db s)
    /\ metrics s' = metrics s3 /\ acquired s' = acquired s3
    /\ clock s' = clock s3 /\ cache_ttl s' = cache_ttl s3
    /\ failed_contract_lookups (db s') = failed_contract_lookups (db s3)
    /\ api_call_logs (db s') = api_call_logs (db s3)
    /\ match d !! "contract" with
       | Some contract =>
           exists r,
             save_contract
               (<["symbol" := VStr (upper token_symbol)]>
                (<["contract" := contract]>
                (<["blockchain" := VStr (lower blockchain)]>
                (<["decimals" := default (VInt 18) (d !! "decimals")]>
                (<["name" := default (VStr (upper token_symbol))
                               (d !! "name")]>
                (<["verified" := default (VBool false) (d !! "verified")]>
                 ∅)))))) s3 = (s', r)
       | None => s' = s3
       end.
Proof.
  intros Hnative Hmiss Hfound.
  unfold get_contract_address.
  destruct (update_metrics_run incr_total_requests s)
    as (s1 & H1 & Hdb1 & Hclk1 & Httl1 & Hacq1 & Hm1).
  rewrite (bind_ok _ _ _ _ _ H1). cbv zeta. rewrite Hnative.
  assert (Hc : (if force_refresh then ret None
                else get_cached_contract (upper token_symbol)
                       (lower blockchain)) s1 = (s1, Ok None)).
  { destruct force_refresh; [reflexivity |].
    destruct Hmiss as [Hmiss | Hmiss]; [discriminate |].
    rewrite get_cached_contract_run in *.
    rewrite Hdb1, Hclk1, Httl1.
    injection Hmiss as ->. reflexivity. }
  rewrite (bind_ok _ _ _ _ _ Hc).
  destruct (update_metrics_run incr_cache_misses s1)
    as (s2 & H2 & Hdb2 & Hclk2 & Httl2 & Hacq2 & Hm2).
  rewrite (bind_ok _ _ _ _ _ H2).
  destruct (fetch_from_apis_run P (upper token_symbol) (lower blockchain) s2)
    as (s3 & H3 & Hacq3 & Hlog3 & Hca3 & Hfl3 & Hm3 & Httl3).
  rewrite (bind_ok _ _ _ _ _ H3). rewrite Hfound.
  destruct (fallback_found _ _ Hfound) as (B & HB).
  pose proof (attempts_source _ _ _ _ _ HB) as Hsrc.
  assert (Hne : some_data (Some d) = Some d).
  { unfold some_data. destruct (decide (d = ∅)) as [-> | _]; [| reflexivity].
    rewrite lookup_empty in Hsrc. discriminate. }
  rewrite Hne.
  match goal with
  | |- context [bind (try_except (bind (getitem d "contract") ?k) ?h)] =>
      destruct (save_block_run d
                  (fun contract =>
                     <["symbol" := VStr (upper token_symbol)]>
                     (<["contract" := contract]>
                     (<["blockchain" := VStr (lower blockchain)]>
                     (<["decimals" := default (VInt 18) (d !! "decimals")]>
                     (<["name" := default (VStr (upper token_symbol))
                                    (d !! "name")]>
                     (<["verified" := default (VBool false)
                                        (d !! "verified")]> ∅)))))) s3)
        as (s4 & H4 & Hm4 & Hacq4 & Hclk4 & Httl4 & Hfl4 & Hlog4 & Hsave)
  end.
  rewrite (bind_ok _ _ _ _ _ H4).
  exists s3, s4. split; [reflexivity |].
  unfold call_log in *.
  rewrite Hacq3, Hlog3, Hacq2, Hacq1, Hfl3, Hm3, Hm2, Hm1, Httl3, Httl2,
    Httl1, Hca3, Hdb2, Hdb1.
  repeat (split; [solve [auto | congruence] |]). exact Hsave.
Qed.

End ResolverPaths.

Section ResolverPaths2.

Import ContractAddress ContractCache ContractResolver FallbackChain Invariants.

(** The path through the cache. *)
Lemma resolve_from_cache (P : Providers) (token_symbol blockchain : string)
  (s : State) (row : t) :
  is_native (upper token_symbol) (lower blockchain) = false ->
  get_cached_contract (upper token_symbol) (lower blockchain) s
  = (s, Ok (Some row)) ->
  exists s',
    get_contract_address P token_symbol blockchain false s
    = (s', Ok (<["symbol" := VStr (ContractAddress.token_symbol row)]>
               (<["contract" := VStr (contract_address row)]>
               (<["blockchain" := VStr (ContractAddress.blockchain row)]>
               (<["decimals" := py_or (decimals row) (VInt 18)]>
               (<["name" := py_or (token_name row)
                                  (VStr (upper token_symbol))]>
               (<["source" := VStr "cache"]>
               (<["verified" := verified row]> ∅))))))))
    /\ db s' = db s /\ acquired s' = acquired s
    /\ clock s' = clock s /\ cache_ttl s' = cache_ttl s
    /\ metrics s' = incr_cache_hits (incr_total_requests (metrics s)).
Proof.
  intros Hnative Hhit.
  unfold get_contract_address.
  destruct (update_metrics_run incr_total_requests s)
    as (s1 & H1 & Hdb1 & Hclk1 & Httl1 & Hacq1 & Hm1).
  rewrite (bind_ok _ _ _ _ _ H1). cbv zeta. rewrite Hnative.
  assert (Hc : get_cached_contract (upper token_symbol) (lower blockchain) s1
               = (s1, Ok (Some row))).
  { rewrite get_cached_contract_run in *.
    rewrite Hdb1, Hclk1, Httl1. injection Hhit as ->. reflexivity. }
  rewrite (bind_ok _ _ _ _ _ Hc).
  destruct (update_metrics_run incr_cache_hits s1)
    as (s2 & H2 & Hdb2 & Hclk2 & Httl2 & Hacq2 & Hm2).
  rewrite (bind_ok _ _ _ _ _ H2).
  exists s2. split; [reflexivity |].
  repeat (split; [solve [congruence] |]). congruence.
Qed.

(** X5. The native token of a chain is answered at once, whatever the
    spelling of symbol and chain and even when a refresh is forced: the
    record has no contract, 18 decimals and source "native"; no provider
    is tried and the database is not touched; only the request counter
    moves. *)
Theorem native_token_needs_no_lookup (P : Providers)
  (token_symbol blockchain : string) (force_refresh : bool) (s : State) :
  is_native (upper token_symbol) (lower blockchain) = true ->
  exists s' r,
    get_contract_address P token_symbol blockchain force_refresh s
    = (s', Ok r)
    /\ r !! "contract" = Some VNone
    /\ r !! "source" = Some (VStr "native")
    /\ r !! "symbol" = Some (VStr (upper token_symbol))
    /\ r !! "decimals" = Some (VInt 18)
    /\ db s' = db s /\ acquired s' = acquired s
    /\ metrics s' = incr_total_requests (metrics s).
Proof.
  intros Hnative. unfold get_contract_address.
  destruct (update_metrics_run incr_total_requests s)
    as (s1 & H1 & Hdb1 & _ & _ & Hacq1 & Hm1).
  rewrite (bind_ok _ _ _ _ _ H1). cbv zeta. rewrite Hnative.
  eexists _, _. split; [reflexivity |].
  repeat (split; [reflexivity |]). auto.
Qed.

(** "eth" on "Ethereum", with a forced refresh. *)
Lemma native_token_needs_no_lookup_witness :
  exists s' r,
    get_contract_address Scenario.all_raise "eth" "Ethereum" true
      Scenario.fresh = (s', Ok r)
    /\ r !! "contract" = Some VNone
    /\ r !! "source" = Some (VStr "native")
    /\ r !! "symbol" = Some (VStr "ETH")
    /\ r !! "decimals" = Some (VInt 18)
    /\ db s' = db Scenario.fresh /\ acquired s' = acquired Scenario.fresh
    /\ metrics s' = incr_total_requests (metrics Scenario.fresh).
Proof.
  apply (native_token_needs_no_lookup Scenario.all_raise "eth" "Ethereum"
           true Scenario.fresh).
  reflexivity.
Defined.

(** X6. A cache hit costs no provider call. When the lookup finds a valid
    row, the record is built from the row with source "cache"; no rate
    limiter is acquired, no call is logged and the database is unchanged;
    the hit is counted. Empty name or zero decimals are replaced by the
    symbol and by 18. *)
Theorem cache_hit_makes_no_call (P : Providers)
  (token_symbol blockchain : string) (s : State) (row : t) :
  is_native (upper token_symbol) (lower blockchain) = false ->
  get_cached_contract (upper token_symbol) (lower blockchain) s
  = (s, Ok (Some row)) ->
  exists s' r,
    get_contract_address P token_symbol blockchain false s = (s', Ok r)
    /\ r !! "source" = Some (VStr "cache")
    /\ r !! "contract" = Some (VStr (contract_address row))
    /\ r !! "decimals" = Some (py_or (decimals row) (VInt 18))
    /\ r !! "name"
       = Some (py_or (token_name row) (VStr (upper token_symbol)))
    /\ db s' = db s /\ acquired s' = acquired s
    /\ cache_hits (metrics s') = (cache_hits (metrics s) + 1)%Z
    /\ is_cache_valid row (cache_ttl s) (clock s) = true.
Proof.
  intros Hnative Hhit.
  destruct (resolve_from_cache P token_symbol blockchain s row Hnative Hhit)
    as (s' & Hrun & Hdb & Hacq & _ & _ & Hm).
  eexists s', _. split; [exact Hrun |].
  repeat (split; [reflexivity |]).
  split; [exact Hdb |]. split; [exact Hacq |].
  split; [rewrite Hm; reflexivity |].
  rewrite get_cached_contract_run in Hhit.
  destruct (find _ _) as [contract |]; [| discriminate].
  destruct (is_cache_valid contract (cache_ttl s) (clock s)) eqn:Hv;
    [| discriminate].
  injection Hhit as ->. exact Hv.
Qed.

(** The stamped USDT row, one hour old, while every provider raises. *)
Lemma cache_hit_makes_no_call_witness :
  exists s' r,
    get_contract_address Scenario.all_raise "usdt" "ethereum" false
      (Scenario.holding [Scenario.stamped]) = (s', Ok r)
    /\ r !! "source" = Some (VStr "cache")
    /\ r !! "contract"
       = Some (VStr "0xdac17f958d2ee523a2206206994597c13d831ec7")
    /\ acquired s' = [].
Proof.
  destruct (cache_hit_makes_no_call Scenario.all_raise "usdt" "ethereum"
              (Scenario.holding [Scenario.stamped]) Scenario.stamped)
    as (s' & r & Hrun & Hsrc & Hc & _ & _ & _ & Hacq & _).
  - reflexivity.
  - reflexivity.
  - exists s', r. auto.
Defined.

Lemma coingecko_found_shape (P : Providers) (token_symbol blockchain : string)
  (d : gmap string value) :
  coingecko_outcome P token_symbol blockchain = Found d ->
  d !! "contract" = None
  /\ exists address, d !! "contract_address" = Some (VStr address).
Proof.
  unfold coingecko_outcome.
  destruct (snd (coingecko_search_coin P token_symbol))
    as [[coin_id |] | e]; try discriminate.
  destruct (String.eqb coin_id ""); try discriminate.
  destruct (snd (coingecko_get_contract_address P coin_id blockchain))
    as [[c |] | e]; try discriminate.
  intros H. injection H as <-. split; [reflexivity |].
  eexists. reflexivity.
Qed.

(** X7. A record found by CoinGecko is returned but never cached. The
    client files the address under "contract_address", the resolver reads
    "contract": the cache write fails inside its [try] block, the record
    is returned with source "api", and the table of cached contracts is
    left as it was. *)
Theorem coingecko_record_is_not_cached (P : Providers)
  (token_symbol blockchain : string) (force_refresh : bool) (s : State)
  (d : gmap string value) :
  is_native (upper token_symbol) (lower blockchain) = false ->
  force_refresh = true
  \/ get_cached_contract (upper token_symbol) (lower blockchain) s
     = (s, Ok None) ->
  coingecko_outcome P (upper token_symbol) (lower blockchain) = Found d ->
  exists s' address,
    get_contract_address P token_symbol blockchain force_refresh s
    = (s', Ok (<["source" := VStr "api"]> d))
    /\ d !! "contract_address" = Some (VStr address)
    /\ d !! "contract" = None
    /\ contract_addresses (db s') = contract_addresses (db s)
    /\ acquired s' = acquired s ++ ["coingecko"]
    /\ call_log s' = call_log s ++ [("coingecko", true)].
Proof.
  intros Hnative Hmiss Hfound.
  destruct (coingecko_found_shape _ _ _ _ Hfound) as (Hnone & address & Haddr).
  assert (Hfb : fallback (attempts P (upper token_symbol) (lower blockchain))
                = (Some d, ["coingecko"], [("coingecko", true)])).
  { unfold attempts. rewrite Hfound. reflexivity. }
  destruct (resolve_by_api P token_symbol blockchain force_refresh s d
              Hnative Hmiss)
    as (s3 & s' & Hrun & Hacq & Hlog & _ & _ & _ & Hca & _ & Hacq' & _ & _
        & _ & Hlog' & Hsave).
  { rewrite Hfb. reflexivity. }
  rewrite Hfb in Hacq, Hlog. rewrite Hnone in Hsave. subst s'.
  exists s3, address. auto 10.
Qed.

(** CoinGecko knows USDT; the cache is empty before and after. *)
Lemma coingecko_record_is_not_cached_witness :
  exists s' r,
    get_contract_address Cases.coingecko_finds "USDT" "ethereum" false
      Scenario.fresh = (s', Ok r)
    /\ r !! "source" = Some (VStr "api")
    /\ r !! "contract_address"
       = Some (VStr "0xdac17f958d2ee523a2206206994597c13d831ec7")
    /\ contract_addresses (db s') = [].
Proof.
  destruct (coingecko_record_is_not_cached Cases.coingecko_finds "USDT"
              "ethereum" false Scenario.fresh
              (CoinGecko.to_dict Cases.coingecko_usdt))
    as (s' & address & Hrun & Haddr & _ & Hca & _).
  - reflexivity.
  - right. reflexivity.
  - reflexivity.
  - eexists s', _. split; [exact Hrun |].
    split; [reflexivity |]. split; [reflexivity | exact Hca].
Defined.

End ResolverPaths2.

Section ResolverPaths3.

Import ContractAddress ContractCache ContractResolver FallbackChain Invariants.

(** X8. A resolution through a provider is answered from the cache the
    next time. When the record returned by the fallback chain has a text
    under "contract" (as the records of 1inch and DexScreener have), the
    TTL is positive and no row with another address stands first for the
    symbol and chain, a second resolution returns source "cache" with the
    lower-cased address, without acquiring a rate limiter or logging a
    call. *)
Theorem second_resolution_from_cache (P : Providers)
  (token_symbol blockchain : string) (force_refresh : bool) (s : State)
  (d : gmap string value) (c : string) :
  is_native (upper token_symbol) (lower blockchain) = false ->
  force_refresh = true
  \/ get_cached_contract (upper token_symbol) (lower blockchain) s
     = (s, Ok None) ->
  (fallback (attempts P (upper token_symbol) (lower blockchain))).1.1
  = Some d ->
  d !! "contract" = Some (VStr c) ->
  (0 < cache_ttl s)%Z ->
  (forall r,
      find (by_symbol_chain (upper token_symbol) (lower blockchain))
           (contract_addresses (db s)) = Some r ->
      contract_address r = lower c) ->
  exists s1 s2 r2,
    get_contract_address P token_symbol blockchain force_refresh s
    = (s1, Ok (<["source" := VStr "api"]> d))
    /\ get_contract_address P token_symbol blockchain false s1 = (s2, Ok r2)
    /\ r2 !! "source" = Some (VStr "cache")
    /\ r2 !! "contract" = Some (VStr (lower c))
    /\ acquired s2 = acquired s1
    /\ db s2 = db s1.
Proof.
  intros Hnative Hmiss Hfound Hc Httl Hfirst.
  destruct (resolve_by_api P token_symbol blockchain force_refresh s d
              Hnative Hmiss Hfound)
    as (s3 & s1 & Hrun & _ & _ & _ & _ & Httl3 & Hca3 & _ & _ & _ & _ & _
        & _ & Hsave).
  rewrite Hc in Hsave. destruct Hsave as (r & Hsave).
  match type of Hsave with
  | save_contract ?D _ = _ =>
      destruct (save_then_lookup D (upper token_symbol) (lower blockchain) c
                  s3) as (s1' & row & Hsave' & Hlookup & _ & _ & Haddr)
  end; try reflexivity.
  { rewrite Httl3. exact Httl. }
  { rewrite Hca3. exact Hfirst. }
  rewrite Hsave in Hsave'. injection Hsave' as <- _.
  destruct (resolve_from_cache P token_symbol blockchain s1 row Hnative
              Hlookup) as (s2 & Hrun2 & Hdb2 & Hacq2 & _).
  eexists s1, s2, _. split; [exact Hrun |]. split; [exact Hrun2 |].
  split; [reflexivity |]. split; [rewrite <- Haddr; reflexivity |].
  auto.
Qed.

(** USDT through 1inch into an empty cache, then again. *)
Lemma second_resolution_from_cache_witness :
  exists s1 s2 r2,
    get_contract_address Scenario.coingecko_misses "usdt" "Ethereum" false
      Scenario.fresh
    = (s1, Ok (<["source" := VStr "api"]>
                 (oneinch_dict Scenario.usdt "USDT" "ethereum")))
    /\ get_contract_address Scenario.coingecko_misses "usdt" "Ethereum" false
         s1 = (s2, Ok r2)
    /\ r2 !! "source" = Some (VStr "cache")
    /\ r2 !! "contract"
       = Some (VStr "0xdac17f958d2ee523a2206206994597c13d831ec7")
    /\ acquired s2 = acquired s1
    /\ db s2 = db s1.
Proof.
  apply (second_resolution_from_cache Scenario.coingecko_misses "usdt"
           "Ethereum" false Scenario.fresh
           (oneinch_dict Scenario.usdt "USDT" "ethereum")
           "0xdac17f958d2ee523a2206206994597c13d831ec7").
  - reflexivity.
  - right. reflexivity.
  - reflexivity.
  - reflexivity.
  - simpl. lia.
  - simpl. discriminate.
Defined.

(** How one request moves the counters. *)
Lemma get_contract_address_counts (P : Providers)
  (token_symbol blockchain : string) (force_refresh : bool) (s : State) :
  exists s' r,
    get_contract_address P token_symbol blockchain force_refresh s = (s', r)
    /\ (metrics s' = incr_total_requests (metrics s)
        \/ metrics s' = incr_cache_hits (incr_total_requests (metrics s))
        \/ metrics s' = incr_cache_misses (incr_total_requests (metrics s))).
Proof.
  unfold get_contract_address.
  destruct (update_metrics_run incr_total_requests s)
    as (s1 & H1 & _ & _ & _ & _ & Hm1).
  rewrite (bind_ok _ _ _ _ _ H1). cbv zeta.
  destruct (is_native (upper token_symbol) (lower blockchain)).
  { eexists _, _. split; [reflexivity | auto]. }
  assert (Hc : exists cached,
             (if force_refresh then ret None
              else get_cached_contract (upper token_symbol) (lower blockchain))
               s1 = (s1, Ok cached)).
  { destruct force_refresh; [eexists; reflexivity |].
    rewrite get_cached_contract_run. eauto. }
  destruct Hc as (cached & Hc). rewrite (bind_ok _ _ _ _ _ Hc).
  destruct cached as [cached |].
  { destruct (update_metrics_run incr_cache_hits s1)
      as (s2 & H2 & _ & _ & _ & _ & Hm2).
    rewrite (bind_ok _ _ _ _ _ H2).
    eexists _, _. split; [reflexivity |]. right. left. congruence. }
  destruct (update_metrics_run incr_cache_misses s1)
    as (s2 & H2 & _ & _ & _ & _ & Hm2).
  rewrite (bind_ok _ _ _ _ _ H2).
  destruct (fetch_from_apis_run P (upper token_symbol) (lower blockchain) s2)
    as (s3 & H3 & _ & _ & _ & _ & Hm3 & _).
  rewrite (bind_ok _ _ _ _ _ H3).
  destruct (some_data _) as [contract_data |].
  - match goal with
    | |- context [bind (try_except (bind (getitem ?d "contract") ?k) ?h)] =>
        destruct (save_block_run d
                    (fun contract =>
                       <["symbol" := VStr (upper token_symbol)]>
                       (<["contract" := contract]>
                       (<["blockchain" := VStr (lower blockchain)]>
                       (<["decimals" := default (VInt 18) (d !! "decimals")]>
                       (<["name" := default (VStr (upper token_symbol))
                                      (d !! "name")]>
                       (<["verified" := default (VBool false)
                                          (d !! "verified")]> ∅)))))) s3)
          as (s4 & H4 & Hm4 & _)
    end.
    rewrite (bind_ok _ _ _ _ _ H4).
    eexists _, _. split; [reflexivity |]. right. right. congruence.
  - destruct (log_failed_lookup_frame (upper token_symbol) (lower blockchain)
                "All APIs failed" s3) as (s4 & H4 & Hm4 & _).
    rewrite (bind_ok _ _ _ _ _ H4).
    eexists _, _. split; [reflexivity |]. right. right.
    simpl. congruence.
Qed.

Lemma metrics_ok_step (m m' : Metrics) :
  metrics_ok m ->
  m' = incr_total_requests m
  \/ m' = incr_cache_hits (incr_total_requests m)
  \/ m' = incr_cache_misses (incr_total_requests m) ->
  metrics_ok m'
  /\ total_requests m' = (total_requests m + 1)%Z
  /\ (cache_hits m <= cache_hits m')%Z
  /\ (cache_misses m <= cache_misses m')%Z.
Proof.
  unfold metrics_ok. intros (Hh & Hm & Hsum) [-> | [-> | ->]]; simpl; lia.
Qed.

(** X9. The counters stay consistent. Every call of
    [get_contract_address], whatever its outcome, counts exactly one
    request and at most one hit or miss; hits and misses never decrease
    and together never exceed the requests. The same holds along
    [get_pair_contracts], which counts at most two requests. *)
Theorem resolver_counters_consistent (P : Providers) (s : State) :
  metrics_ok (metrics s) ->
  (forall token_symbol blockchain force_refresh,
      exists s' r,
        get_contract_address P token_symbol blockchain force_refresh s
        = (s', r)
        /\ metrics_ok (metrics s')
        /\ total_requests (metrics s') = (total_requests (metrics s) + 1)%Z
        /\ (cache_hits (metrics s) <= cache_hits (metrics s'))%Z
        /\ (cache_misses (metrics s) <= cache_misses (metrics s'))%Z)
  /\ (forall pair blockchain,
         exists s' r,
           get_pair_contracts P pair blockchain s = (s', r)
           /\ metrics_ok (metrics s')
           /\ (total_requests (metrics s) <= total_requests (metrics s')
               <= total_requests (metrics s) + 2)%Z).
Proof.
  intros Hok. split.
  - intros token_symbol blockchain force_refresh.
    destruct (get_contract_address_counts P token_symbol blockchain
                force_refresh s) as (s' & r & Hrun & Hm).
    exists s', r. split; [exact Hrun |].
    exact (metrics_ok_step _ _ Hok Hm).
  - intros pair blockchain. unfold get_pair_contracts.
    destruct (split "/" pair) as [| base [| quote [| extra rest]]];
      try (eexists _, _; split; [reflexivity |]; split; [exact Hok | lia]).
    destruct (get_contract_address_counts P (upper base) blockchain false s)
      as (s1 & r1 & Hrun1 & Hm1).
    destruct (metrics_ok_step _ _ Hok Hm1) as (Hok1 & Ht1 & _).
    destruct r1 as [base_token | e].
    + rewrite (bind_ok _ _ _ _ _ Hrun1).
      destruct (get_contract_address_counts P (upper quote) blockchain false
                  s1) as (s2 & r2 & Hrun2 & Hm2).
      destruct (metrics_ok_step _ _ Hok1 Hm2) as (Hok2 & Ht2 & _).
      destruct r2 as [quote_token | e].
      * rewrite (bind_ok _ _ _ _ _ Hrun2).
        eexists _, _. split; [reflexivity |]. split; [exact Hok2 | lia].
      * rewrite (bind_raise _ _ _ _ _ Hrun2).
        eexists _, _. split; [reflexivity |]. split; [exact Hok2 | lia].
    + rewrite (bind_raise _ _ _ _ _ Hrun1).
      eexists _, _. split; [reflexivity |]. split; [exact Hok1 | lia].
Qed.

(** A fresh resolver asked for USDT while every provider raises. *)
Lemma resolver_counters_consistent_witness :
  exists s' r,
    get_contract_address Scenario.all_raise "usdt" "ethereum" false
      Scenario.fresh = (s', r)
    /\ metrics_ok (metrics s')
    /\ total_requests (metrics s') = 1%Z.
Proof.
  destruct (proj1 (resolver_counters_consistent Scenario.all_raise
                     Scenario.fresh ltac:(unfold metrics_ok; simpl; lia))
              "usdt" "ethereum" false)
    as (s' & r & Hrun & Hok & Ht & _).
  exists s', r. auto.
Defined.

End ResolverPaths3.

Section ResolverPaths4.

Import ContractAddress ContractCache ContractResolver FallbackChain Invariants.

(** X10. A pair whose quote is the native token of the chain. Once the
    base has been resolved, the quote is answered without any lookup: its
    record has no contract and source "native", and the pair is returned
    with the state in which the base resolution ended, one more request
    counted. *)
Theorem pair_with_native_quote (P : Providers) (pair blockchain : string)
  (s s1 : State) (base quote : string) (base_token : gmap string value) :
  split "/" pair = [base; quote] ->
  is_native (upper quote) (lower blockchain) = true ->
  get_contract_address P (upper base) blockchain false s
  = (s1, Ok base_token) ->
  exists s2 r,
    get_pair_contracts P pair blockchain s = (s2, Ok r)
    /\ ContractResolver.pair r = pair
    /\ ContractResolver.base_token r = base_token
    /\ quote_token r !! "contract" = Some VNone
    /\ quote_token r !! "source" = Some (VStr "native")
    /\ quote_token r !! "symbol" = Some (VStr (upper quote))
    /\ db s2 = db s1 /\ acquired s2 = acquired s1.
Proof.
  intros Hsplit Hnative Hbase.
  unfold get_pair_contracts. rewrite Hsplit.
  rewrite (bind_ok _ _ _ _ _ Hbase).
  assert (Hq : is_native (upper (upper quote)) (lower blockchain) = true)
    by (rewrite upper_idem; exact Hnative).
  assert (Hrun : exists s2 r,
             get_contract_address P (upper quote) blockchain false s1
             = (s2, Ok r)
             /\ r !! "contract" = Some VNone
             /\ r !! "source" = Some (VStr "native")
             /\ r !! "symbol" = Some (VStr (upper (upper quote)))
             /\ db s2 = db s1 /\ acquired s2 = acquired s1).
  { unfold get_contract_address.
    destruct (update_metrics_run incr_total_requests s1)
      as (s2 & H2 & Hdb2 & _ & _ & Hacq2 & _).
    rewrite (bind_ok _ _ _ _ _ H2). cbv zeta. rewrite Hq.
    eexists _, _. split; [reflexivity |].
    repeat (split; [reflexivity |]). auto. }
  destruct Hrun as (s2 & r & Hrun & Hc & Hsrc & Hsym & Hdb & Hacq).
  rewrite (bind_ok _ _ _ _ _ Hrun).
  eexists _, _. split; [reflexivity |]. simpl.
  rewrite upper_idem in Hsym. auto 10.
Qed.

(** "USDT/ETH" on ethereum, USDT known to 1inch. *)
Lemma pair_with_native_quote_witness :
  exists s2 r,
    get_pair_contracts Scenario.coingecko_misses "USDT/ETH" "ethereum"
      Scenario.fresh = (s2, Ok r)
    /\ quote_token r !! "contract" = Some VNone
    /\ quote_token r !! "source" = Some (VStr "native")
    /\ ContractResolver.base_token r !! "source" = Some (VStr "api").
Proof.
  destruct (resolve_by_api Scenario.coingecko_misses "USDT" "ethereum" false
              Scenario.fresh (oneinch_dict Scenario.usdt "USDT" "ethereum"))
    as (s3 & s1 & Hbase & _); [reflexivity | right; reflexivity | reflexivity |].
  destruct (pair_with_native_quote Scenario.coingecko_misses "USDT/ETH"
              "ethereum" Scenario.fresh s1 "USDT" "ETH" _
              eq_refl eq_refl Hbase)
    as (s2 & r & Hrun & _ & Hb & Hc & Hsrc & _).
  exists s2, r. split; [exact Hrun |]. split; [exact Hc |].
  split; [exact Hsrc |]. rewrite Hb. reflexivity.
Defined.

Lemma fallback_shape (l : list (string * outcome)) :
  (fallback l).1.2 `prefix_of` map fst l
  /\ length (fallback l).2 <= length (fallback l).1.2
  /\ ((fallback l).1.1 = None -> (fallback l).1.2 = map fst l)
  /\ (l <> [] -> (fallback l).1.2 <> []).
Proof.
  induction l as [| [provider o] rest IH].
  - simpl. repeat split; auto.
  - destruct IH as (Hp & Hl & Hn & _). simpl.
    destruct o as [e | | d]; simpl.
    + destruct (fallback rest) as [[r t] g]. simpl in *.
      repeat split; try discriminate.
      * apply prefix_cons. exact Hp.
      * lia.
      * intros H. rewrite (Hn H). reflexivity.
    + destruct (fallback rest) as [[r t] g]. simpl in *.
      repeat split; try discriminate.
      * apply prefix_cons. exact Hp.
      * lia.
      * intros H. rewrite (Hn H). reflexivity.
    + repeat split; try discriminate.
      * apply prefix_cons. apply prefix_nil.
      * simpl. lia.
Qed.

(** X11. What [_fetch_from_apis] never does. It never raises and never
    writes to the cached contracts, the failed lookups or the counters.
    It tries the providers in the order CoinGecko, 1inch, DexScreener
    without skipping one, stops at the first record, and logs at most one
    call per provider tried. When it returns nothing it has tried every
    provider, DexScreener only if it is available. *)
Theorem fetch_tries_in_priority_order (P : Providers)
  (token_symbol blockchain : string) (s : State) :
  exists s' r tried,
    _fetch_from_apis P token_symbol blockchain s = (s', Ok r)
    /\ acquired s' = acquired s ++ tried
    /\ tried `prefix_of` ["coingecko"; "1inch"; "dexscreener"]
    /\ tried <> []
    /\ length (call_log s') <= length (call_log s) + length tried
    /\ call_log s `prefix_of` call_log s'
    /\ same_tables s s'
    /\ (r = None ->
        tried = ["coingecko"; "1inch"]
                ++ (if DEXSCREENER_AVAILABLE P then ["dexscreener"] else []))
    /\ (forall d, r = Some d -> exists B, last tried = Some B
                                          /\ d !! "source" = Some (VStr B)).
Proof.
  destruct (fetch_from_apis_run P token_symbol blockchain s)
    as (s' & Hrun & Hacq & Hlog & Hsame).
  destruct (fallback_shape (attempts P token_symbol blockchain))
    as (Hp & Hl & Hn & Hne).
  assert (Hnames : map fst (attempts P token_symbol blockchain)
                   = ["coingecko"; "1inch"]
                     ++ (if DEXSCREENER_AVAILABLE P then ["dexscreener"]
                         else [])).
  { unfold attempts. destruct (DEXSCREENER_AVAILABLE P); reflexivity. }
  eexists s', _, _. split; [exact Hrun |]. split; [exact Hacq |].
  split.
  { etransitivity; [exact Hp |]. rewrite Hnames.
    destruct (DEXSCREENER_AVAILABLE P); simpl.
    - reflexivity.
    - exists ["dexscreener"]. reflexivity. }
  split.
  { apply Hne. unfold attempts. discriminate. }
  split; [rewrite Hlog, length_app; lia |].
  split; [rewrite Hlog; apply prefix_app_r; reflexivity |].
  split; [exact Hsame |].
  split; [intros H; rewrite (Hn H); exact Hnames |].
  intros d Hd.
  revert Hd. unfold attempts.
  destruct (coingecko_outcome P token_symbol blockchain) as [e1 | | d1] eqn:H1;
    destruct (oneinch_outcome P token_symbol blockchain) as [e2 | | d2] eqn:H2;
    destruct (DEXSCREENER_AVAILABLE P) eqn:Hav;
    try destruct (dexscreener_outcome P token_symbol blockchain)
      as [e3 | | d3] eqn:H3;
    simpl; intros Hd; try discriminate; injection Hd as <-;
    eexists; (split; [reflexivity |]);
    apply (attempts_source P token_symbol blockchain);
    unfold attempts; rewrite ?H1, ?H2, ?Hav, ?H3; simpl; auto 10.
Qed.

End ResolverPaths4.

(** ** Sorting by a key, largest first *)

Section SortFacts.

Import PySort.
#[local] Open Scope Q_scope.

Context {A : Type} (key : A -> Q).

Lemma insert_desc_perm (x : A) (l : list A) :
  Permutation (insert_desc key x l) (x :: l).
Proof.
  induction l as [| y r IH]; [reflexivity |].
  simpl. destruct (TokenRegistry.Qlt_bool (key x) (key y)); [| reflexivity].
  rewrite IH. apply perm_swap.
Qed.

Lemma sort_desc_perm (l : list A) : Permutation (sort_desc key l) l.
Proof.
  induction l as [| x l IH]; [reflexivity |].
  simpl. rewrite insert_desc_perm, IH. reflexivity.
Qed.

Lemma insert_desc_sorted (x : A) (l : list A) :
  StronglySorted (fun a b => key b <= key a) l ->
  StronglySorted (fun a b => key b <= key a) (insert_desc key x l).
Proof.
  induction 1 as [| y r Hr IH Hy]; simpl.
  - repeat constructor.
  - destruct (TokenRegistry.Qlt_bool (key x) (key y)) eqn:E.
    + apply Qlt_bool_true_iff in E. constructor; [exact IH |].
      rewrite (insert_desc_perm x r). constructor; [lra | exact Hy].
    + apply Qlt_bool_false_iff in E. constructor.
      * constructor; assumption.
      * constructor; [exact E |].
        eapply Forall_impl; [exact Hy |]. simpl. intros b Hb. lra.
Qed.

Lemma sort_desc_sorted (l : list A) :
  StronglySorted (fun a b => key b <= key a) (sort_desc key l).
Proof.
  induction l as [| x l IH]; [constructor |].
  simpl. apply insert_desc_sorted. exact IH.
Qed.

(** The head of the sorted list is the first element of the input whose
    key is the largest. *)
Lemma sort_desc_head (l : list A) (m : A) (rest : list A) :
  sort_desc key l = m :: rest ->
  exists l1 l2,
    l = l1 ++ m :: l2
    /\ Forall (fun y => key y < key m) l1
    /\ Forall (fun y => key y <= key m) l2.
Proof.
  revert m rest. induction l as [| x l IH]; [discriminate |].
  intros m rest. simpl.
  destruct (sort_desc key l) as [| m' rest'] eqn:Hs.
  - simpl. intros H. injection H as <- <-.
    assert (Hl : l = []).
    { apply Permutation_nil. rewrite <- Hs. apply sort_desc_perm. }
    subst l. exists [], []. simpl. auto.
  - destruct (IH m' rest' eq_refl) as (l1 & l2 & -> & H1 & H2).
    simpl. destruct (TokenRegistry.Qlt_bool (key x) (key m')) eqn:E.
    + apply Qlt_bool_true_iff in E. intros H. injection H as <- <-.
      exists (x :: l1), l2. simpl. auto.
    + apply Qlt_bool_false_iff in E. intros H. injection H as <- <-.
      exists [], (l1 ++ m' :: l2). simpl. split; [reflexivity |].
      split; [constructor |].
      apply Forall_app. split.
      * eapply Forall_impl; [exact H1 |]. simpl. intros y Hy. lra.
      * constructor; [exact E |].
        eapply Forall_impl; [exact H2 |]. simpl. intros y Hy. lra.
Qed.

Lemma sort_desc_nil (l : list A) : sort_desc key l = [] -> l = [].
Proof.
  intros H. apply Permutation_nil. rewrite <- H. apply sort_desc_perm.
Qed.

End SortFacts.

(** ** The token registry *)

Section RegistryStateFacts.

Import Registry.
#[local] Open Scope Q_scope.

Lemma make_key_case (c a c' a' : string) :
  lower c' = lower c -> lower a' = lower a -> make_key c' a' = make_key c a.
Proof. unfold make_key. intros -> ->. reflexivity. Qed.

Lemma add_token_cases (net : DexClient.Network) (c a : string) (verify : bool)
  (reg reg' : TokenRegistry) (r : res VerifiedToken) :
  add_token net c a verify reg = (reg', r) ->
  added net c a verify reg reg' r.
Proof.
  unfold add_token.
  destruct (tokens_by_key reg !! make_key c a) as [t |] eqn:Hk.
  { intros H. injection H as <- <-. apply added_known; auto. }
  destruct (decide (make_key c a ∈ scam_tokens reg)) as [Hin | Hout].
  { intros H. injection H as <- <-. apply added_refused; auto. }
  destruct (DexClient.get_token_price net c a (dex_client reg))
    as [client [[td |] | e]] eqn:Hp.
  - assert (Hsnd : snd (DexClient.get_token_price net c a (dex_client reg))
                   = DexClient.Returned (Some td)) by (rewrite Hp; reflexivity).
    destruct (whitelist !! make_key c a) as [w |] eqn:Hw.
    + destruct verify; simpl; intros H; injection H as Hreg Hr;
        subst reg' r; apply (added_new _ _ _ _ _ _ _ td); simpl; auto;
        intros Hw'; rewrite Hw in Hw'; discriminate.
    + destruct verify; simpl.
      * destruct (TokenRegistry.is_scam (TokenRegistry._verify_token c a td))
          eqn:Hs; intros H; injection H as Hreg Hr; subst reg' r.
        -- apply added_scam; simpl; auto.
        -- apply (added_new _ _ _ _ _ _ _ td); simpl; auto.
           intros [w Hw']. congruence.
      * intros H; injection H as Hreg Hr; subst reg' r.
        apply (added_new _ _ _ _ _ _ _ td); simpl; auto.
        intros [w Hw']. congruence.
  - intros H. injection H as <- <-. apply added_failed; simpl; auto; discriminate.
  - intros H. injection H as <- <-. apply added_failed; simpl; auto; discriminate.
Qed.

End RegistryStateFacts.

Section RegistryFacts.

Import Registry.
#[local] Open Scope Q_scope.

Lemma make_key_lower (c a : string) : make_key c (lower a) = make_key c a.
Proof. unfold make_key. rewrite lower_idem. reflexivity. Qed.

Lemma symbol_key_case (c sym sym' : string) :
  upper sym' = upper sym -> symbol_key c sym' = symbol_key c sym.
Proof. unfold symbol_key. intros ->. reflexivity. Qed.

Lemma registry_init_ok (client : DexClient.Client) : registry_ok (init client).
Proof.
  split; simpl.
  - intros key token H. rewrite lookup_empty in H. discriminate.
  - intros key H. apply lookup_empty.
Qed.

(** [add_token] keeps the registry consistent, whatever it returns. *)
Lemma add_token_keeps_ok (net : DexClient.Network) (c a : string)
  (verify : bool) (reg : TokenRegistry) :
  registry_ok reg -> registry_ok (add_token net c a verify reg).1.
Proof.
  intros [Htok Hscam].
  destruct (add_token net c a verify reg) as [reg' r] eqn:Hrun. simpl.
  apply add_token_cases in Hrun.
  destruct Hrun
    as [t Hk -> | msg Hk Hin -> | e Hk Hout Ht Hs Ha _
        | t Hk Hout Hw Hv Hsc Hu Ht Hs Ha
        | t td Hk Hout Hp Hsc Hwl Hver Hu Hc Had Hsym Hliq Ht Hs Ha].
  - split; auto.
  - split; auto.
  - split.
    + intros key tok H. rewrite Ht in H. rewrite Ha. auto.
    + intros key H. rewrite Hs in H. rewrite Ht. auto.
  - split.
    + intros key tok H. rewrite Ht in H. rewrite Ha. auto.
    + intros key H. rewrite Hs in H. rewrite Ht.
      apply elem_of_union in H as [H | H]; [| auto].
      apply elem_of_singleton in H. subst key. exact Hk.
  - split.
    + intros key tok H. rewrite Ht in H. rewrite Ha.
      destruct (decide (key = make_key c a)) as [-> | Hne].
      * rewrite lookup_insert_eq in H. injection H as <-.
        split; [exact Hu |].
        split; [rewrite Hc, Had; apply make_key_lower |].
        split; [exact Hsc |].
        split; [rewrite Had; symmetry; apply lower_idem |].
        split; [exact Hwl |].
        rewrite Hc, lookup_insert_eq. eexists. split; [reflexivity |].
        rewrite Had. apply elem_of_app. right.
        apply list_elem_of_singleton. reflexivity.
      * rewrite lookup_insert_ne in H by congruence.
        destruct (Htok _ _ H) as (H1 & H2 & H3 & H4 & H5 & addrs & H6 & H7).
        repeat (split; [assumption |]).
        destruct (decide (symbol_key c (symbol t)
                          = symbol_key (chain_id tok) (symbol tok)))
          as [He | Hne2].
        -- rewrite <- He, lookup_insert_eq. eexists. split; [reflexivity |].
           rewrite He, H6. simpl. apply elem_of_app. left. exact H7.
        -- rewrite lookup_insert_ne by exact Hne2. eauto.
    + intros key H. rewrite Hs in H. rewrite Ht.
      rewrite lookup_insert_ne; [auto |].
      intros <-. contradiction.
Qed.

Lemma add_each_keeps_ok
  (calls : list (DexClient.Network * string * string * bool))
  (reg : TokenRegistry) :
  registry_ok reg -> registry_ok (add_each calls reg).
Proof.
  revert reg. induction calls as [| [[[net c] a] v] calls IH]; intros reg Hok.
  - exact Hok.
  - apply IH. apply add_token_keeps_ok. exact Hok.
Qed.

(** After [add_token] has returned a token that is not a scam, the token
    is registered under the key of the call. *)
Lemma add_token_registers (net : DexClient.Network) (c a : string)
  (verify : bool) (reg reg' : TokenRegistry) (t : VerifiedToken) :
  add_token net c a verify reg = (reg', Returned t) ->
  is_scam t = false ->
  tokens_by_key reg' !! make_key c a = Some t.
Proof.
  intros Hrun Hsc. apply add_token_cases in Hrun.
  inversion Hrun; subst.
  - assumption.
  - congruence.
  - match goal with H : tokens_by_key reg' = _ |- _ => rewrite H end.
    apply lookup_insert_eq.
Qed.

Lemma add_token_known (net : DexClient.Network) (c a : string)
  (verify : bool) (reg : TokenRegistry) (t : VerifiedToken) :
  tokens_by_key reg !! make_key c a = Some t ->
  add_token net c a verify reg = (reg, Returned t).
Proof. intros H. unfold add_token. rewrite H. reflexivity. Qed.

Lemma add_token_refused (net : DexClient.Network) (c a : string)
  (verify : bool) (reg : TokenRegistry) :
  tokens_by_key reg !! make_key c a = None ->
  make_key c a ∈ scam_tokens reg ->
  exists msg, add_token net c a verify reg = (reg, Raised (ScamTokenError msg)).
Proof.
  intros Hk Hin. unfold add_token. rewrite Hk.
  destruct (decide (make_key c a ∈ scam_tokens reg)); [| contradiction].
  eexists. reflexivity.
Qed.

End RegistryFacts.

Section RegistryProperties.

Import Registry.
#[local] Open Scope Q_scope.

Lemma append_length (s t : string) :
  String.length (s +:+ t) = (String.length s + String.length t)%nat.
Proof. induction s as [| a s IH]; simpl; [reflexivity | rewrite IH; reflexivity]. Qed.

Lemma append_cancel_r (s1 s2 t : string) : s1 +:+ t = s2 +:+ t -> s1 = s2.
Proof.
  revert s2. induction s1 as [| a s1 IH]; intros [| b s2] H.
  - reflexivity.
  - apply (f_equal String.length) in H.
    rewrite !append_length in H. simpl in H. lia.
  - apply (f_equal String.length) in H.
    rewrite !append_length in H. simpl in H. lia.
  - change (String a (s1 +:+ t) = String b (s2 +:+ t)) in H.
    injection H as -> H. f_equal. apply IH. exact H.
Qed.

Lemma registered_is_no_scam (reg : TokenRegistry) (key : string)
  (t : VerifiedToken) :
  registry_ok reg -> tokens_by_key reg !! key = Some t ->
  key ∉ scam_tokens reg.
Proof.
  intros [_ Hscam] Hk Hin. rewrite (Hscam _ Hin) in Hk. discriminate.
Qed.

(** X12. Every registry that can be reached from an empty one by calls of
    [add_token], whatever the networks answer and whatever the calls
    return or raise, is consistent: a token found by [get_token] is filed
    under the key of its chain and address, is not flagged, and is not in
    the scam set. *)
Theorem reachable_registry_is_consistent (client : DexClient.Client)
  (calls : list (DexClient.Network * string * string * bool)) :
  registry_ok (add_each calls (init client))
  /\ forall c a t,
       get_token c a (add_each calls (init client)) = Some t ->
       unique_key t = make_key c a
       /\ make_key (chain_id t) (address t) = make_key c a
       /\ is_scam t = false
       /\ is_scam_token c a (add_each calls (init client)) = false.
Proof.
  assert (Hok : registry_ok (add_each calls (init client))).
  { apply add_each_keeps_ok, registry_init_ok. }
  split; [exact Hok |].
  intros c a t Hget. unfold get_token in Hget.
  destruct (proj1 Hok _ _ Hget) as (H1 & H2 & H3 & _).
  repeat (split; [assumption |]).
  unfold is_scam_token. apply bool_decide_eq_false.
  eapply registered_is_no_scam; eauto.
Qed.

(** X13. [add_token] is idempotent on a registered token. Once it has
    returned a token that is not flagged, every later call for the same
    chain and address, in whatever spelling, with whatever network and
    [verify] flag, returns that very token and leaves the registry and
    the client untouched; [get_token] finds it. *)
Theorem add_token_is_idempotent (net net' : DexClient.Network)
  (c a c' a' : string) (verify verify' : bool) (reg reg' : TokenRegistry)
  (t : VerifiedToken) :
  registry_ok reg ->
  add_token net c a verify reg = (reg', Returned t) ->
  is_scam t = false ->
  lower c' = lower c -> lower a' = lower a ->
  add_token net' c' a' verify' reg' = (reg', Returned t)
  /\ get_token c' a' reg' = Some t
  /\ is_scam_token c' a' reg' = false.
Proof.
  intros Hok Hrun Hsc Hc Ha.
  assert (Hok' : registry_ok reg').
  { change reg' with (reg', Returned t).1. rewrite <- Hrun.
    apply add_token_keeps_ok, Hok. }
  pose proof (add_token_registers _ _ _ _ _ _ _ Hrun Hsc) as Hk.
  rewrite <- (make_key_case c a c' a' Hc Ha) in Hk.
  split; [apply add_token_known; exact Hk |].
  split; [exact Hk |].
  unfold is_scam_token. apply bool_decide_eq_false.
  eapply registered_is_no_scam; eauto.
Qed.

Lemma add_token_is_idempotent_witness :
  match (add_token Cases.net_deep "Ethereum" Cases.deep_address true
           Cases.registry0) with
  | (reg', Returned t) =>
      add_token Cases.net_down "ETHEREUM" (lower Cases.deep_address) false reg'
      = (reg', Returned t)
      /\ get_token "ETHEREUM" (lower Cases.deep_address) reg' = Some t
      /\ is_scam_token "ETHEREUM" (lower Cases.deep_address) reg' = false
  | (_, Raised _) => False
  end.
Proof.
  pose proof (eq_refl : match (add_token Cases.net_deep "Ethereum"
                                 Cases.deep_address true Cases.registry0).2
                        with Returned t => is_scam t | Raised _ => true end
                        = false) as Hs.
  destruct (add_token Cases.net_deep "Ethereum" Cases.deep_address true
              Cases.registry0) as [reg' [t | e]] eqn:Hrun;
    [| discriminate Hs].
  apply (add_token_is_idempotent Cases.net_deep Cases.net_down
           "Ethereum" Cases.deep_address "ETHEREUM" (lower Cases.deep_address)
           true false Cases.registry0 reg' t);
    [apply registry_init_ok | exact Hrun | exact Hs
     | reflexivity | reflexivity].
Defined.

(** X14. A token that fails verification is flagged once and refused
    ever after. When [add_token] returns a token marked as a scam (it
    returns it, it does not raise), verification was requested and the
    key is not whitelisted; the token is not registered and not indexed,
    its key is in the scam set, and every later call for the same chain
    and address, in whatever spelling and even with [verify] off, raises
    [ScamTokenError] without asking the client and without changing the
    registry. *)
Theorem scam_token_is_refused_afterwards (net net' : DexClient.Network)
  (c a c' a' : string) (verify verify' : bool) (reg reg' : TokenRegistry)
  (t : VerifiedToken) :
  registry_ok reg ->
  add_token net c a verify reg = (reg', Returned t) ->
  is_scam t = true ->
  lower c' = lower c -> lower a' = lower a ->
  verify = true
  /\ whitelist !! make_key c a = None
  /\ tokens_by_key reg' = tokens_by_key reg
  /\ addresses_by_symbol reg' = addresses_by_symbol reg
  /\ get_token c' a' reg' = None
  /\ is_scam_token c' a' reg' = true
  /\ exists msg,
       add_token net' c' a' verify' reg'
       = (reg', Raised (ScamTokenError msg)).
Proof.
  intros Hok Hrun Hsc Hc Ha.
  unfold get_token, is_scam_token.
  pose proof (make_key_case c a c' a' Hc Ha) as Hkey.
  apply add_token_cases in Hrun. inversion Hrun; subst.
  - destruct Hok as [Htok _].
    match goal with H : tokens_by_key _ !! _ = Some t |- _ =>
      destruct (Htok _ _ H) as (_ & _ & Hno & _) end.
    congruence.
  - match goal with
    | Ht : tokens_by_key reg' = _, Hs : scam_tokens reg' = _,
      Hk : tokens_by_key reg !! _ = None |- _ =>
        assert (Hnone : tokens_by_key reg' !! make_key c' a' = None)
          by (rewrite Ht, Hkey; exact Hk);
        assert (Hin : make_key c' a' ∈ scam_tokens reg')
          by (rewrite Hs, Hkey; apply elem_of_union; left;
              apply elem_of_singleton; reflexivity)
    end.
    split; [reflexivity |].
    do 3 (split; [assumption |]).
    split; [exact Hnone |].
    split; [apply bool_decide_eq_true; exact Hin |].
    apply add_token_refused; assumption.
  - congruence.
Qed.

Lemma scam_token_is_refused_afterwards_witness :
  match (add_token (Cases.net_thin Cases.thin_address) "ethereum"
           Cases.thin_address true Cases.registry0) with
  | (reg', Returned t) =>
      is_scam t = true
      /\ get_token "Ethereum" (lower Cases.thin_address) reg' = None
      /\ is_scam_token "Ethereum" (lower Cases.thin_address) reg' = true
      /\ exists msg,
           add_token Cases.net_deep "Ethereum" (lower Cases.thin_address)
             false reg'
           = (reg', Raised (ScamTokenError msg))
  | (_, Raised _) => False
  end.
Proof.
  pose proof (eq_refl : match (add_token (Cases.net_thin Cases.thin_address)
                                 "ethereum" Cases.thin_address true
                                 Cases.registry0).2
                        with Returned t => is_scam t | Raised _ => false end
                        = true) as Hs.
  destruct (add_token (Cases.net_thin Cases.thin_address) "ethereum"
              Cases.thin_address true Cases.registry0)
    as [reg' [t | e]] eqn:Hrun; [| discriminate Hs].
  split; [exact Hs |].
  apply (scam_token_is_refused_afterwards
           (Cases.net_thin Cases.thin_address) Cases.net_deep
           "ethereum" Cases.thin_address "Ethereum" (lower Cases.thin_address)
           true false Cases.registry0 reg' t);
    [apply registry_init_ok | exact Hrun | exact Hs
     | reflexivity | reflexivity].
Defined.

(** X15. The whitelist overrides verification. A token whose key is
    whitelisted comes back verified and not flagged whatever the market
    data and the [verify] flag, is registered, and is never put in the
    scam set. *)
Theorem whitelisted_token_is_trusted (net : DexClient.Network)
  (c a : string) (verify : bool) (reg reg' : TokenRegistry)
  (t : VerifiedToken) :
  registry_ok reg ->
  is_Some (whitelist !! make_key c a) ->
  add_token net c a verify reg = (reg', Returned t) ->
  is_verified t = true
  /\ is_scam t = false
  /\ get_token c a reg' = Some t
  /\ is_scam_token c a reg' = false
  /\ scam_tokens reg' = scam_tokens reg.
Proof.
  intros Hok Hw Hrun.
  assert (Hok' : registry_ok reg').
  { change reg' with (reg', Returned t).1. rewrite <- Hrun.
    apply add_token_keeps_ok, Hok. }
  assert (Hfacts : is_verified t = true /\ is_scam t = false
                   /\ scam_tokens reg' = scam_tokens reg).
  { pose proof (add_token_cases _ _ _ _ _ _ _ Hrun) as Hc.
    inversion Hc; subst.
    - destruct Hok as [Htok _].
      match goal with H : tokens_by_key _ !! _ = Some t |- _ =>
        destruct (Htok _ _ H) as (_ & _ & Hno & _ & Hv & _) end.
      auto.
    - destruct Hw as [w Hw]. congruence.
    - auto. }
  destruct Hfacts as (Hv & Hsc & Hs).
  pose proof (add_token_registers _ _ _ _ _ _ _ Hrun Hsc) as Hk.
  repeat (split; [assumption |]).
  split; [| exact Hs].
  unfold is_scam_token. apply bool_decide_eq_false.
  eapply registered_is_no_scam; eauto.
Qed.

Lemma whitelisted_token_is_trusted_witness :
  match (add_token (Cases.net_thin Cases.usdt_address) "ethereum"
           Cases.usdt_address true Cases.registry0) with
  | (reg', Returned t) =>
      is_verified t = true
      /\ is_scam t = false
      /\ get_token "ethereum" Cases.usdt_address reg' = Some t
      /\ is_scam_token "ethereum" Cases.usdt_address reg' = false
      /\ scam_tokens reg' = scam_tokens Cases.registry0
  | (_, Raised _) => False
  end.
Proof.
  pose proof (eq_refl : match (add_token (Cases.net_thin Cases.usdt_address)
                                 "ethereum" Cases.usdt_address true
                                 Cases.registry0).2
                        with Returned t => true | Raised _ => false end
                        = true) as Hs.
  destruct (add_token (Cases.net_thin Cases.usdt_address) "ethereum"
              Cases.usdt_address true Cases.registry0)
    as [reg' [t | e]] eqn:Hrun; [| discriminate Hs].
  apply (whitelisted_token_is_trusted (Cases.net_thin Cases.usdt_address)
           "ethereum" Cases.usdt_address true Cases.registry0 reg' t);
    [apply registry_init_ok | exists "USDT"; reflexivity | exact Hrun].
Defined.

(** X16. [resolve_symbol] returns the most liquid of the registered
    tokens listed under the symbol of the chain, and of several with the
    largest liquidity the one listed first; it returns [None] exactly
    when no listed address is registered. The symbol is compared without
    regard to case. *)
Theorem resolve_symbol_most_liquid (c sym : string) (reg : TokenRegistry) :
  match resolve_symbol c sym reg with
  | Some best =>
      exists before after,
        candidates c sym reg = before ++ best :: after
        /\ Forall (fun t => liquidity_usd t < liquidity_usd best) before
        /\ Forall (fun t => liquidity_usd t <= liquidity_usd best) after
  | None => candidates c sym reg = []
  end
  /\ (forall t, t ∈ candidates c sym reg ->
        exists addr,
          addr ∈ default [] (addresses_by_symbol reg !! symbol_key c sym)
          /\ get_token c addr reg = Some t)
  /\ (forall sym', upper sym' = upper sym ->
        resolve_symbol c sym' reg = resolve_symbol c sym reg).
Proof.
  split; [| split].
  - unfold resolve_symbol.
    destruct (PySort.sort_desc liquidity_usd (candidates c sym reg))
      as [| best rest] eqn:Hs; simpl.
    + apply (sort_desc_nil liquidity_usd). exact Hs.
    + apply (sort_desc_head liquidity_usd _ _ _ Hs).
  - intros t Ht. unfold candidates in Ht.
    apply list_elem_of_omap in Ht. exact Ht.
  - intros sym' Hsym. unfold resolve_symbol, candidates.
    rewrite (symbol_key_case c sym sym' Hsym). reflexivity.
Qed.

(** X17. A token that [add_token] returned unflagged can be resolved by
    its symbol, in any spelling of the symbol, on the chain as it is
    recorded in the token: [resolve_symbol] returns a registered token
    that is at least as liquid. *)
Theorem added_token_resolves (net : DexClient.Network) (c a sym : string)
  (verify : bool) (reg reg' : TokenRegistry) (t : VerifiedToken) :
  registry_ok reg ->
  add_token net c a verify reg = (reg', Returned t) ->
  is_scam t = false ->
  upper sym = upper (symbol t) ->
  exists best,
    resolve_symbol (chain_id t) sym reg' = Some best
    /\ liquidity_usd t <= liquidity_usd best
    /\ best ∈ candidates (chain_id t) sym reg'
    /\ t ∈ candidates (chain_id t) sym reg'.
Proof.
  intros Hok Hrun Hsc Hsym.
  assert (Hok' : registry_ok reg').
  { change reg' with (reg', Returned t).1. rewrite <- Hrun.
    apply add_token_keeps_ok, Hok. }
  pose proof (add_token_registers _ _ _ _ _ _ _ Hrun Hsc) as Hk.
  destruct (proj1 Hok' _ _ Hk) as (_ & Hkey & _ & _ & _ & addrs & Hidx & Hin).
  assert (Hcand : t ∈ candidates (chain_id t) sym reg').
  { unfold candidates. rewrite (symbol_key_case _ _ _ Hsym), Hidx. simpl.
    apply list_elem_of_omap. exists (address t).
    split; [exact Hin |]. rewrite Hkey. exact Hk. }
  unfold resolve_symbol.
  destruct (PySort.sort_desc liquidity_usd (candidates (chain_id t) sym reg'))
    as [| best rest] eqn:Hs.
  - apply (sort_desc_nil liquidity_usd) in Hs. rewrite Hs in Hcand.
    inversion Hcand.
  - exists best. simpl. split; [reflexivity |].
    destruct (sort_desc_head liquidity_usd _ _ _ Hs)
      as (l1 & l2 & Heq & H1 & H2).
    assert (Hbest : best ∈ candidates (chain_id t) sym reg').
    { rewrite Heq. apply elem_of_app. right. apply list_elem_of_here. }
    split; [| split; assumption].
    rewrite Heq in Hcand.
    apply elem_of_app in Hcand as [Hl | Hr].
    + apply Qlt_le_weak. rewrite Forall_forall in H1. apply H1. exact Hl.
    + apply elem_of_cons in Hr as [-> | Hr]; [apply Qle_refl |].
      rewrite Forall_forall in H2. apply H2. exact Hr.
Qed.

Lemma added_token_resolves_witness :
  match (add_token Cases.net_deep "ethereum" Cases.deep_address true
           Cases.registry0) with
  | (reg', Returned t) =>
      exists best,
        resolve_symbol (chain_id t) "good" reg' = Some best
        /\ liquidity_usd t <= liquidity_usd best
        /\ best ∈ candidates (chain_id t) "good" reg'
        /\ t ∈ candidates (chain_id t) "good" reg'
  | (_, Raised _) => False
  end.
Proof.
  pose proof (eq_refl : match (add_token Cases.net_deep "ethereum"
                                 Cases.deep_address true Cases.registry0).2
                        with
                        | Returned t =>
                            negb (is_scam t)
                            && String.eqb (upper (symbol t)) "GOOD"
                        | Raised _ => false
                        end = true) as Hs.
  destruct (add_token Cases.net_deep "ethereum" Cases.deep_address true
              Cases.registry0) as [reg' [t | e]] eqn:Hrun;
    [| discriminate Hs].
  apply andb_prop in Hs as [Hsc Hsym].
  apply (added_token_resolves Cases.net_deep "ethereum" Cases.deep_address
           "good" true Cases.registry0 reg' t);
    [apply registry_init_ok | exact Hrun
     | destruct (is_scam t); [discriminate Hsc | reflexivity]
     | symmetry; apply String.eqb_eq; exact Hsym].
Defined.

(** X18. The two indexes disagree on the spelling of the chain. The
    primary index lower-cases the chain, the symbol index keeps it as it
    was given: a token added to a fresh registry under one spelling of
    the chain is found by [get_token] under every spelling with the same
    lower case, and by [resolve_symbol] under no other spelling than the
    one it was added with. *)
Theorem symbol_index_keeps_chain_spelling (net : DexClient.Network)
  (client : DexClient.Client) (c a c' : string) (verify : bool)
  (reg' : TokenRegistry) (t : VerifiedToken) :
  add_token net c a verify (init client) = (reg', Returned t) ->
  is_scam t = false ->
  lower c' = lower c ->
  c' <> c ->
  get_token c' a reg' = Some t
  /\ resolve_symbol c' (symbol t) reg' = None
  /\ resolve_symbol c (symbol t) reg' = Some t.
Proof.
  intros Hrun Hsc Hlow Hne.
  pose proof (add_token_registers _ _ _ _ _ _ _ Hrun Hsc) as Hk.
  split.
  { unfold get_token. rewrite (make_key_case c a c' a Hlow eq_refl).
    exact Hk. }
  apply add_token_cases in Hrun. inversion Hrun; subst.
  - match goal with H : tokens_by_key (init client) !! _ = Some _ |- _ =>
      simpl in H; rewrite lookup_empty in H; discriminate H end.
  - congruence.
  - match goal with
    | Ha : addresses_by_symbol reg' = _ |- _ =>
        simpl in Ha; rewrite lookup_empty in Ha; simpl in Ha;
        rename Ha into Hidx
    end.
    split.
    + unfold resolve_symbol, candidates. rewrite Hidx.
      rewrite lookup_insert_ne; [rewrite lookup_empty; reflexivity |].
      unfold symbol_key. intros Heq. apply Hne. symmetry.
      apply (append_cancel_r _ _ _ Heq).
    + unfold resolve_symbol, candidates. rewrite Hidx, lookup_insert_eq.
      simpl. rewrite make_key_lower, Hk. reflexivity.
Qed.

Lemma symbol_index_keeps_chain_spelling_witness :
  match (add_token Cases.net_deep "Ethereum" Cases.deep_address true
           Cases.registry0) with
  | (reg', Returned t) =>
      get_token "ethereum" Cases.deep_address reg' = Some t
      /\ resolve_symbol "ethereum" (symbol t) reg' = None
      /\ resolve_symbol "Ethereum" (symbol t) reg' = Some t
  | (_, Raised _) => False
  end.
Proof.
  pose proof (eq_refl : match (add_token Cases.net_deep "Ethereum"
                                 Cases.deep_address true Cases.registry0).2
                        with Returned t => is_scam t | Raised _ => true end
                        = false) as Hs.
  destruct (add_token Cases.net_deep "Ethereum" Cases.deep_address true
              Cases.registry0) as [reg' [t | e]] eqn:Hrun;
    [| discriminate Hs].
  apply (symbol_index_keeps_chain_spelling Cases.net_deep
           (DexClient.init 0%Q) "Ethereum" Cases.deep_address "ethereum"
           true reg' t);
    [exact Hrun | exact Hs | reflexivity | discriminate].
Defined.

End RegistryProperties.

(** ** The DexScreener client *)

Section ClientFacts.

Import DexClient.
#[local] Open Scope Q_scope.

Lemma retry_frame_refl (c : Client) : retry_frame c c.
Proof. unfold retry_frame. repeat split. Qed.

Lemma retry_frame_trans (c1 c2 c3 : Client) :
  retry_frame c1 c2 -> retry_frame c2 c3 -> retry_frame c1 c3.
Proof.
  unfold retry_frame. intros H1 H2. destruct_and!.
  repeat split; congruence.
Qed.

Lemma acquire_ok (now : Q) (b : RateLimiter.TokenBucketRateLimiter) :
  RateLimiter.capacity b <> 0%Z ->
  exists b' done,
    RateLimiter.acquire now b = Ok (b', done)
    /\ RateLimiter.capacity b' = RateLimiter.capacity b.
Proof.
  intros H. unfold RateLimiter.acquire.
  destruct (Qlt_le_dec _ 1).
  - destruct (decide _); [contradiction |].
    eexists _, _. split; reflexivity.
  - eexists _, _. split; reflexivity.
Qed.

Lemma limiter_acquire_run (is_profile : bool) (c : Client) :
  RateLimiter.capacity (pair_limiter c) <> 0%Z ->
  RateLimiter.capacity (profile_limiter c) <> 0%Z ->
  exists c1,
    limiter_acquire is_profile c = (c1, Returned tt)
    /\ retry_frame c c1 /\ sent c1 = sent c.
Proof.
  intros Hp Hq. unfold limiter_acquire.
  destruct is_profile.
  - destruct (acquire_ok (clock c) (profile_limiter c) Hq)
      as (b' & done & -> & Hcap).
    eexists. split; [reflexivity |].
    unfold retry_frame. simpl. repeat split; auto.
  - destruct (acquire_ok (clock c) (pair_limiter c) Hp)
      as (b' & done & -> & Hcap).
    eexists. split; [reflexivity |].
    unfold retry_frame. simpl. repeat split; auto.
Qed.

Lemma reply_at_shift (net : Network) (endpoint : string) (c c0 : Client)
  (i : nat) :
  sent c0 = S (sent c) ->
  reply_at net endpoint c0 i = reply_at net endpoint c (S i).
Proof.
  intros Hs. unfold reply_at. rewrite Hs.
  replace (S (sent c) + i)%nat with (sent c + S i)%nat by lia. reflexivity.
Qed.

Lemma retryable_shift (net : Network) (endpoint : string) (c c0 : Client)
  (k : nat) :
  sent c0 = S (sent c) ->
  retryable (reply_at net endpoint c 0) = true ->
  (forall i, (i < k)%nat -> retryable (reply_at net endpoint c0 i) = true) ->
  forall i, (i < S k)%nat -> retryable (reply_at net endpoint c i) = true.
Proof.
  intros Hs H0 Hr [| i] Hi; [exact H0 |].
  rewrite <- (reply_at_shift net endpoint c c0 i Hs). apply Hr. lia.
Qed.

Lemma attempted_shift (net : Network) (endpoint : string) (c c0 : Client)
  (n : nat) (c' : Client) (r : res (option (list pair))) :
  retry_frame c c0 -> sent c0 = S (sent c) ->
  retryable (reply_at net endpoint c 0) = true ->
  attempted net endpoint c0 n c' r ->
  attempted net endpoint c (S n) c' r.
Proof.
  intros Hf Hs Hr Ha.
  destruct Ha as [c1 k data Hf1 Hs1 Hk Hret Hrep
                 | c1 k e Hf1 Hs1 Hk Hret Hrep He
                 | c1 e Hf1 Hs1 Hret He].
  - apply (attempted_ok net endpoint c (S n) c1 (S k) data).
    + eapply retry_frame_trans; eauto.
    + lia.
    + lia.
    + eapply retryable_shift; eauto.
    + rewrite <- (reply_at_shift net endpoint c c0 k Hs). exact Hrep.
  - apply (attempted_error net endpoint c (S n) c1 (S k) e).
    + eapply retry_frame_trans; eauto.
    + lia.
    + lia.
    + eapply retryable_shift; eauto.
    + rewrite <- (reply_at_shift net endpoint c c0 k Hs). exact Hrep.
    + exact He.
  - apply (attempted_exhausted net endpoint c (S n) c1 e).
    + eapply retry_frame_trans; eauto.
    + lia.
    + eapply retryable_shift; eauto.
    + exact He.
Qed.

Lemma retry_frame_caps (c c' : Client) :
  retry_frame c c' ->
  RateLimiter.capacity (pair_limiter c) <> 0%Z ->
  RateLimiter.capacity (profile_limiter c) <> 0%Z ->
  RateLimiter.capacity (pair_limiter c') <> 0%Z
  /\ RateLimiter.capacity (profile_limiter c') <> 0%Z.
Proof.
  unfold retry_frame. intros H Hp Hq. destruct_and!. split; congruence.
Qed.

Lemma sleep_run (seconds : Q) (c : Client) :
  exists c1, sleep seconds c = (c1, Returned tt)
             /\ retry_frame c c1 /\ sent c1 = sent c.
Proof.
  eexists. split; [reflexivity |]. split; [| reflexivity].
  unfold retry_frame. simpl. repeat split.
Qed.

Lemma pause_run (a : Z) (c : Client) :
  exists c1,
    (if (a <? max_retries - 1)%Z then sleep (inject_Z (pause a)) else ret tt) c
    = (c1, Returned tt)
    /\ retry_frame c c1 /\ sent c1 = sent c.
Proof.
  destruct (a <? max_retries - 1)%Z.
  - apply sleep_run.
  - exists c. split; [reflexivity |]. split; [apply retry_frame_refl | reflexivity].
Qed.

Lemma attempt_loop_cases (net : Network) (endpoint : string)
  (is_profile : bool) (attempts : list Z) :
  forall (last_error : option exc) (c c' : Client)
         (r : res (option (list pair))),
    RateLimiter.capacity (pair_limiter c) <> 0%Z ->
    RateLimiter.capacity (profile_limiter c) <> 0%Z ->
    (forall e, last_error = Some e -> is_dexscreener_error e = true) ->
    attempt_loop net endpoint is_profile attempts last_error c = (c', r) ->
    attempted net endpoint c (length attempts) c' r.
Proof.
  induction attempts as [| a rest IH]; intros last c c' r Hp Hq Hlast Hrun.
  - simpl in Hrun. injection Hrun as <- <-. apply attempted_exhausted.
    + apply retry_frame_refl.
    + simpl. lia.
    + intros i Hi. simpl in Hi. lia.
    + destruct last; [apply Hlast; reflexivity | reflexivity].
  - cbn [attempt_loop] in Hrun. unfold bind at 1 in Hrun.
    destruct (limiter_acquire_run is_profile c Hp Hq) as (c1 & Hacq & Hf1 & Hs1).
    rewrite Hacq in Hrun. unfold bind at 1 in Hrun.
    unfold request at 1 in Hrun. cbn beta iota zeta in Hrun.
    match type of Hrun with _ ?x = _ => set (c2 := x) in Hrun end.
    assert (Hf2 : retry_frame c c2).
    { apply (retry_frame_trans c c1 c2 Hf1).
      unfold retry_frame, c2. simpl. repeat split. }
    assert (Hs2 : sent c2 = S (sent c)) by (unfold c2; simpl; congruence).
    assert (Hrep : answer (net (BASE_URL +:+ "/" +:+ endpoint) (sent c1))
                   = reply_at net endpoint c 0).
    { unfold reply_at. rewrite Hs1, Nat.add_0_r. reflexivity. }
    rewrite Hrep in Hrun. clearbody c2.
    assert (Hnext : forall last' c3,
               retry_frame c2 c3 -> sent c3 = sent c2 ->
               retryable (reply_at net endpoint c 0) = true ->
               (forall e, last' = Some e -> is_dexscreener_error e = true) ->
               attempt_loop net endpoint is_profile rest last' c3 = (c', r) ->
               attempted net endpoint c (length (a :: rest)) c' r).
    { intros last' c3 Hf3 Hs3 Hr Hl Hrun3.
      assert (Hf : retry_frame c c3) by (eapply retry_frame_trans; eauto).
      destruct (retry_frame_caps c c3 Hf Hp Hq) as [Hp3 Hq3].
      apply (attempted_shift net endpoint c c3); [exact Hf | congruence | exact Hr |].
      apply (IH last'); assumption. }
    destruct (reply_at net endpoint c 0) as [data | | text | status text | | msg]
      eqn:Hr0.
    + injection Hrun as <- <-.
      apply (attempted_ok net endpoint c _ c2 0 data);
        [exact Hf2 | lia | simpl; lia | intros i Hi; lia | exact Hr0].
    + unfold bind at 1 in Hrun. cbn beta iota in Hrun.
      unfold bind at 1 in Hrun.
      destruct (sleep_run (inject_Z (backoff a))
                  (set_metrics c2 (count_rate_limit_wait (metrics c2))))
        as (c3 & Hsl & Hf3 & Hs3).
      rewrite Hsl in Hrun.
      apply (Hnext last c3); [| exact Hs3 | reflexivity | exact Hlast | exact Hrun].
      eapply retry_frame_trans; [| exact Hf3].
      unfold retry_frame. simpl. repeat split.
    + injection Hrun as <- <-.
      apply (attempted_error net endpoint c _ c2 0);
        [exact Hf2 | lia | simpl; lia | intros i Hi; lia
         | rewrite Hr0; reflexivity | reflexivity].
    + injection Hrun as <- <-.
      apply (attempted_error net endpoint c _ c2 0);
        [exact Hf2 | lia | simpl; lia | intros i Hi; lia
         | rewrite Hr0; reflexivity | reflexivity].
    + unfold bind at 1 in Hrun.
      destruct (pause_run a c2) as (c3 & Hsl & Hf3 & Hs3).
      rewrite Hsl in Hrun.
      apply (Hnext _ c3 Hf3 Hs3 eq_refl) in Hrun; [exact Hrun |].
      intros e He. injection He as <-. reflexivity.
    + unfold bind at 1 in Hrun.
      destruct (pause_run a c2) as (c3 & Hsl & Hf3 & Hs3).
      rewrite Hsl in Hrun.
      apply (Hnext _ c3 Hf3 Hs3 eq_refl) in Hrun; [exact Hrun |].
      intros e He. injection He as <-. reflexivity.
Qed.

Lemma set_breaker_same (c : Client) : set_breaker c (circuit_breaker c) = c.
Proof. destruct c. reflexivity. Qed.

Lemma is_open_false (now : Q) (cb cb' : CircuitBreaker.CircuitBreaker) :
  CircuitBreaker.is_open now cb = Ok (false, cb') ->
  CircuitBreaker.state cb' <> CircuitBreaker.open
  /\ CircuitBreaker.failures cb' = CircuitBreaker.failures cb
  /\ CircuitBreaker.failure_threshold cb' = CircuitBreaker.failure_threshold cb
  /\ CircuitBreaker.timeout_seconds cb' = CircuitBreaker.timeout_seconds cb
  /\ (CircuitBreaker.state cb <> CircuitBreaker.open -> cb' = cb).
Proof.
  unfold CircuitBreaker.is_open.
  destruct (CircuitBreaker.state cb) eqn:Hs.
  - intros H. injection H as <-. rewrite Hs. repeat split; congruence.
  - destruct (CircuitBreaker.last_failure_time cb); [| discriminate].
    destruct (Qlt_le_dec _ _); [| discriminate].
    intros H. injection H as <-. simpl. repeat split; congruence.
  - intros H. injection H as <-. rewrite Hs. repeat split; congruence.
Qed.

Lemma is_open_true (now : Q) (cb cb' : CircuitBreaker.CircuitBreaker) :
  CircuitBreaker.is_open now cb = Ok (true, cb') ->
  cb' = cb /\ CircuitBreaker.state cb = CircuitBreaker.open.
Proof.
  unfold CircuitBreaker.is_open.
  destruct (CircuitBreaker.state cb) eqn:Hs; try discriminate.
  destruct (CircuitBreaker.last_failure_time cb); [| discriminate].
  destruct (Qlt_le_dec _ _); [discriminate |].
  intros H. injection H as <-. auto.
Qed.

Lemma is_open_total (now : Q) (cb : CircuitBreaker.CircuitBreaker) :
  breaker_ok cb ->
  exists b cb', CircuitBreaker.is_open now cb = Ok (b, cb').
Proof.
  unfold breaker_ok, CircuitBreaker.is_open. intros Hok.
  destruct (CircuitBreaker.state cb) eqn:Hs;
    [eexists _, _; reflexivity | | eexists _, _; reflexivity].
  destruct (CircuitBreaker.last_failure_time cb);
    [| exfalso; apply Hok; reflexivity].
  destruct (Qlt_le_dec _ _); eexists _, _; reflexivity.
Qed.

(** The two ways through [_fetch]: refused by the open breaker, with
    the client untouched, or through the retry loop with three attempts. *)
Lemma fetch_cases (net : Network) (endpoint : string) (is_profile : bool)
  (c c' : Client) (r : res (option (list pair))) :
  client_ok c ->
  _fetch net endpoint is_profile c = (c', r) ->
  (CircuitBreaker.state (circuit_breaker c) = CircuitBreaker.open
   /\ c' = c
   /\ r = Raised (Base (DexScreenerError
                          "Circuit breaker is open due to repeated failures")))
  \/ (exists cb,
         CircuitBreaker.is_open (clock c) (circuit_breaker c) = Ok (false, cb)
         /\ attempted net endpoint (set_breaker c cb) 3 c' r).
Proof.
  intros (Hb & Hp & Hq) Hrun. unfold _fetch in Hrun.
  destruct (is_open_total (clock c) _ Hb) as (b & cb & Hopen).
  rewrite Hopen in Hrun. destruct b.
  - left. apply is_open_true in Hopen as [-> Hs].
    rewrite set_breaker_same in Hrun. injection Hrun as <- <-. auto.
  - right. exists cb. split; [exact Hopen |].
    apply (attempt_loop_cases net endpoint is_profile [0; 1; 2]%Z None);
      [exact Hp | exact Hq | discriminate | exact Hrun].
Qed.

(** Which way out of the loop is taken is fixed by the replies. *)
Lemma attempted_at (net : Network) (endpoint : string) (c c' : Client)
  (n k : nat) (r : res (option (list pair))) :
  attempted net endpoint c n c' r ->
  (k < n)%nat ->
  (forall i, (i < k)%nat -> retryable (reply_at net endpoint c i) = true) ->
  retryable (reply_at net endpoint c k) = false ->
  exists c1,
    retry_frame c c1
    /\ sent c1 = (sent c + S k)%nat
    /\ ((exists data,
            reply_at net endpoint c k = Status200 data
            /\ c' = set_metrics
                      (set_breaker c1
                         (CircuitBreaker.record_success (circuit_breaker c1)))
                      (count_success (metrics c1))
            /\ r = Returned data)
        \/ (http_error (reply_at net endpoint c k) = true
            /\ c' = c1
            /\ exists e, r = Raised e /\ is_dexscreener_error e = true)).
Proof.
  intros Ha Hk Hret Hstop.
  assert (Hsame : forall k',
             (forall i, (i < k')%nat ->
                        retryable (reply_at net endpoint c i) = true) ->
             retryable (reply_at net endpoint c k') = false -> k' = k).
  { intros k' Hret' Hstop'.
    destruct (Nat.lt_trichotomy k' k) as [Hlt | [Heq | Hgt]]; [| exact Heq |].
    - rewrite (Hret k' Hlt) in Hstop'. discriminate.
    - rewrite (Hret' k Hgt) in Hstop. discriminate. }
  destruct Ha as [c1 k' data Hf1 Hs1 Hk' Hret' Hrep
                 | c1 k' e Hf1 Hs1 Hk' Hret' Hrep He
                 | c1 e Hf1 Hs1 Hret' He].
  - assert (k' = k) as -> by (apply Hsame; [exact Hret' | rewrite Hrep; reflexivity]).
    exists c1. split; [exact Hf1 |]. split; [exact Hs1 |]. left. eauto.
  - assert (k' = k) as ->.
    { apply Hsame; [exact Hret' |].
      destruct (reply_at net endpoint c k'); try discriminate; reflexivity. }
    exists c1. split; [exact Hf1 |]. split; [exact Hs1 |]. right. eauto.
  - rewrite (Hret' k Hk) in Hstop. discriminate.
Qed.

Lemma attempted_all_retryable (net : Network) (endpoint : string)
  (c c' : Client) (n : nat) (r : res (option (list pair))) :
  attempted net endpoint c n c' r ->
  (forall i, (i < n)%nat -> retryable (reply_at net endpoint c i) = true) ->
  exists c1 e,
    retry_frame c c1
    /\ sent c1 = (sent c + n)%nat
    /\ c' = set_metrics
              (set_breaker c1
                 (CircuitBreaker.record_failure (clock c1) (circuit_breaker c1)))
              (count_failed (metrics c1))
    /\ r = Raised e /\ is_dexscreener_error e = true.
Proof.
  intros Ha Hall.
  destruct Ha as [c1 k' data Hf1 Hs1 Hk' Hret' Hrep
                 | c1 k' e Hf1 Hs1 Hk' Hret' Hrep He
                 | c1 e Hf1 Hs1 Hret' He].
  - pose proof (Hall k' Hk') as H. rewrite Hrep in H. discriminate.
  - pose proof (Hall k' Hk') as H.
    destruct (reply_at net endpoint c k'); discriminate.
  - exists c1, e. auto.
Qed.

End ClientFacts.

Section ClientProperties.

Import DexClient.
#[local] Open Scope Q_scope.

Lemma init_client_ok (now : Q) : client_ok (init now).
Proof.
  unfold client_ok, breaker_ok. simpl. repeat split; discriminate.
Qed.

Lemma reply_at_set_breaker (net : Network) (endpoint : string) (c : Client)
  (cb : CircuitBreaker.CircuitBreaker) (i : nat) :
  reply_at net endpoint (set_breaker c cb) i = reply_at net endpoint c i.
Proof. reflexivity. Qed.

(** The bounds of [_fetch]. *)
Lemma fetch_bounds (net : Network) (endpoint : string)
  (is_profile : bool) (c c' : Client) (r : res (option (list pair))) :
  client_ok c ->
  _fetch net endpoint is_profile c = (c', r) ->
    client_ok c'
    /\ (sent c <= sent c' <= sent c + 3)%nat
    /\ cache c' = cache c
    /\ cache_ttl c' = cache_ttl c
    /\ cache_hits (metrics c') = cache_hits (metrics c)
    /\ cache_misses (metrics c') = cache_misses (metrics c)
    /\ chain_errors (metrics c') = chain_errors (metrics c)
    /\ match r with
       | Returned data =>
           (sent c < sent c')%nat
           /\ reply_at net endpoint c (sent c' - sent c - 1) = Status200 data
           /\ CircuitBreaker.state (circuit_breaker c') = CircuitBreaker.closed
           /\ CircuitBreaker.failures (circuit_breaker c') = 0%Z
           /\ requests_success (metrics c')
              = (requests_success (metrics c) + 1)%Z
           /\ requests_failed (metrics c') = requests_failed (metrics c)
       | Raised e =>
           is_dexscreener_error e = true
           /\ requests_success (metrics c') = requests_success (metrics c)
           /\ (requests_failed (metrics c') = requests_failed (metrics c)
               \/ (requests_failed (metrics c')
                   = (requests_failed (metrics c) + 1)%Z
                   /\ sent c' = (sent c + 3)%nat))
       end.
Proof.
  intros Hok Hrun.
  destruct (fetch_cases _ _ _ _ _ _ Hok Hrun)
    as [(Hs & -> & ->) | (cb & Hopen & Ha)].
  - split; [exact Hok |]. split; [lia |].
    do 5 (split; [reflexivity |]).
    split; [reflexivity |]. split; [reflexivity |]. left. reflexivity.
  - destruct (is_open_false _ _ _ Hopen) as (Hnot & _).
    destruct Hok as (Hb & Hp & Hq).
    destruct Ha as [c1 k data Hf1 Hs1 Hk Hret Hrep
                   | c1 k e Hf1 Hs1 Hk Hret Hrep He
                   | c1 e Hf1 Hs1 Hret He];
      unfold retry_frame in Hf1; simpl in Hf1, Hs1;
      destruct Hf1 as (F1 & F2 & F3 & F4 & F5 & F6 & F7 & F8 & F9 & F10).
    + split.
      { unfold client_ok, breaker_ok. simpl.
        split; [discriminate |]. split; congruence. }
      simpl. split; [lia |].
      do 5 (split; [assumption |]).
      split; [lia |].
      split. { rewrite Hs1.
               replace (sent c + S k - sent c - 1)%nat with k by lia.
               exact Hrep. }
      split; [reflexivity |]. split; [reflexivity |].
      split; [congruence | assumption].
    + split.
      { unfold client_ok, breaker_ok.
        split; [rewrite F1; intros; contradiction |]. split; congruence. }
      split; [lia |].
      do 5 (split; [assumption |]).
      split; [exact He |]. split; [assumption |]. left. assumption.
    + split.
      { unfold client_ok, breaker_ok. simpl.
        split; [discriminate |]. split; congruence. }
      simpl. split; [lia |].
      do 5 (split; [assumption |]).
      split; [exact He |]. split; [assumption |]. right. split; [congruence | lia].
Qed.


(** X19. What [_fetch] never does. On a client whose limiters have a
    capacity and whose breaker, if open, has a time of last failure,
    [_fetch] always ends; it sends at most three requests; it raises
    nothing but a [DexScreenerError]; it never touches the cache or the
    cache and chain-error counters. When it returns, the last request
    was answered 200, the breaker is closed with no failure counted and
    one more success is counted. When it raises, no success is counted
    and at most one failure, and a failure is only counted after three
    requests. *)
Theorem fetch_is_bounded (net : Network) (endpoint : string)
  (is_profile : bool) (c : Client) :
  client_ok c ->
  exists c' r,
    _fetch net endpoint is_profile c = (c', r)
    /\ client_ok c'
    /\ (sent c <= sent c' <= sent c + 3)%nat
    /\ cache c' = cache c
    /\ cache_ttl c' = cache_ttl c
    /\ cache_hits (metrics c') = cache_hits (metrics c)
    /\ cache_misses (metrics c') = cache_misses (metrics c)
    /\ chain_errors (metrics c') = chain_errors (metrics c)
    /\ match r with
       | Returned data =>
           (sent c < sent c')%nat
           /\ reply_at net endpoint c (sent c' - sent c - 1) = Status200 data
           /\ CircuitBreaker.state (circuit_breaker c') = CircuitBreaker.closed
           /\ CircuitBreaker.failures (circuit_breaker c') = 0%Z
           /\ requests_success (metrics c')
              = (requests_success (metrics c) + 1)%Z
           /\ requests_failed (metrics c') = requests_failed (metrics c)
       | Raised e =>
           is_dexscreener_error e = true
           /\ requests_success (metrics c') = requests_success (metrics c)
           /\ (requests_failed (metrics c') = requests_failed (metrics c)
               \/ (requests_failed (metrics c')
                   = (requests_failed (metrics c) + 1)%Z
                   /\ sent c' = (sent c + 3)%nat))
       end.
Proof.
  intros Hok.
  destruct (_fetch net endpoint is_profile c) as [c' r] eqn:Hrun.
  exists c', r. split; [reflexivity |].
  exact (fetch_bounds net endpoint is_profile c c' r Hok Hrun).
Qed.

Lemma fetch_is_bounded_witness :
  client_ok (init 0)
  /\ exists c' r,
       _fetch Cases.net_flaky "tokens/0xabc" false (init 0) = (c', r)
       /\ client_ok c'
       /\ (sent (init 0) <= sent c' <= sent (init 0) + 3)%nat
       /\ cache c' = cache (init 0)
       /\ cache_ttl c' = cache_ttl (init 0)
       /\ cache_hits (metrics c') = cache_hits (metrics (init 0))
       /\ cache_misses (metrics c') = cache_misses (metrics (init 0))
       /\ chain_errors (metrics c') = chain_errors (metrics (init 0))
       /\ match r with
          | Returned data =>
              (sent (init 0) < sent c')%nat
              /\ reply_at Cases.net_flaky "tokens/0xabc" (init 0)
                   (sent c' - sent (init 0) - 1) = Status200 data
              /\ CircuitBreaker.state (circuit_breaker c')
                 = CircuitBreaker.closed
              /\ CircuitBreaker.failures (circuit_breaker c') = 0%Z
              /\ requests_success (metrics c')
                 = (requests_success (metrics (init 0)) + 1)%Z
              /\ requests_failed (metrics c')
                 = requests_failed (metrics (init 0))
          | Raised e =>
              is_dexscreener_error e = true
              /\ requests_success (metrics c')
                 = requests_success (metrics (init 0))
              /\ (requests_failed (metrics c')
                  = requests_failed (metrics (init 0))
                  \/ (requests_failed (metrics c')
                      = (requests_failed (metrics (init 0)) + 1)%Z
                      /\ sent c' = (sent (init 0) + 3)%nat))
          end.
Proof.
  split; [apply init_client_ok |].
  apply (fetch_is_bounded Cases.net_flaky "tokens/0xabc" false (init 0)).
  apply init_client_ok.
Defined.

Lemma fetch_blocked (net : Network) (endpoint : string) (is_profile : bool)
  (c : Client) (last : Q) :
  CircuitBreaker.state (circuit_breaker c) = CircuitBreaker.open ->
  CircuitBreaker.last_failure_time (circuit_breaker c) = Some last ->
  clock c - last <= inject_Z (CircuitBreaker.timeout_seconds (circuit_breaker c)) ->
  _fetch net endpoint is_profile c
  = (c, Raised (Base (DexScreenerError
                        "Circuit breaker is open due to repeated failures"))).
Proof.
  intros Hs Hl Hle. unfold _fetch.
  rewrite (is_open_cooling _ _ _ Hs Hl Hle), set_breaker_same. reflexivity.
Qed.

Lemma fetch_exhausted (net : Network) (endpoint : string) (is_profile : bool)
  (c : Client) :
  client_ok c ->
  CircuitBreaker.state (circuit_breaker c) <> CircuitBreaker.open ->
  (forall i, (i < 3)%nat -> retryable (reply_at net endpoint c i) = true) ->
  exists c1 e,
    retry_frame c c1
    /\ sent c1 = (sent c + 3)%nat
    /\ is_dexscreener_error e = true
    /\ _fetch net endpoint is_profile c
       = (set_metrics
            (set_breaker c1
               (CircuitBreaker.record_failure (clock c1) (circuit_breaker c)))
            (count_failed (metrics c1)),
          Raised e).
Proof.
  intros Hok Hnot Hall.
  destruct (_fetch net endpoint is_profile c) as [c' r] eqn:Hrun.
  destruct (fetch_cases _ _ _ _ _ _ Hok Hrun)
    as [(Hs & _) | (cb & Hopen & Ha)]; [contradiction |].
  destruct (is_open_false _ _ _ Hopen) as (_ & _ & _ & _ & Hsame).
  rewrite (Hsame Hnot), set_breaker_same in Ha.
  destruct (attempted_all_retryable _ _ _ _ _ _ Ha Hall)
    as (c1 & e & Hf & Hs & -> & -> & He).
  exists c1, e. repeat (split; [assumption |]).
  destruct Hf as (-> & _). reflexivity.
Qed.

Lemma fetch_each_exhausted (net : Network) (endpoints : list string) :
  (forall url n, retryable (answer (net url n)) = true) ->
  forall c,
    client_ok c ->
    CircuitBreaker.state (circuit_breaker c) = CircuitBreaker.closed ->
    (CircuitBreaker.failures (circuit_breaker c) + Z.of_nat (length endpoints)
     <= CircuitBreaker.failure_threshold (circuit_breaker c))%Z ->
    let c' := fetch_each net endpoints c in
    sent c' = (sent c + 3 * length endpoints)%nat
    /\ CircuitBreaker.failures (circuit_breaker c')
       = (CircuitBreaker.failures (circuit_breaker c)
          + Z.of_nat (length endpoints))%Z
    /\ CircuitBreaker.failure_threshold (circuit_breaker c')
       = CircuitBreaker.failure_threshold (circuit_breaker c)
    /\ CircuitBreaker.timeout_seconds (circuit_breaker c')
       = CircuitBreaker.timeout_seconds (circuit_breaker c)
    /\ requests_failed (metrics c')
       = (requests_failed (metrics c) + Z.of_nat (length endpoints))%Z
    /\ requests_success (metrics c') = requests_success (metrics c)
    /\ (endpoints <> [] ->
        CircuitBreaker.last_failure_time (circuit_breaker c') = Some (clock c'))
    /\ CircuitBreaker.state (circuit_breaker c')
       = (if decide (endpoints <> []
                     /\ (CircuitBreaker.failure_threshold (circuit_breaker c)
                         <= CircuitBreaker.failures (circuit_breaker c)
                            + Z.of_nat (length endpoints))%Z)
          then CircuitBreaker.open else CircuitBreaker.closed).
Proof.
  intros Hall. induction endpoints as [| ep rest IH]; intros c Hok Hs Hle.
  - simpl. rewrite Hs. repeat split; try lia.
    intros H. contradiction.
  - cbn [fetch_each].
    destruct (fetch_exhausted net ep false c Hok) as (c1 & e & Hf & Hs1 & He & ->).
    { rewrite Hs. discriminate. }
    { intros i Hi. apply Hall. }
    cbn [fst].
    set (c2 := set_metrics _ _).
    destruct Hf as (F1 & F2 & F3 & F4 & F5 & F6 & F7 & F8 & F9 & F10).
    destruct Hok as (Hb & Hp & Hq).
    assert (Hok2 : client_ok c2).
    { unfold client_ok, breaker_ok, c2. simpl.
      split; [discriminate |]. split; congruence. }
    assert (Hst2 : CircuitBreaker.state (circuit_breaker c2)
                   = if (CircuitBreaker.failure_threshold (circuit_breaker c)
                         <=? CircuitBreaker.failures (circuit_breaker c) + 1)%Z
                     then CircuitBreaker.open else CircuitBreaker.closed).
    { unfold c2. simpl. rewrite Hs. reflexivity. }
    assert (Hsent2 : sent c2 = (sent c + 3)%nat) by exact Hs1.
    assert (Hfail2 : CircuitBreaker.failures (circuit_breaker c2)
                     = (CircuitBreaker.failures (circuit_breaker c) + 1)%Z)
      by reflexivity.
    assert (Hthr2 : CircuitBreaker.failure_threshold (circuit_breaker c2)
                    = CircuitBreaker.failure_threshold (circuit_breaker c))
      by reflexivity.
    assert (Hto2 : CircuitBreaker.timeout_seconds (circuit_breaker c2)
                   = CircuitBreaker.timeout_seconds (circuit_breaker c))
      by reflexivity.
    assert (Hrf2 : requests_failed (metrics c2)
                   = (requests_failed (metrics c) + 1)%Z)
      by (unfold c2; simpl; congruence).
    assert (Hrs2 : requests_success (metrics c2) = requests_success (metrics c))
      by (unfold c2; simpl; congruence).
    assert (Hlast2 : CircuitBreaker.last_failure_time (circuit_breaker c2)
                     = Some (clock c2)) by reflexivity.
    clearbody c2. simpl length in *.
    destruct rest as [| ep' rest'].
    + simpl. rewrite Hst2.
      repeat (split; [first [assumption | lia] |]).
      split; [intros _; exact Hlast2 |].
      destruct (Z.leb_spec
                  (CircuitBreaker.failure_threshold (circuit_breaker c))
                  (CircuitBreaker.failures (circuit_breaker c) + 1));
        destruct (decide _) as [[_ H'] | H']; try reflexivity.
      * exfalso. apply H'. split; [discriminate | simpl; lia].
      * exfalso. simpl in H'. lia.
    + assert (Hs2 : CircuitBreaker.state (circuit_breaker c2)
                    = CircuitBreaker.closed).
      { rewrite Hst2.
        destruct (Z.leb_spec
                    (CircuitBreaker.failure_threshold (circuit_breaker c))
                    (CircuitBreaker.failures (circuit_breaker c) + 1));
          [simpl length in Hle; lia | reflexivity]. }
      specialize (IH c2 Hok2 Hs2).
      destruct IH as (I1 & I2 & I3 & I4 & I5 & I6 & I7 & I8).
      { rewrite Hfail2, Hthr2. simpl length in *. lia. }
      rewrite I1, I2, I3, I4, I5, I6, I8, Hsent2, Hfail2, Hthr2, Hto2, Hrf2, Hrs2.
      simpl length in *.
      repeat (split; [first [reflexivity | lia] |]).
      split; [intros _; apply I7; discriminate |].
      repeat match goal with
             | |- context [decide ?P] => destruct (decide P) as [[_ ?] | ?]
             end; try reflexivity; exfalso;
        match goal with
        | H : ~ _ |- _ => apply H; split; [discriminate | lia]
        end.
Qed.

(** X20. Repeated failures open the breaker, and the open breaker stops
    the traffic. While the network only answers 429, timeouts or
    connection errors, each [_fetch] of a closed breaker sends three
    requests and counts one failure; the breaker stays closed below the
    threshold and opens when the threshold is reached; from then on, and
    for as long as the cooldown lasts, [_fetch] raises without sending
    anything and leaves the client as it is. *)
Theorem breaker_opens_after_failed_fetches (net : Network)
  (endpoints : list string) (c : Client) :
  client_ok c ->
  CircuitBreaker.state (circuit_breaker c) = CircuitBreaker.closed ->
  (forall url n, retryable (answer (net url n)) = true) ->
  (CircuitBreaker.failures (circuit_breaker c) + Z.of_nat (length endpoints)
   <= CircuitBreaker.failure_threshold (circuit_breaker c))%Z ->
  sent (fetch_each net endpoints c) = (sent c + 3 * length endpoints)%nat
  /\ requests_failed (metrics (fetch_each net endpoints c))
     = (requests_failed (metrics c) + Z.of_nat (length endpoints))%Z
  /\ requests_success (metrics (fetch_each net endpoints c))
     = requests_success (metrics c)
  /\ ((CircuitBreaker.failures (circuit_breaker c)
       + Z.of_nat (length endpoints)
       < CircuitBreaker.failure_threshold (circuit_breaker c))%Z ->
      CircuitBreaker.state (circuit_breaker (fetch_each net endpoints c))
      = CircuitBreaker.closed)
  /\ (endpoints <> [] ->
      (CircuitBreaker.failures (circuit_breaker c)
       + Z.of_nat (length endpoints)
       = CircuitBreaker.failure_threshold (circuit_breaker c))%Z ->
      (0 <= CircuitBreaker.timeout_seconds (circuit_breaker c))%Z ->
      CircuitBreaker.state (circuit_breaker (fetch_each net endpoints c))
      = CircuitBreaker.open
      /\ forall net' endpoint is_profile,
           exists e,
             _fetch net' endpoint is_profile (fetch_each net endpoints c)
             = (fetch_each net endpoints c, Raised e)).
Proof.
  intros Hok Hs Hall Hle.
  destruct (fetch_each_exhausted net endpoints Hall c Hok Hs Hle)
    as (I1 & I2 & I3 & I4 & I5 & I6 & I7 & I8).
  repeat (split; [assumption |]).
  split.
  - intros Hlt. rewrite I8.
    destruct (decide _) as [[_ H] | _]; [lia | reflexivity].
  - intros Hne Heq Hto.
    assert (Hopen : CircuitBreaker.state
                      (circuit_breaker (fetch_each net endpoints c))
                    = CircuitBreaker.open).
    { rewrite I8. destruct (decide _) as [_ | H]; [reflexivity |].
      exfalso. apply H. split; [exact Hne | lia]. }
    split; [exact Hopen |].
    intros net' endpoint is_profile. eexists.
    apply (fetch_blocked net' endpoint is_profile _ _ Hopen (I7 Hne)).
    rewrite I4. rewrite Zle_Qle in Hto.
    change (inject_Z 0) with 0 in Hto. lra.
Qed.

Lemma breaker_opens_after_failed_fetches_witness :
  sent (fetch_each Cases.net_down ["a"; "b"; "c"; "d"; "e"] (init 0)) = 15%nat
  /\ CircuitBreaker.state
       (circuit_breaker
          (fetch_each Cases.net_down ["a"; "b"; "c"; "d"; "e"] (init 0)))
     = CircuitBreaker.open
  /\ exists e,
       _fetch Cases.net_deep "f" false
         (fetch_each Cases.net_down ["a"; "b"; "c"; "d"; "e"] (init 0))
       = (fetch_each Cases.net_down ["a"; "b"; "c"; "d"; "e"] (init 0),
          Raised e).
Proof.
  destruct (breaker_opens_after_failed_fetches Cases.net_down
              ["a"; "b"; "c"; "d"; "e"] (init 0))
    as (H1 & _ & _ & _ & H5).
  - apply init_client_ok.
  - reflexivity.
  - intros url n. reflexivity.
  - simpl. lia.
  - destruct H5 as [Hopen Hblocked]; [discriminate | reflexivity | simpl; lia |].
    split; [exact H1 |]. split; [exact Hopen |].
    apply Hblocked.
Defined.

(** A first reply 200 ends [_fetch] at once. *)
Lemma fetch_first_ok (net : Network) (endpoint : string) (is_profile : bool)
  (c : Client) (data : option (list pair)) :
  client_ok c ->
  CircuitBreaker.state (circuit_breaker c) <> CircuitBreaker.open ->
  reply_at net endpoint c 0 = Status200 data ->
  exists c',
    _fetch net endpoint is_profile c = (c', Returned data)
    /\ sent c' = S (sent c)
    /\ requests_failed (metrics c') = requests_failed (metrics c)
    /\ requests_success (metrics c') = (requests_success (metrics c) + 1)%Z.
Proof.
  intros Hok Hnot Hrep.
  destruct (_fetch net endpoint is_profile c) as [c' r] eqn:Hrun.
  destruct (fetch_cases _ _ _ _ _ _ Hok Hrun)
    as [(Hs & _) | (cb & Hopen & Ha)]; [contradiction |].
  destruct (is_open_false _ _ _ Hopen) as (_ & _ & _ & _ & Hsame).
  rewrite (Hsame Hnot), set_breaker_same in Ha.
  destruct (attempted_at net endpoint c c' 3 0 r Ha)
    as (c1 & Hf & Hs1 & [(data' & Hrep' & -> & ->) | (Herr & _)]).
  - lia.
  - intros i Hi. lia.
  - rewrite Hrep. reflexivity.
  - rewrite Hrep in Hrep'. injection Hrep' as <-.
    destruct Hf as (_ & _ & _ & _ & _ & F6 & F7 & _).
    exists (set_metrics
              (set_breaker c1
                 (CircuitBreaker.record_success (circuit_breaker c1)))
              (count_success (metrics c1))).
    simpl. split; [reflexivity |]. split; [lia |]. split; congruence.
  - rewrite Hrep in Herr. discriminate.
Qed.

(** X21. The first reply that does not call for a retry decides. When
    the breaker is not open, after [k < 3] replies that call for a retry
    (429, timeout, connection error) the reply to request [k + 1] ends
    [_fetch] with exactly [k + 1] requests sent. A 200 returns its body
    and closes the breaker with no failure counted. Any other status
    raises and is not a failure for the breaker nor for the counters:
    the breaker and [requests_failed] are as before. *)
Theorem first_final_reply_decides (net : Network) (endpoint : string)
  (is_profile : bool) (c : Client) (k : nat) :
  client_ok c ->
  CircuitBreaker.state (circuit_breaker c) <> CircuitBreaker.open ->
  (k < 3)%nat ->
  (forall i, (i < k)%nat -> retryable (reply_at net endpoint c i) = true) ->
  retryable (reply_at net endpoint c k) = false ->
  exists c' r,
    _fetch net endpoint is_profile c = (c', r)
    /\ sent c' = (sent c + S k)%nat
    /\ requests_failed (metrics c') = requests_failed (metrics c)
    /\ match reply_at net endpoint c k with
       | Status200 data =>
           r = Returned data
           /\ CircuitBreaker.state (circuit_breaker c') = CircuitBreaker.closed
           /\ CircuitBreaker.failures (circuit_breaker c') = 0%Z
           /\ requests_success (metrics c')
              = (requests_success (metrics c) + 1)%Z
       | _ =>
           (exists e, r = Raised e /\ is_dexscreener_error e = true)
           /\ circuit_breaker c' = circuit_breaker c
           /\ requests_success (metrics c') = requests_success (metrics c)
       end.
Proof.
  intros Hok Hnot Hk Hret Hstop.
  destruct (_fetch net endpoint is_profile c) as [c' r] eqn:Hrun.
  exists c', r. split; [reflexivity |].
  destruct (fetch_cases _ _ _ _ _ _ Hok Hrun)
    as [(Hs & _) | (cb & Hopen & Ha)]; [contradiction |].
  destruct (is_open_false _ _ _ Hopen) as (_ & _ & _ & _ & Hsame).
  rewrite (Hsame Hnot), set_breaker_same in Ha.
  destruct (attempted_at _ _ _ _ _ _ _ Ha Hk Hret Hstop)
    as (c1 & Hf & Hs1 & [(data & Hrep & -> & ->) | (Herr & -> & e & -> & He)]);
    destruct Hf as (F1 & F2 & F3 & F4 & F5 & F6 & F7 & F8 & F9 & F10).
  - rewrite Hrep. simpl.
    split; [exact Hs1 |]. split; [exact F7 |].
    split; [reflexivity |]. split; [reflexivity |]. split; [reflexivity |].
    congruence.
  - split; [exact Hs1 |]. split; [exact F7 |].
    destruct (reply_at net endpoint c k); try discriminate;
      (split; [eauto |]); split; assumption.
Qed.

Lemma first_final_reply_decides_witness :
  exists c' r,
    _fetch Cases.net_flaky "tokens/0xabc" false (init 0) = (c', r)
    /\ sent c' = 3%nat
    /\ requests_failed (metrics c') = 0%Z
    /\ match reply_at Cases.net_flaky "tokens/0xabc" (init 0) 2 with
       | Status200 data =>
           r = Returned data
           /\ CircuitBreaker.state (circuit_breaker c') = CircuitBreaker.closed
           /\ CircuitBreaker.failures (circuit_breaker c') = 0%Z
           /\ requests_success (metrics c') = 1%Z
       | _ =>
           (exists e, r = Raised e /\ is_dexscreener_error e = true)
           /\ circuit_breaker c' = circuit_breaker (init 0)
           /\ requests_success (metrics c') = 0%Z
       end.
Proof.
  apply (first_final_reply_decides Cases.net_flaky "tokens/0xabc" false
           (init 0) 2).
  - apply init_client_ok.
  - discriminate.
  - lia.
  - intros [| [| i]] Hi; [reflexivity | reflexivity | lia].
  - reflexivity.
Defined.

End ClientProperties.

Section PairsProperties.

Import DexClient.
#[local] Open Scope Q_scope.

Lemma client_ok_miss (c : Client) :
  client_ok c -> client_ok (set_metrics c (count_cache_miss (metrics c))).
Proof. intros H. exact H. Qed.

(** The ways through [get_token_pairs] after a cache miss. *)
Lemma pairs_cases (net : Network) (chain token_address cn : string)
  (c c' : Client) (r : res (list TokenRegistry.TokenPrice)) :
  client_ok c ->
  ChainRegistry.normalize_chain_id chain = Ok cn ->
  cache_lookup c (ChainRegistry.make_unique_key cn token_address) = None ->
  get_token_pairs net chain token_address c = (c', r) ->
  exists c1 r1,
    _fetch net ("tokens/" +:+ token_address) false
      (set_metrics c (count_cache_miss (metrics c))) = (c1, r1)
    /\ match r1 with
       | Raised e =>
           c' = set_metrics c1 (count_chain_error cn (metrics c1))
           /\ r = Raised e
       | Returned None | Returned (Some []) =>
           c' = set_metrics c1 (count_chain_error cn (metrics c1))
           /\ exists msg, r = Raised (NoLiquidityError msg)
       | Returned (Some pairs) =>
           r = Returned
                 (PySort.sort_desc TokenRegistry.liquidity_usd
                    (map (to_price cn token_address
                            (ChainRegistry.make_unique_key cn token_address)
                            (clock c1))
                       (List.filter (pair_on_chain cn) pairs)))
           /\ c' = match PySort.sort_desc TokenRegistry.liquidity_usd
                         (map (to_price cn token_address
                                 (ChainRegistry.make_unique_key cn
                                    token_address)
                                 (clock c1))
                            (List.filter (pair_on_chain cn) pairs)) with
                   | best :: _ =>
                       set_cache c1
                         (<[ChainRegistry.make_unique_key cn token_address
                            := (best, clock c1)]> (cache c1))
                   | [] => c1
                   end
       end.
Proof.
  intros Hok Hn Hl Hrun. unfold get_token_pairs in Hrun.
  rewrite Hn, Hl in Hrun. unfold counting_chain_errors, bind in Hrun.
  destruct (_fetch net ("tokens/" +:+ token_address) false
              (set_metrics c (count_cache_miss (metrics c))))
    as [c1 r1] eqn:Hf.
  exists c1, r1. split; [reflexivity |].
  destruct r1 as [[[| p ps] |] | e].
  - simpl in Hrun. injection Hrun as <- <-. eauto.
  - injection Hrun as <- <-. auto.
  - simpl in Hrun. injection Hrun as <- <-. eauto.
  - destruct (fetch_bounds _ _ _ _ _ _ (client_ok_miss c Hok) Hf)
      as (_ & _ & _ & _ & _ & _ & _ & He & _).
    rewrite He in Hrun. injection Hrun as <- <-. auto.
Qed.

(** What a list returned from the network leaves in the cache. *)
Lemma pairs_returned_cache (net : Network) (chain token_address cn : string)
  (c c' : Client) (best : TokenRegistry.TokenPrice)
  (rest : list TokenRegistry.TokenPrice) :
  client_ok c ->
  ChainRegistry.normalize_chain_id chain = Ok cn ->
  cache_lookup c (ChainRegistry.make_unique_key cn token_address) = None ->
  get_token_pairs net chain token_address c = (c', Returned (best :: rest)) ->
  cache_ttl c' = cache_ttl c
  /\ cache c' !! ChainRegistry.make_unique_key cn token_address
     = Some (best, clock c').
Proof.
  intros Hok Hn Hl Hrun.
  destruct (pairs_cases _ _ _ _ _ _ _ Hok Hn Hl Hrun) as (c1 & r1 & Hf & Hcase).
  destruct (fetch_bounds _ _ _ _ _ _ (client_ok_miss c Hok) Hf)
    as (_ & _ & _ & Httl & _).
  destruct r1 as [[[| p ps] |] | e].
  - destruct Hcase as (_ & msg & H). discriminate.
  - destruct Hcase as (Hres & Hc').
    set (results := PySort.sort_desc _ _) in Hres, Hc'. clearbody results.
    injection Hres as <-. rewrite Hc'. simpl.
    split; [exact Httl |]. apply lookup_insert_eq.
  - destruct Hcase as (_ & msg & H). discriminate.
  - destruct Hcase as (_ & H). discriminate.
Qed.

(** X22. What [get_token_pairs] returns after a cache miss. The pairs
    come from the body of a 200 reply; only those whose chain is the
    normalized chain, compared in lower case, are kept, none is added
    and none is dropped; every one carries the normalized chain, the
    lower-cased address and the cache key; they are in descending order
    of liquidity; the first one is cached with the time of the call, and
    when none is on the chain nothing is cached. One cache miss is
    counted and the TTL is as before. *)
Theorem token_pairs_are_on_chain_and_sorted (net : Network)
  (chain token_address cn : string) (c c' : Client)
  (results : list TokenRegistry.TokenPrice) :
  client_ok c ->
  ChainRegistry.normalize_chain_id chain = Ok cn ->
  cache_lookup c (ChainRegistry.make_unique_key cn token_address) = None ->
  get_token_pairs net chain token_address c = (c', Returned results) ->
  exists pairs,
    reply_at net ("tokens/" +:+ token_address) c (sent c' - sent c - 1)
    = Status200 (Some pairs)
    /\ Permutation results
         (map (to_price cn token_address
                 (ChainRegistry.make_unique_key cn token_address) (clock c'))
            (List.filter (pair_on_chain cn) pairs))
    /\ StronglySorted
         (fun x y => TokenRegistry.liquidity_usd y
                     <= TokenRegistry.liquidity_usd x) results
    /\ Forall (fun p => TokenRegistry.chain_id p = cn
                        /\ TokenRegistry.contract_address p
                           = lower token_address
                        /\ TokenRegistry.unique_key p
                           = ChainRegistry.make_unique_key cn token_address)
         results
    /\ cache_misses (metrics c') = (cache_misses (metrics c) + 1)%Z
    /\ cache_ttl c' = cache_ttl c
    /\ cache c'
       = match results with
         | best :: _ =>
             <[ChainRegistry.make_unique_key cn token_address
               := (best, clock c')]> (cache c)
         | [] => cache c
         end.
Proof.
  intros Hok Hn Hl Hrun.
  destruct (pairs_cases _ _ _ _ _ _ _ Hok Hn Hl Hrun) as (c1 & r1 & Hf & Hcase).
  destruct (fetch_bounds _ _ _ _ _ _ (client_ok_miss c Hok) Hf)
    as (_ & _ & Hcache & Httl & _ & Hmiss & _ & Hr).
  destruct r1 as [[[| p ps] |] | e].
  - destruct Hcase as (_ & msg & H). discriminate.
  - destruct Hcase as (Hres & Hc').
    injection Hres as Hres.
    destruct Hr as (_ & Hrep & _).
    assert (Hfacts : sent c' = sent c1 /\ clock c' = clock c1
                     /\ metrics c' = metrics c1
                     /\ cache_ttl c' = cache_ttl c1).
    { rewrite Hc'. destruct (PySort.sort_desc _ _); auto. }
    destruct Hfacts as (Hsent & Hclock & Hmet & Httl').
    exists (p :: ps).
    split; [rewrite Hsent; exact Hrep |].
    assert (Hperm : Permutation results
                      (map (to_price cn token_address
                              (ChainRegistry.make_unique_key cn token_address)
                              (clock c'))
                         (List.filter (pair_on_chain cn) (p :: ps)))).
    { rewrite Hres, Hclock. apply sort_desc_perm. }
    split; [exact Hperm |].
    split; [rewrite Hres; apply sort_desc_sorted |].
    split.
    { apply Forall_forall. intros x Hx.
      rewrite Hperm in Hx. apply list_elem_of_fmap in Hx as (q & -> & _).
      auto. }
    split; [rewrite Hmet; exact Hmiss |].
    split; [rewrite Httl'; exact Httl |].
    rewrite Hclock, Hc', Hres.
    destruct (PySort.sort_desc _ _); simpl; [exact Hcache |].
    rewrite Hcache. reflexivity.
  - destruct Hcase as (_ & msg & H). discriminate.
  - destruct Hcase as (_ & H). discriminate.
Qed.

Lemma token_pairs_are_on_chain_and_sorted_witness :
  match get_token_pairs Cases.net_deep "ETH" Cases.deep_address (init 0) with
  | (c', Returned results) =>
      exists pairs,
        reply_at Cases.net_deep ("tokens/" +:+ Cases.deep_address) (init 0)
          (sent c' - sent (init 0) - 1)
        = Status200 (Some pairs)
        /\ Permutation results
             (map (to_price "ethereum" Cases.deep_address
                     (ChainRegistry.make_unique_key "ethereum"
                        Cases.deep_address) (clock c'))
                (List.filter (pair_on_chain "ethereum") pairs))
        /\ StronglySorted
             (fun x y => TokenRegistry.liquidity_usd y
                         <= TokenRegistry.liquidity_usd x) results
        /\ Forall (fun p => TokenRegistry.chain_id p = "ethereum"
                            /\ TokenRegistry.contract_address p
                               = lower Cases.deep_address
                            /\ TokenRegistry.unique_key p
                               = ChainRegistry.make_unique_key "ethereum"
                                   Cases.deep_address)
             results
        /\ cache_misses (metrics c')
           = (cache_misses (metrics (init 0)) + 1)%Z
        /\ cache_ttl c' = cache_ttl (init 0)
        /\ cache c'
           = match results with
             | best :: _ =>
                 <[ChainRegistry.make_unique_key "ethereum" Cases.deep_address
                   := (best, clock c')]> (cache (init 0))
             | [] => cache (init 0)
             end
  | (_, Raised _) => False
  end.
Proof.
  pose proof (eq_refl : match (get_token_pairs Cases.net_deep "ETH"
                                 Cases.deep_address (init 0)).2
                        with Returned _ => true | Raised _ => false end
                        = true) as Hs.
  destruct (get_token_pairs Cases.net_deep "ETH" Cases.deep_address (init 0))
    as [c' [results | e]] eqn:Hrun; [| discriminate Hs].
  apply (token_pairs_are_on_chain_and_sorted Cases.net_deep "ETH"
           Cases.deep_address "ethereum" (init 0) c' results);
    [apply init_client_ok | reflexivity | reflexivity | exact Hrun].
Defined.

(** X23. A cached price is served alone. After [get_token_pairs] has
    returned a list from the network, every later call for the same
    token, in whatever spelling of the chain and of the address that
    normalizes to the same key, made less than the TTL after the first,
    returns the single most liquid pair of the first call and not the
    list; it sends no request, counts one cache hit and changes nothing
    else. [get_token_price] returns that pair. *)
Theorem cached_price_is_served_alone (net net' : Network)
  (chain chain' token_address token_address' cn : string) (c c1 : Client)
  (best : TokenRegistry.TokenPrice) (rest : list TokenRegistry.TokenPrice)
  (t : Q) :
  client_ok c ->
  ChainRegistry.normalize_chain_id chain = Ok cn ->
  ChainRegistry.normalize_chain_id chain' = Ok cn ->
  lower token_address' = lower token_address ->
  cache_lookup c (ChainRegistry.make_unique_key cn token_address) = None ->
  get_token_pairs net chain token_address c = (c1, Returned (best :: rest)) ->
  t - clock c1 < cache_ttl c ->
  get_token_pairs net' chain' token_address' (set_clock c1 t)
  = (set_metrics (set_clock c1 t) (count_cache_hit (metrics c1)),
     Returned [best])
  /\ get_token_price net' chain' token_address' (set_clock c1 t)
     = (set_metrics (set_clock c1 t) (count_cache_hit (metrics c1)),
        Returned (Some best)).
Proof.
  intros Hok Hn Hn' Ha Hl Hrun Ht.
  destruct (pairs_returned_cache _ _ _ _ _ _ _ _ Hok Hn Hl Hrun)
    as (Httl & Hcache).
  assert (Hpairs : get_token_pairs net' chain' token_address' (set_clock c1 t)
                   = (set_metrics (set_clock c1 t)
                        (count_cache_hit (metrics c1)),
                      Returned [best])).
  { unfold get_token_pairs. rewrite Hn'.
    assert (Hkey : ChainRegistry.make_unique_key cn token_address'
                   = ChainRegistry.make_unique_key cn token_address).
    { unfold ChainRegistry.make_unique_key. rewrite Ha. reflexivity. }
    rewrite Hkey. unfold cache_lookup. simpl.
    rewrite Hcache, Httl.
    apply Qlt_bool_true_iff in Ht. rewrite Ht. reflexivity. }
  split; [exact Hpairs |].
  unfold get_token_price. rewrite Hpairs. reflexivity.
Qed.

Lemma cached_price_is_served_alone_witness :
  match get_token_pairs Cases.net_deep "ETH" Cases.deep_address (init 0) with
  | (c1, Returned (best :: rest)) =>
      get_token_pairs Cases.net_down " Ethereum" (lower Cases.deep_address)
        (set_clock c1 200)
      = (set_metrics (set_clock c1 200) (count_cache_hit (metrics c1)),
         Returned [best])
      /\ get_token_price Cases.net_down " Ethereum" (lower Cases.deep_address)
           (set_clock c1 200)
         = (set_metrics (set_clock c1 200) (count_cache_hit (metrics c1)),
            Returned (Some best))
  | _ => False
  end.
Proof.
  pose proof (eq_refl : match get_token_pairs Cases.net_deep "ETH"
                                Cases.deep_address (init 0)
                        with
                        | (c1, Returned (_ :: _)) =>
                            TokenRegistry.Qlt_bool (200 - clock c1) 300
                        | _ => false
                        end = true) as Hs.
  destruct (get_token_pairs Cases.net_deep "ETH" Cases.deep_address (init 0))
    as [c1 [[| best rest] | e]] eqn:Hrun; try discriminate Hs.
  apply (cached_price_is_served_alone Cases.net_deep Cases.net_down
           "ETH" " Ethereum" Cases.deep_address (lower Cases.deep_address)
           "ethereum" (init 0) c1 best rest 200);
    [apply init_client_ok | reflexivity | reflexivity | reflexivity
     | reflexivity | exact Hrun | apply Qlt_bool_true_iff; exact Hs].
Defined.

(** X24. No pair is no price, but an empty reply is a chain error. When
    the first reply is a 200 with no pair on the requested chain,
    [get_token_price] returns [None] after one request and caches
    nothing. When the reply has no pairs at all, [get_token_pairs]
    raises [NoLiquidityError] and the error is counted for the chain,
    although the request is counted as a success; when it has pairs of
    other chains only, [get_token_pairs] returns the empty list and no
    chain error is counted. *)
Theorem no_pairs_is_no_price (net : Network) (chain token_address cn : string)
  (c : Client) (data : option (list pair)) :
  client_ok c ->
  CircuitBreaker.state (circuit_breaker c) <> CircuitBreaker.open ->
  ChainRegistry.normalize_chain_id chain = Ok cn ->
  cache_lookup c (ChainRegistry.make_unique_key cn token_address) = None ->
  reply_at net ("tokens/" +:+ token_address) c 0 = Status200 data ->
  List.filter (pair_on_chain cn) (default [] data) = [] ->
  exists c',
    get_token_price net chain token_address c = (c', Returned None)
    /\ sent c' = S (sent c)
    /\ cache c' = cache c
    /\ requests_success (metrics c') = (requests_success (metrics c) + 1)%Z
    /\ requests_failed (metrics c') = requests_failed (metrics c)
    /\ match data with
       | None | Some [] =>
           (exists msg,
               get_token_pairs net chain token_address c
               = (c', Raised (NoLiquidityError msg)))
           /\ chain_errors (metrics c') !! cn
              = Some (default 0 (chain_errors (metrics c) !! cn) + 1)%Z
       | Some _ =>
           get_token_pairs net chain token_address c = (c', Returned [])
           /\ chain_errors (metrics c') = chain_errors (metrics c)
       end.
Proof.
  intros Hok Hnot Hn Hl Hrep Hnone.
  destruct (get_token_pairs net chain token_address c) as [c' r] eqn:Hrun.
  destruct (pairs_cases _ _ _ _ _ _ _ Hok Hn Hl Hrun) as (c1 & r1 & Hf & Hcase).
  destruct (fetch_bounds _ _ _ _ _ _ (client_ok_miss c Hok) Hf)
    as (_ & _ & Hcache & _ & _ & _ & Hce & _).
  destruct (fetch_first_ok net ("tokens/" +:+ token_address) false
              (set_metrics c (count_cache_miss (metrics c))) data
              (client_ok_miss c Hok) Hnot Hrep)
    as (c2 & Hf2 & Hsent & Hrf & Hrs).
  rewrite Hf in Hf2. injection Hf2 as <- ->.
  simpl in Hsent, Hrf, Hrs, Hcache, Hce.
  exists c'. unfold get_token_price. rewrite Hrun.
  destruct data as [[| p ps] |].
  - destruct Hcase as (-> & msg & ->). simpl.
    split; [reflexivity |]. split; [assumption |].
    do 3 (split; [assumption |]).
    split; [eauto |]. rewrite lookup_insert_eq, Hce. reflexivity.
  - destruct Hcase as (-> & ->).
    change (default [] (Some (p :: ps))) with (p :: ps) in Hnone.
    rewrite Hnone. simpl.
    split; [reflexivity |]. split; [assumption |].
    do 3 (split; [assumption |]).
    split; [reflexivity | assumption].
  - destruct Hcase as (-> & msg & ->). simpl.
    split; [reflexivity |]. split; [assumption |].
    do 3 (split; [assumption |]).
    split; [eauto |]. rewrite lookup_insert_eq, Hce. reflexivity.
Qed.

Lemma no_pairs_is_no_price_witness :
  exists c',
    get_token_price (Cases.answers []) "eth" Cases.deep_address (init 0)
    = (c', Returned None)
    /\ sent c' = 1%nat
    /\ cache c' = cache (init 0)
    /\ requests_success (metrics c') = 1%Z
    /\ requests_failed (metrics c') = 0%Z
    /\ (exists msg,
           get_token_pairs (Cases.answers []) "eth" Cases.deep_address (init 0)
           = (c', Raised (NoLiquidityError msg)))
    /\ chain_errors (metrics c') !! "ethereum" = Some 1%Z.
Proof.
  destruct (no_pairs_is_no_price (Cases.answers []) "eth" Cases.deep_address
              "ethereum" (init 0) (Some []))
    as (c' & H1 & H2 & H3 & H4 & H5 & H6 & H7).
  - apply init_client_ok.
  - discriminate.
  - reflexivity.
  - reflexivity.
  - reflexivity.
  - reflexivity.
  - exists c'. repeat (split; [assumption |]). exact H7.
Defined.

End PairsProperties.

Section GroupingProperties.

Import DexClient.
#[local] Open Scope Q_scope.

Lemma put_dex_keys (p : TokenRegistry.TokenPrice)
  (entries : list (string * TokenRegistry.TokenPrice)) :
  map fst (put_dex p entries)
  = if bool_decide (TokenRegistry.dex_id p ∈ map fst entries)
    then map fst entries
    else map fst entries ++ [TokenRegistry.dex_id p].
Proof.
  induction entries as [| [dex q] rest IH]; [reflexivity |].
  simpl. destruct (String.eqb dex (TokenRegistry.dex_id p)) eqn:He.
  - apply String.eqb_eq in He. subst dex.
    rewrite bool_decide_eq_true_2 by apply list_elem_of_here. reflexivity.
  - apply String.eqb_neq in He. simpl. rewrite IH.
    destruct (bool_decide (TokenRegistry.dex_id p ∈ map fst rest)) eqn:Hin.
    + apply bool_decide_eq_true in Hin.
      rewrite bool_decide_eq_true_2 by (apply list_elem_of_further; exact Hin).
      reflexivity.
    + apply bool_decide_eq_false in Hin.
      rewrite bool_decide_eq_false_2; [reflexivity |].
      intros H. apply elem_of_cons in H as [H | H]; [congruence | contradiction].
Qed.

Lemma put_dex_nodup (p : TokenRegistry.TokenPrice)
  (entries : list (string * TokenRegistry.TokenPrice)) :
  NoDup (map fst entries) -> NoDup (map fst (put_dex p entries)).
Proof.
  intros H. rewrite put_dex_keys.
  destruct (bool_decide _) eqn:Hin; [exact H |].
  apply bool_decide_eq_false in Hin.
  apply NoDup_app. split; [exact H |]. split.
  - intros x Hx Hx'. apply list_elem_of_singleton in Hx'. subst x. contradiction.
  - apply NoDup_singleton.
Qed.

Lemma put_dex_elem (p : TokenRegistry.TokenPrice)
  (entries : list (string * TokenRegistry.TokenPrice))
  (d : string) (q : TokenRegistry.TokenPrice) :
  (d, q) ∈ put_dex p entries ->
  (d = TokenRegistry.dex_id p /\ q = p) \/ (d, q) ∈ entries.
Proof.
  induction entries as [| [dex q0] rest IH]; simpl.
  - intros H. apply list_elem_of_singleton in H. injection H as -> ->. auto.
  - destruct (String.eqb dex (TokenRegistry.dex_id p)) eqn:He.
    + apply String.eqb_eq in He. subst dex.
      intros H. apply elem_of_cons in H as [H | H].
      * injection H as -> ->.
        destruct (TokenRegistry.Qlt_bool _ _); [auto |].
        right. apply list_elem_of_here.
      * right. apply list_elem_of_further. exact H.
    + intros H. apply elem_of_cons in H as [H | H].
      * right. rewrite H. apply list_elem_of_here.
      * destruct (IH H) as [? | ?]; [auto |].
        right. apply list_elem_of_further. assumption.
Qed.

Lemma put_dex_new (p : TokenRegistry.TokenPrice)
  (entries : list (string * TokenRegistry.TokenPrice)) :
  exists q,
    (TokenRegistry.dex_id p, q) ∈ put_dex p entries
    /\ TokenRegistry.liquidity_usd p <= TokenRegistry.liquidity_usd q.
Proof.
  induction entries as [| [dex q0] rest IH]; simpl.
  - exists p. split; [apply list_elem_of_here | apply Qle_refl].
  - destruct (String.eqb dex (TokenRegistry.dex_id p)) eqn:He.
    + apply String.eqb_eq in He. subst dex.
      destruct (TokenRegistry.Qlt_bool _ _) eqn:Hlt.
      * exists p. split; [apply list_elem_of_here | apply Qle_refl].
      * exists q0. split; [apply list_elem_of_here |].
        apply Qlt_bool_false_iff in Hlt. exact Hlt.
    + destruct IH as (q & Hq & Hle). exists q.
      split; [apply list_elem_of_further; exact Hq | exact Hle].
Qed.

Lemma put_dex_old (p : TokenRegistry.TokenPrice)
  (entries : list (string * TokenRegistry.TokenPrice))
  (d : string) (q : TokenRegistry.TokenPrice) :
  (d, q) ∈ entries ->
  exists q',
    (d, q') ∈ put_dex p entries
    /\ TokenRegistry.liquidity_usd q <= TokenRegistry.liquidity_usd q'.
Proof.
  induction entries as [| [dex q0] rest IH]; simpl.
  - intros H. inversion H.
  - intros H. destruct (String.eqb dex (TokenRegistry.dex_id p)) eqn:He.
    + apply elem_of_cons in H as [H | H].
      * injection H as -> ->.
        destruct (TokenRegistry.Qlt_bool _ _) eqn:Hlt.
        -- exists p. split; [apply list_elem_of_here |].
           apply Qlt_bool_true_iff in Hlt. apply Qlt_le_weak. exact Hlt.
        -- exists q0. split; [apply list_elem_of_here | apply Qle_refl].
      * exists q. split; [apply list_elem_of_further; exact H | apply Qle_refl].
    + apply elem_of_cons in H as [H | H].
      * exists q. split; [rewrite H; apply list_elem_of_here | apply Qle_refl].
      * destruct (IH H) as (q' & Hq' & Hle). exists q'.
        split; [apply list_elem_of_further; exact Hq' | exact Hle].
Qed.

(** The dictionary of [compare_prices_across_dexes] after the pairs
    [seen]: the keys are distinct, every value is one of the pairs seen,
    filed under its own DEX, and every pair seen is matched by a value of
    its DEX that is at least as liquid. *)
Lemma dex_prices_fold (l seen : list TokenRegistry.TokenPrice)
  (entries : list (string * TokenRegistry.TokenPrice)) :
  NoDup (map fst entries) ->
  (forall d q, (d, q) ∈ entries -> TokenRegistry.dex_id q = d /\ q ∈ seen) ->
  (forall p, p ∈ seen ->
     exists q, (TokenRegistry.dex_id p, q) ∈ entries
               /\ TokenRegistry.liquidity_usd p <= TokenRegistry.liquidity_usd q) ->
  let entries' := fold_left (fun entries p => put_dex p entries) l entries in
  NoDup (map fst entries')
  /\ (forall d q, (d, q) ∈ entries' ->
        TokenRegistry.dex_id q = d /\ q ∈ seen ++ l)
  /\ (forall p, p ∈ seen ++ l ->
        exists q, (TokenRegistry.dex_id p, q) ∈ entries'
                  /\ TokenRegistry.liquidity_usd p
                     <= TokenRegistry.liquidity_usd q).
Proof.
  revert seen entries. induction l as [| p l IH]; intros seen entries Hnd Hval Hall.
  - simpl. rewrite app_nil_r. auto.
  - simpl.
    replace (seen ++ p :: l) with ((seen ++ [p]) ++ l)
      by (rewrite <- app_assoc; reflexivity).
    apply IH.
    + apply put_dex_nodup. exact Hnd.
    + intros d q Hq. apply put_dex_elem in Hq as [[-> ->] | Hq].
      * split; [reflexivity |]. apply elem_of_app. right.
        apply list_elem_of_here.
      * destruct (Hval _ _ Hq) as [H1 H2]. split; [exact H1 |].
        apply elem_of_app. left. exact H2.
    + intros p' Hp'. apply elem_of_app in Hp' as [Hp' | Hp'].
      * destruct (Hall _ Hp') as (q & Hq & Hle).
        destruct (put_dex_old p entries _ _ Hq) as (q' & Hq' & Hle').
        exists q'. split; [exact Hq' |]. eapply Qle_trans; eauto.
      * apply list_elem_of_singleton in Hp'. subst p'. apply put_dex_new.
Qed.

(** X25. [compare_prices_across_dexes] keeps one pair per DEX, the most
    liquid one. In the list it builds from the pairs of
    [get_token_pairs] no DEX occurs twice, every element is one of the
    pairs, and for every pair the list has an element of the same DEX
    that is at least as liquid. *)
Theorem best_per_dex_keeps_deepest
  (all_pairs : list TokenRegistry.TokenPrice) :
  NoDup (map TokenRegistry.dex_id (best_per_dex all_pairs))
  /\ (forall q, q ∈ best_per_dex all_pairs -> q ∈ all_pairs)
  /\ (forall p, p ∈ all_pairs ->
        exists q, q ∈ best_per_dex all_pairs
                  /\ TokenRegistry.dex_id q = TokenRegistry.dex_id p
                  /\ TokenRegistry.liquidity_usd p
                     <= TokenRegistry.liquidity_usd q)
  /\ (forall net chain token_address c,
        match get_token_pairs net chain token_address c with
        | (c', Returned pairs) =>
            compare_prices_across_dexes net chain token_address c
            = (c', Returned (best_per_dex pairs))
        | (c', Raised e) =>
            compare_prices_across_dexes net chain token_address c
            = (c', Raised e)
        end).
Proof.
  destruct (dex_prices_fold all_pairs [] []) as (Hnd & Hval & Hall).
  { constructor. }
  { intros d q H. inversion H. }
  { intros p H. inversion H. }
  simpl in Hval, Hall. unfold best_per_dex.
  set (entries := fold_left (fun entries p => put_dex p entries) all_pairs [])
    in *.
  assert (Hkeys : map TokenRegistry.dex_id (map snd entries) = map fst entries).
  { rewrite map_map. apply map_ext_in. intros [d q] Hin. simpl.
    apply list_elem_of_In in Hin. apply (Hval _ _ Hin). }
  split; [rewrite Hkeys; exact Hnd |].
  split.
  { intros q Hq. apply list_elem_of_fmap in Hq as ([d q'] & -> & Hin).
    apply (Hval _ _ Hin). }
  split.
  { intros p Hp. destruct (Hall p Hp) as (q & Hq & Hle).
    exists q. split; [| split; [apply (Hval _ _ Hq) | exact Hle]].
    apply list_elem_of_fmap. exists (TokenRegistry.dex_id p, q). auto. }
  intros net chain token_address c.
  unfold compare_prices_across_dexes, bind.
  destruct (get_token_pairs net chain token_address c) as [c' [pairs | e]];
    reflexivity.
Qed.

Lemma count_pair_keys (key : string) (p : pair)
  (entries : list (string * DexScreener.token)) :
  map fst (count_pair key p entries)
  = if bool_decide (key ∈ map fst entries)
    then map fst entries
    else map fst entries ++ [key].
Proof.
  induction entries as [| [k t] rest IH]; [reflexivity |].
  simpl. destruct (String.eqb k key) eqn:He.
  - apply String.eqb_eq in He. subst k.
    rewrite bool_decide_eq_true_2 by apply list_elem_of_here. reflexivity.
  - apply String.eqb_neq in He. simpl. rewrite IH.
    destruct (bool_decide (key ∈ map fst rest)) eqn:Hin.
    + apply bool_decide_eq_true in Hin.
      rewrite bool_decide_eq_true_2 by (apply list_elem_of_further; exact Hin).
      reflexivity.
    + apply bool_decide_eq_false in Hin.
      rewrite bool_decide_eq_false_2; [reflexivity |].
      intros H. apply elem_of_cons in H as [H | H]; [congruence | contradiction].
Qed.

Lemma count_pair_nodup (key : string) (p : pair)
  (entries : list (string * DexScreener.token)) :
  NoDup (map fst entries) -> NoDup (map fst (count_pair key p entries)).
Proof.
  intros H. rewrite count_pair_keys.
  destruct (bool_decide _) eqn:Hin; [exact H |].
  apply bool_decide_eq_false in Hin.
  apply NoDup_app. split; [exact H |]. split.
  - intros x Hx Hx'. apply list_elem_of_singleton in Hx'. subst x. contradiction.
  - apply NoDup_singleton.
Qed.

Lemma count_pair_has_key (key : string) (p : pair)
  (entries : list (string * DexScreener.token)) :
  key ∈ map fst (count_pair key p entries).
Proof.
  rewrite count_pair_keys. destruct (bool_decide _) eqn:Hin.
  - apply bool_decide_eq_true in Hin. exact Hin.
  - apply elem_of_app. right. apply list_elem_of_here.
Qed.

Lemma count_pair_keeps_keys (key k : string) (p : pair)
  (entries : list (string * DexScreener.token)) :
  k ∈ map fst entries -> k ∈ map fst (count_pair key p entries).
Proof.
  intros H. rewrite count_pair_keys. destruct (bool_decide _); [exact H |].
  apply elem_of_app. left. exact H.
Qed.

Lemma count_pair_total (key : string) (p : pair)
  (entries : list (string * DexScreener.token)) :
  fold_right Z.add 0%Z
    (map (fun e => DexScreener.pairs_count (snd e)) (count_pair key p entries))
  = (fold_right Z.add 0%Z
       (map (fun e => DexScreener.pairs_count (snd e)) entries) + 1)%Z.
Proof.
  induction entries as [| [k t] rest IH]; [reflexivity |].
  simpl. destruct (String.eqb k key); simpl; [lia | rewrite IH; lia].
Qed.

Lemma count_pair_entries (p : pair)
  (entries : list (string * DexScreener.token)) :
  Forall token_entry_ok entries ->
  Forall token_entry_ok (count_pair (pair_key p) p entries).
Proof.
  induction entries as [| [k t] rest IH]; intros H.
  - simpl. constructor; [| constructor].
    unfold token_entry_ok, pair_key, ChainRegistry.make_unique_key. simpl.
    rewrite !lower_idem. repeat split. lia.
  - inversion H as [| ? ? Hhead Hrest]; subst. simpl.
    destruct (String.eqb k (pair_key p)).
    + constructor; [| exact Hrest].
      destruct Hhead as (H1 & H2 & H3). unfold token_entry_ok. simpl in *.
      repeat split; [assumption | assumption | lia].
    + constructor; [exact Hhead | apply IH; exact Hrest].
Qed.

Lemma tokens_fold (l : list pair)
  (entries : list (string * DexScreener.token)) :
  NoDup (map fst entries) ->
  Forall token_entry_ok entries ->
  let entries' :=
    fold_left (fun entries p => count_pair (pair_key p) p entries) l entries in
  NoDup (map fst entries')
  /\ Forall token_entry_ok entries'
  /\ fold_right Z.add 0%Z
       (map (fun e => DexScreener.pairs_count (snd e)) entries')
     = (fold_right Z.add 0%Z
          (map (fun e => DexScreener.pairs_count (snd e)) entries)
        + Z.of_nat (length l))%Z
  /\ (forall k, k ∈ map fst entries -> k ∈ map fst entries')
  /\ (forall p, p ∈ l -> pair_key p ∈ map fst entries').
Proof.
  revert entries. induction l as [| p l IH]; intros entries Hnd Hok.
  - simpl. repeat split; auto; [lia |]. intros p H. inversion H.
  - simpl fold_left.
    destruct (IH (count_pair (pair_key p) p entries)
                (count_pair_nodup _ _ _ Hnd) (count_pair_entries _ _ Hok))
      as (I1 & I2 & I3 & I4 & I5).
    split; [exact I1 |]. split; [exact I2 |].
    split; [rewrite I3, count_pair_total; simpl length; lia |].
    split.
    + intros k Hk. apply I4, count_pair_keeps_keys, Hk.
    + intros p' Hp'. apply elem_of_cons in Hp' as [-> | Hp'].
      * apply I4, count_pair_has_key.
      * apply I5, Hp'.
Qed.

(** X26. [search_tokens] groups the pairs of the reply by token. In the
    list it returns no key occurs twice; every pair of the reply is
    counted in exactly one token, the one with its chain and base
    address in lower case, so that the pair counts add up to the number
    of pairs; the key of a token is the key of its chain and address.
    A reply without pairs gives the empty list, and whatever [_fetch]
    raises is passed on. *)
Theorem search_groups_pairs_by_token (pairs : list pair) :
  NoDup (map DexScreener.unique_key (group_tokens pairs))
  /\ fold_right Z.add 0%Z (map DexScreener.pairs_count (group_tokens pairs))
     = Z.of_nat (length pairs)
  /\ (forall p, p ∈ pairs ->
        exists t, t ∈ group_tokens pairs
                  /\ DexScreener.unique_key t = pair_key p)
  /\ Forall (fun t =>
               DexScreener.unique_key t
               = ChainRegistry.make_unique_key (DexScreener.chain_id t)
                   (DexScreener.address t)
               /\ (1 <= DexScreener.pairs_count t)%Z)
       (group_tokens pairs)
  /\ (forall net query c,
        match _fetch net ("search?q=" +:+ query) true c with
        | (c', Returned data) =>
            search_tokens net query c
            = (c', Returned (group_tokens (default [] data)))
        | (c', Raised e) => search_tokens net query c = (c', Raised e)
        end).
Proof.
  destruct (tokens_fold pairs []) as (Hnd & Hok & Hsum & _ & Hkeys).
  { constructor. }
  { constructor. }
  simpl in Hsum. unfold group_tokens.
  set (entries := fold_left
                    (fun entries p => count_pair (pair_key p) p entries)
                    pairs []) in *.
  assert (Hkey : forall e, e ∈ entries ->
                           DexScreener.unique_key (snd e) = fst e).
  { intros e He. rewrite Forall_forall in Hok. apply (Hok e He). }
  assert (Hmap : map DexScreener.unique_key (map snd entries) = map fst entries).
  { rewrite map_map. apply map_ext_in. intros e Hin.
    apply Hkey, list_elem_of_In, Hin. }
  split; [rewrite Hmap; exact Hnd |].
  split; [rewrite map_map; exact Hsum |].
  split.
  { intros p Hp. specialize (Hkeys p Hp).
    apply list_elem_of_fmap in Hkeys as (e & He1 & He2).
    exists (snd e). split; [apply list_elem_of_fmap; eauto |].
    rewrite He1. apply Hkey, He2. }
  split.
  { apply Forall_forall. intros t Ht.
    apply list_elem_of_fmap in Ht as (e & -> & He).
    rewrite Forall_forall in Hok. destruct (Hok e He) as (H1 & H2 & H3).
    split; [congruence | exact H3]. }
  intros net query c. unfold search_tokens, bind.
  destruct (_fetch net ("search?q=" +:+ query) true c)
    as [c' [[[| p ps] |] | e]]; reflexivity.
Qed.

(** X27. A failed [add_token] changes no index. Whenever [add_token]
    raises, the registered tokens, the symbol index and the scam set are
    as before; only the client may have moved. [ScamTokenError] is
    raised only for a key that was already in the scam set, and then
    nothing at all is changed. *)
Theorem failed_add_changes_no_index (net : Network) (c a : string)
  (verify : bool) (reg reg' : Registry.TokenRegistry) (e : Registry.exc) :
  Registry.add_token net c a verify reg = (reg', Registry.Raised e) ->
  Registry.tokens_by_key reg' = Registry.tokens_by_key reg
  /\ Registry.addresses_by_symbol reg' = Registry.addresses_by_symbol reg
  /\ Registry.scam_tokens reg' = Registry.scam_tokens reg
  /\ Registry.get_token c a reg' = None
  /\ (forall msg, e = Registry.ScamTokenError msg ->
        Registry.make_key c a ∈ Registry.scam_tokens reg /\ reg' = reg).
Proof.
  intros Hrun. apply add_token_cases in Hrun. unfold Registry.get_token.
  inversion Hrun; subst.
  - repeat (split; [solve [auto] |]). auto.
  - match goal with
    | Ht : Registry.tokens_by_key reg' = _ |- _ => rewrite Ht
    end.
    repeat (split; [solve [auto] |]).
    intros msg ->.
    match goal with H : forall m, _ <> _ |- _ => destruct (H msg eq_refl) end.
Qed.

Lemma failed_add_changes_no_index_witness :
  match Registry.add_token Cases.net_down "ethereum" Cases.deep_address true
          Cases.registry0 with
  | (reg', Registry.Raised e) =>
      Registry.tokens_by_key reg' = Registry.tokens_by_key Cases.registry0
      /\ Registry.addresses_by_symbol reg'
         = Registry.addresses_by_symbol Cases.registry0
      /\ Registry.scam_tokens reg' = Registry.scam_tokens Cases.registry0
      /\ Registry.get_token "ethereum" Cases.deep_address reg' = None
      /\ (forall msg, e = Registry.ScamTokenError msg ->
            Registry.make_key "ethereum" Cases.deep_address
            ∈ Registry.scam_tokens Cases.registry0
            /\ reg' = Cases.registry0)
  | (_, Registry.Returned _) => False
  end.
Proof.
  pose proof (eq_refl : match (Registry.add_token Cases.net_down "ethereum"
                                 Cases.deep_address true Cases.registry0).2
                        with
                        | Registry.Raised _ => true
                        | Registry.Returned _ => false
                        end = true) as Hs.
  destruct (Registry.add_token Cases.net_down "ethereum" Cases.deep_address
              true Cases.registry0) as [reg' [t | e]] eqn:Hrun;
    [discriminate Hs |].
  apply (failed_add_changes_no_index Cases.net_down "ethereum"
           Cases.deep_address true Cases.registry0 reg' e Hrun).
Defined.

End GroupingProperties.

(** ** The manager of the rate limiters *)

Section ManagerProperties.

Import RateLimiter RateLimiterManager.
#[local] Open Scope Q_scope.

Lemma ten_pos : (1 <= 10)%Z.
Proof. lia. Qed.

Lemma times_of_cons (api_name name : string) (t : Q)
  (l : list (string * Q)) :
  times_of api_name ((name, t) :: l)
  = if String.eqb name api_name then t :: times_of api_name l
    else times_of api_name l.
Proof.
  unfold times_of. simpl. destruct (String.eqb name api_name); reflexivity.
Qed.

(** One call through the manager: it does not raise, and the manager
    stays well formed with the lock of the API released at the time the
    call returns. *)
Lemma manager_acquire_step (m : t) (free : gmap string Q)
  (api_name : string) (arrival : Q) :
  manager_ok m free ->
  let now :=
    match free !! api_name with
    | Some free_at => if Qlt_le_dec arrival free_at then free_at else arrival
    | None => arrival
    end in
  exists m' done limiter',
    RateLimiterManager.acquire api_name arrival now m = Ok (m', done)
    /\ manager_ok m' (<[api_name := done]> free)
    /\ limiters m' !! api_name = Some limiter'
    /\ (forall other, other <> api_name ->
          limiters m' !! other = limiters m !! other)
    /\ RateLimiter.acquire now
         (default (RateLimiter.init 10 arrival) (limiters m !! api_name))
       = Ok (limiter', done).
Proof.
  intros (Hd & Hok & Hnone). simpl.
  unfold RateLimiterManager.acquire, get_limiter.
  destruct (limiters m !! api_name) as [limiter |] eqn:Hl.
  - destruct (Hok _ _ Hl) as (free_at & Hf & Hb). rewrite Hf.
    set (now := if Qlt_le_dec arrival free_at then free_at else arrival).
    assert (Hnow : free_at <= now).
    { unfold now. destruct (Qlt_le_dec arrival free_at); lra. }
    destruct (acquire_step 10 ten_pos limiter free_at now Hb Hnow)
      as (b' & done & Ha & Hb' & _).
    rewrite Ha. eexists. exists done, b'. split; [reflexivity |]. simpl.
    split; [| split; [apply lookup_insert_eq | split; [| exact Ha]]].
    + split; [exact Hd |]. split.
      * intros name l' Hl'. simpl in Hl'.
        destruct (decide (name = api_name)) as [-> | Hne].
        -- rewrite lookup_insert_eq in Hl'. injection Hl' as <-.
           exists done. rewrite lookup_insert_eq. auto.
        -- rewrite lookup_insert_ne in Hl' by congruence.
           rewrite lookup_insert_ne by congruence. apply Hok, Hl'.
      * intros name Hl'. simpl in Hl'.
        destruct (decide (name = api_name)) as [-> | Hne].
        -- rewrite lookup_insert_eq in Hl'. discriminate.
        -- rewrite lookup_insert_ne in Hl' by congruence.
           rewrite lookup_insert_ne by congruence. apply Hnone, Hl'.
    + intros other Hne. apply lookup_insert_ne. congruence.
  - rewrite (Hnone _ Hl), Hd. simpl.
    destruct (acquire_step 10 ten_pos (RateLimiter.init 10 arrival) arrival
                arrival (init_ok 10 ten_pos arrival))
      as (b' & done & Ha & Hb' & _); [lra |].
    rewrite Ha. eexists. exists done, b'. split; [reflexivity |]. simpl.
    split; [| split; [apply lookup_insert_eq | split; [| reflexivity]]].
    + split; [reflexivity |]. split.
      * intros name l' Hl'. simpl in Hl'.
        destruct (decide (name = api_name)) as [-> | Hne].
        -- rewrite lookup_insert_eq in Hl'. injection Hl' as <-.
           exists done. rewrite lookup_insert_eq. auto.
        -- rewrite !lookup_insert_ne in Hl' by congruence.
           rewrite lookup_insert_ne by congruence. apply Hok, Hl'.
      * intros name Hl'. simpl in Hl'.
        destruct (decide (name = api_name)) as [-> | Hne].
        -- rewrite lookup_insert_eq in Hl'. discriminate.
        -- rewrite !lookup_insert_ne in Hl' by congruence.
           rewrite lookup_insert_ne by congruence. apply Hnone, Hl'.
    + intros other Hne. rewrite !lookup_insert_ne by congruence. reflexivity.
Qed.

(** The calls of one API are served as by a bucket of their own: the
    traffic of the other APIs does not show. *)
Lemma manager_serve_projects (calls : list (string * Q)) :
  forall (m : t) (free : gmap string Q),
    manager_ok m free ->
    exists cs,
      RateLimiterManager.serve m free calls = Ok cs
      /\ map fst cs = map fst calls
      /\ forall api_name,
           match limiters m !! api_name, free !! api_name with
           | Some limiter, Some free_at =>
               RateLimiter.serve limiter free_at (times_of api_name calls)
               = Ok (times_of api_name cs)
           | _, _ =>
               match times_of api_name calls with
               | [] => times_of api_name cs = []
               | first :: later =>
                   RateLimiter.serve (RateLimiter.init 10 first) first
                     (first :: later)
                   = Ok (times_of api_name cs)
               end
           end.
Proof.
  induction calls as [| [name arrival] rest IH]; intros m free Hok.
  - exists []. split; [reflexivity |]. split; [reflexivity |].
    intros api_name. simpl.
    destruct (limiters m !! api_name), (free !! api_name); reflexivity.
  - destruct (manager_acquire_step m free name arrival Hok)
      as (m' & done & limiter' & Ha & Hok' & Hl' & Hother & Hacq).
    destruct (IH m' _ Hok') as (cs & Hs & Hnames & Hproj).
    exists ((name, done) :: cs).
    split; [cbn [RateLimiterManager.serve]; rewrite Ha, Hs; reflexivity |].
    split; [simpl; rewrite Hnames; reflexivity |].
    intros api_name. rewrite !times_of_cons.
    destruct (String.eqb_spec name api_name) as [-> | Hne].
    + specialize (Hproj api_name).
      rewrite Hl', lookup_insert_eq in Hproj.
      destruct Hok as (_ & Hlim & Hnone).
      destruct (limiters m !! api_name) as [limiter |] eqn:Hl.
      * destruct (Hlim _ _ Hl) as (free_at & Hf & _).
        rewrite Hf in Hacq. rewrite Hf. simpl in Hacq.
        cbn [RateLimiter.serve]. rewrite Hacq, Hproj. reflexivity.
      * rewrite (Hnone _ Hl) in Hacq. simpl in Hacq.
        cbn [RateLimiter.serve].
        destruct (Qlt_le_dec arrival arrival); rewrite Hacq, Hproj; reflexivity.
    + specialize (Hproj api_name).
      rewrite (Hother api_name) in Hproj by congruence.
      rewrite lookup_insert_ne in Hproj by congruence.
      exact Hproj.
Qed.

(** X28. The resolver's rate limits, as its manager enforces them. For
    any traffic on a fresh manager, whatever the API names and the times
    of arrival: no call of [acquire] raises and every call completes;
    the calls of an API are served by a bucket of 10 requests per minute
    created when its first call arrives, as if the other APIs were not
    there; and no more than 31 calls of one API complete within any
    window of 60 seconds. *)
Theorem manager_limits_each_api (calls : list (string * Q)) :
  exists cs,
    RateLimiterManager.serve RateLimiterManager.init ∅ calls = Ok cs
    /\ map fst cs = map fst calls
    /\ forall api_name,
         match times_of api_name calls with
         | [] => times_of api_name cs = []
         | first :: later =>
             completions 10 first (first :: later)
             = Ok (times_of api_name cs)
         end
         /\ length (times_of api_name cs) = length (times_of api_name calls)
         /\ forall a, (count_in_window a (times_of api_name cs) <= 31)%nat.
Proof.
  assert (Hok : manager_ok RateLimiterManager.init ∅).
  { split; [reflexivity |]. split.
    - intros name l H. simpl in H. rewrite lookup_empty in H. discriminate.
    - intros name _. apply lookup_empty. }
  destruct (manager_serve_projects calls _ _ Hok) as (cs & Hs & Hnames & Hproj).
  exists cs. split; [exact Hs |]. split; [exact Hnames |].
  intros api_name. specialize (Hproj api_name).
  cbn [limiters RateLimiterManager.init] in Hproj.
  rewrite lookup_empty in Hproj.
  destruct (times_of api_name calls) as [| first later] eqn:Ht.
  - rewrite Hproj. split; [reflexivity |]. split; [reflexivity |].
    intros a. unfold count_in_window. simpl. lia.
  - split; [exact Hproj |].
    destruct (serve_total 10 ten_pos (first :: later)
                (RateLimiter.init 10 first) first (init_ok 10 ten_pos first))
      as (cs' & Hcs' & Hlen & _).
    rewrite Hproj in Hcs'. injection Hcs' as <-.
    split; [exact Hlen |].
    intros a.
    pose proof (count_in_window_bound 10 ten_pos (first :: later)
                  (RateLimiter.init 10 first) first a _
                  (init_ok 10 ten_pos first) Hproj) as Hq.
    assert (Heq : (3 * inject_Z 10 + 1 == inject_Z 31)%Q) by reflexivity.
    rewrite Heq in Hq. rewrite <- Zle_Qle in Hq. lia.
Qed.

(** X29. The manager keeps one limiter for each API. [get_limiter]
    returns the limiter the manager holds afterwards; a second call for
    the same API returns that limiter and the same manager whatever rate
    is asked for and whenever it is made; the limiters of the other APIs
    are untouched; and a rate of [None] or 0 means the default, so that
    with a default other than 0 no limiter of capacity 0 is ever
    created. *)
Theorem limiter_is_created_once (api_name : string)
  (requests_per_minute requests_per_minute' : option Z) (now now' : Q)
  (m : t) :
  limiters (get_limiter api_name requests_per_minute now m).1 !! api_name
  = Some (get_limiter api_name requests_per_minute now m).2
  /\ get_limiter api_name requests_per_minute' now'
       (get_limiter api_name requests_per_minute now m).1
     = get_limiter api_name requests_per_minute now m
  /\ (forall other, other <> api_name ->
        limiters (get_limiter api_name requests_per_minute now m).1 !! other
        = limiters m !! other)
  /\ (limiters m !! api_name = None ->
      default_rpm m <> 0%Z ->
      capacity (get_limiter api_name requests_per_minute now m).2 <> 0%Z
      /\ (requests_per_minute = None \/ requests_per_minute = Some 0%Z ->
          capacity (get_limiter api_name requests_per_minute now m).2
          = default_rpm m)
      /\ last_update (get_limiter api_name requests_per_minute now m).2 = now).
Proof.
  unfold get_limiter.
  destruct (limiters m !! api_name) as [limiter |] eqn:Hl; simpl.
  - rewrite Hl. split; [reflexivity |]. split; [reflexivity |].
    split; [reflexivity |]. intros Habs. discriminate Habs.
  - rewrite lookup_insert_eq. split; [reflexivity |]. split; [reflexivity |].
    split; [intros other Hne; apply lookup_insert_ne; congruence |].
    intros _ Hd. split; [| split; [| reflexivity]].
    + destruct requests_per_minute as [r |]; [| exact Hd].
      destruct (decide (r = 0%Z)); assumption.
    + intros [-> | ->]; [reflexivity |].
      destruct (decide (0%Z = 0%Z)); [reflexivity | contradiction].
Qed.

End ManagerProperties.
